(** * Cambio game core: a shallow embedding of [state_store.py] and of the
    HTTP endpoints of [main.py] that sit in front of it.

    The Python module keeps every session in the global dictionary
    [_game_store]; its functions read and mutate that dictionary and may
    raise.  The embedding threads the dictionary explicitly through a small
    state-and-exception monad in which a raised exception keeps the
    mutations made before it, as in Python. *)

From Stdlib Require Import PrimFloat.
From Stdlib Require Import ZArith String Ascii List Lia DecimalString DecimalZ DecimalPos.
From stdpp Require Import base option list gmap strings fin_maps.

Open Scope string_scope.
Open Scope Z_scope.

(** ** Exceptions and the state monad *)

(** The Python exception classes the modelled code can raise.
    [HTTPException] is FastAPI's, raised by the endpoints of [main.py]. *)
Inductive Exn :=
  | IndexError
  | KeyError (key : string)
  | StopIteration
  | TypeError (msg : string)
  | ValueError (msg : string)
  | HTTPException (status_code : Z) (detail : option string).

Inductive Res (A : Type) :=
  | Ok (a : A)
  | Raise (e : Exn).
Arguments Ok {A} a.
Arguments Raise {A} e.

(** A computation over a mutable object of type [S]: it returns a value or
    raises, and in both cases leaves a (possibly mutated) object behind. *)
Definition St (S A : Type) : Type := S -> Res A * S.

Definition st_ret {S A} (a : A) : St S A := fun s => (Ok a, s).

Definition st_bind {S A B} (c : St S A) (k : A -> St S B) : St S B :=
  fun s => match c s with
           | (Ok a, s') => k a s'
           | (Raise e, s') => (Raise e, s')
           end.

Definition raise {S A} (e : Exn) : St S A := fun s => (Raise e, s).
Definition get_st {S} : St S S := fun s => (Ok s, s).
Definition modify {S} (f : S -> S) : St S unit := fun s => (Ok tt, f s).

(** [try: c except ValueError as e: h str(e)]. *)
Definition try_except_ValueError {S A} (c : St S A) (h : string -> St S A) : St S A :=
  fun s => match c s with
           | (Raise (ValueError msg), s') => h msg s'
           | other => other
           end.

(** Lifting a pure computation that may raise. *)
Definition lift_res {S A} (r : Res A) : St S A := fun s => (r, s).

Definition res_bind {A B} (r : Res A) (k : A -> Res B) : Res B :=
  match r with
  | Ok a => k a
  | Raise e => Raise e
  end.

Notation "'let!' x ':=' c 'in' k" := (st_bind c (fun x => k))
  (at level 10, x pattern, c at level 100, k at level 200).
Notation "c ';;!' k" := (st_bind c (fun _ => k))
  (at level 100, k at level 200, right associativity).
Notation "'let?' x ':=' r 'in' k" := (res_bind r (fun x => k))
  (at level 10, x pattern, r at level 100, k at level 200).

(** ** Python primitives *)

(** [l[i]] for a Python list: negative indices count from the end, and an
    index out of range raises [IndexError]. *)
Definition py_getitem {A} (l : list A) (i : Z) : Res A :=
  let n := Z.of_nat (length l) in
  let j := if i <? 0 then i + n else i in
  if (0 <=? j) && (j <? n) then
    match l !! Z.to_nat j with
    | Some x => Ok x
    | None => Raise IndexError
    end
  else Raise IndexError.

(** [l[i] = x] for a Python list. *)
Definition py_setitem {A} (l : list A) (i : Z) (x : A) : Res (list A) :=
  let n := Z.of_nat (length l) in
  let j := if i <? 0 then i + n else i in
  if (0 <=? j) && (j <? n) then Ok (<[Z.to_nat j := x]> l)
  else Raise IndexError.

(** [l.index(x)]: position of the first element equal to [x]. *)
Fixpoint py_index {A} `{EqDecision A} (x : A) (l : list A) : option nat :=
  match l with
  | [] => None
  | y :: l' => if decide (y = x) then Some 0%nat else S <$> py_index x l'
  end.

(** [next(i for i, y in enumerate(l) if P y)], by position. *)
Fixpoint find_index {A} (P : A -> bool) (l : list A) : option nat :=
  match l with
  | [] => None
  | y :: l' => if P y then Some 0%nat else S <$> find_index P l'
  end.

(** [str(n)] for an integer. *)
Definition str_of_Z (n : Z) : string := NilZero.string_of_int (Z.to_int n).

(** [s[:-1]]: the string without its last character. *)
Fixpoint drop_last (s : string) : string :=
  match s with
  | EmptyString => EmptyString
  | String c EmptyString => EmptyString
  | String c s' => String c (drop_last s')
  end.

(** [int(s)] on a string, base 10: surrounding whitespace (tab, line feed,
    vertical tab, form feed, carriage return and space) is stripped, one
    sign is allowed, and the digits may be grouped by single underscores.
    Strings here are ASCII; Python's acceptance of non-ASCII digits and
    whitespace and the interpreter's configurable limit on the number of
    digits are outside the model. *)
Definition is_space (c : ascii) : bool :=
  let n := nat_of_ascii c in
  (((9 <=? n) && (n <=? 13)) || (n =? 32))%nat.

Definition digit_of (c : ascii) : option Z :=
  let n := Z.of_nat (nat_of_ascii c) in
  if (48 <=? n) && (n <=? 57) then Some (n - 48) else None.

Fixpoint parse_digits (acc : Z) (after_digit : bool) (l : list ascii) : option Z :=
  match l with
  | [] => if after_digit then Some acc else None
  | c :: l' =>
      if Ascii.eqb c "_" then
        if after_digit then parse_digits acc false l' else None
      else
        match digit_of c with
        | Some d => parse_digits (10 * acc + d) true l'
        | None => None
        end
  end.

Fixpoint lstrip (l : list ascii) : list ascii :=
  match l with
  | c :: l' => if is_space c then lstrip l' else l
  | [] => []
  end.

Definition strip (l : list ascii) : list ascii := rev (lstrip (rev (lstrip l))).

(** [repr(s)] of an ASCII string.  The string is put in double quotes when
    it holds a single quote and no double quote, in single quotes otherwise;
    the backslash and the enclosing quote are escaped with a backslash; tab,
    line feed and carriage return are written with the letters t, n and r
    after a backslash, and any other control character (below 32, or 127)
    as a backslash, the letter x and two lower-case hexadecimal digits.  A
    byte above 127 is part of a non-ASCII character, which is outside the
    model, and is left as it is. *)
Definition backslash : ascii := ascii_of_nat 92.
Definition single_quote : ascii := ascii_of_nat 39.
Definition double_quote : ascii := ascii_of_nat 34.

Definition hex_digit (n : nat) : ascii :=
  nth n (list_ascii_of_string "0123456789abcdef") "0"%char.

Definition repr_char (quote c : ascii) : string :=
  let n := nat_of_ascii c in
  if Ascii.eqb c quote || Ascii.eqb c backslash then String backslash (String c "")
  else if (n =? 9)%nat then String backslash "t"
  else if (n =? 10)%nat then String backslash "n"
  else if (n =? 13)%nat then String backslash "r"
  else if ((n <? 32) || (n =? 127))%nat then
    String backslash (String "x" (String (hex_digit (n / 16)) (String (hex_digit (n mod 16)) "")))
  else String c "".

Fixpoint repr_body (quote : ascii) (s : string) : string :=
  match s with
  | EmptyString => String quote ""
  | String c s' => repr_char quote c +:+ repr_body quote s'
  end.

Definition py_repr (s : string) : string :=
  let l := list_ascii_of_string s in
  let quote :=
    if existsb (Ascii.eqb single_quote) l && negb (existsb (Ascii.eqb double_quote) l)
    then double_quote else single_quote in
  String quote (repr_body quote s).

Definition py_int (s : string) : Res Z :=
  let body := strip (list_ascii_of_string s) in
  let parsed :=
    match body with
    | c :: l' =>
        if Ascii.eqb c "-" then Z.opp <$> parse_digits 0 false l'
        else if Ascii.eqb c "+" then parse_digits 0 false l'
        else parse_digits 0 false body
    | [] => None
    end in
  match parsed with
  | Some n => Ok n
  | None => Raise (ValueError ("invalid literal for int() with base 10: " +:+ py_repr s))
  end.

(** ** Data model *)

(** A card is the string [rank ++ suit], as built by [create_deck]. *)
Abbreviation Card := string.

(** A hand slot [{"card": ..., "visible": ...}].  The card is whatever value
    the code stores there: a string, or [None] when a discard top of [None]
    would be swapped in ([get_card_value] tests for it). *)
Record CardSlot := { card : option Card; visible : bool }.

Record Player := {
  player_id : string;
  name : string;
  seat : Z;
  hand : list CardSlot;
  score : Z
}.

Record HistoryEntry := { turn : Z; player : string; action : string }.

Record Metadata := { started_at : string; round : Z }.

(** The session dictionary stored under a game id. *)
Record GameState := {
  game_id : string;
  variant : string;
  players : list Player;
  draw_pile : list Card;
  draw_pile_count : Z;
  top_discard : option Card;
  current_player : string;
  turn_phase : string;
  history : list HistoryEntry;
  metadata : Metadata
}.

#[global] Instance CardSlot_eq_dec : EqDecision CardSlot.
Proof. solve_decision. Defined.
#[global] Instance Player_eq_dec : EqDecision Player.
Proof. solve_decision. Defined.
#[global] Instance HistoryEntry_eq_dec : EqDecision HistoryEntry.
Proof. solve_decision. Defined.
#[global] Instance Metadata_eq_dec : EqDecision Metadata.
Proof. solve_decision. Defined.
#[global] Instance GameState_eq_dec : EqDecision GameState.
Proof. solve_decision. Defined.
#[global] Instance Exn_eq_dec : EqDecision Exn.
Proof. solve_decision. Defined.

(** Assignments [state[key] = v] and [player[key] = v]. *)
Definition set_players (v : list Player) (st : GameState) : GameState :=
  {| game_id := game_id st; variant := variant st; players := v;
     draw_pile := draw_pile st; draw_pile_count := draw_pile_count st;
     top_discard := top_discard st; current_player := current_player st;
     turn_phase := turn_phase st; history := history st; metadata := metadata st |}.

Definition set_draw_pile (v : list Card) (st : GameState) : GameState :=
  {| game_id := game_id st; variant := variant st; players := players st;
     draw_pile := v; draw_pile_count := draw_pile_count st;
     top_discard := top_discard st; current_player := current_player st;
     turn_phase := turn_phase st; history := history st; metadata := metadata st |}.

Definition set_draw_pile_count (v : Z) (st : GameState) : GameState :=
  {| game_id := game_id st; variant := variant st; players := players st;
     draw_pile := draw_pile st; draw_pile_count := v;
     top_discard := top_discard st; current_player := current_player st;
     turn_phase := turn_phase st; history := history st; metadata := metadata st |}.

Definition set_top_discard (v : option Card) (st : GameState) : GameState :=
  {| game_id := game_id st; variant := variant st; players := players st;
     draw_pile := draw_pile st; draw_pile_count := draw_pile_count st;
     top_discard := v; current_player := current_player st;
     turn_phase := turn_phase st; history := history st; metadata := metadata st |}.

Definition set_current_player (v : string) (st : GameState) : GameState :=
  {| game_id := game_id st; variant := variant st; players := players st;
     draw_pile := draw_pile st; draw_pile_count := draw_pile_count st;
     top_discard := top_discard st; current_player := v;
     turn_phase := turn_phase st; history := history st; metadata := metadata st |}.

Definition set_turn_phase (v : string) (st : GameState) : GameState :=
  {| game_id := game_id st; variant := variant st; players := players st;
     draw_pile := draw_pile st; draw_pile_count := draw_pile_count st;
     top_discard := top_discard st; current_player := current_player st;
     turn_phase := v; history := history st; metadata := metadata st |}.

Definition set_history (v : list HistoryEntry) (st : GameState) : GameState :=
  {| game_id := game_id st; variant := variant st; players := players st;
     draw_pile := draw_pile st; draw_pile_count := draw_pile_count st;
     top_discard := top_discard st; current_player := current_player st;
     turn_phase := turn_phase st; history := v; metadata := metadata st |}.

Definition set_game_id (v : string) (st : GameState) : GameState :=
  {| game_id := v; variant := variant st; players := players st;
     draw_pile := draw_pile st; draw_pile_count := draw_pile_count st;
     top_discard := top_discard st; current_player := current_player st;
     turn_phase := turn_phase st; history := history st; metadata := metadata st |}.

Definition set_variant (v : string) (st : GameState) : GameState :=
  {| game_id := game_id st; variant := v; players := players st;
     draw_pile := draw_pile st; draw_pile_count := draw_pile_count st;
     top_discard := top_discard st; current_player := current_player st;
     turn_phase := turn_phase st; history := history st; metadata := metadata st |}.

Definition set_metadata (v : Metadata) (st : GameState) : GameState :=
  {| game_id := game_id st; variant := variant st; players := players st;
     draw_pile := draw_pile st; draw_pile_count := draw_pile_count st;
     top_discard := top_discard st; current_player := current_player st;
     turn_phase := turn_phase st; history := history st; metadata := v |}.

Definition set_hand (v : list CardSlot) (p : Player) : Player :=
  {| player_id := player_id p; name := name p; seat := seat p; hand := v; score := score p |}.

Definition set_score (v : Z) (p : Player) : Player :=
  {| player_id := player_id p; name := name p; seat := seat p; hand := hand p; score := v |}.

Definition set_visible (v : bool) (c : CardSlot) : CardSlot :=
  {| card := card c; visible := v |}.

(** The global [_game_store]. *)
Abbreviation Store := (gmap string GameState).

(** Everything in [state_store.py] and [main.py] runs against the store. *)
Abbreviation M := (St Store).

(** A value decoded from JSON, as the body of a request holds it: [None],
    a boolean, an integer, a float (a 64-bit IEEE number), a string, a list
    or a dictionary. *)
#[warnings="-register-all"]
Inductive PyValue :=
  | PyNone
  | PyBool (b : bool)
  | PyInt (n : Z)
  | PyFloat (x : PrimFloat.float)
  | PyStr (s : string)
  | PyList (items : list PyValue)
  | PyDict (items : list (string * PyValue)).

(** [type(v).__name__]. *)
Definition type_name (v : PyValue) : string :=
  match v with
  | PyNone => "NoneType"
  | PyBool _ => "bool"
  | PyInt _ => "int"
  | PyFloat _ => "float"
  | PyStr _ => "str"
  | PyList _ => "list"
  | PyDict _ => "dict"
  end.

(** What a list takes as an index: an integer, or a boolean, which counts
    as 0 or 1. *)
Inductive ListIndex :=
  | IndexInt (k : Z)
  | IndexBool (b : bool).

Definition index_pos (i : ListIndex) : Z :=
  match i with
  | IndexInt k => k
  | IndexBool b => Z.b2z b
  end.

(** [f"{v}"] for a value that has indexed a list. *)
Definition str_of_index (i : ListIndex) : string :=
  match i with
  | IndexInt k => str_of_Z k
  | IndexBool true => "True"
  | IndexBool false => "False"
  end.

(** The index that [l[v]] uses: any value but an integer or a boolean makes
    the list raise [TypeError]. *)
Definition index_of (v : PyValue) : Res ListIndex :=
  match v with
  | PyInt k => Ok (IndexInt k)
  | PyBool b => Ok (IndexBool b)
  | other =>
      Raise (TypeError ("list indices must be integers or slices, not " +:+ type_name other))
  end.

(** A submitted move, the dictionary [{"type": ..., "slot": ...}]; either key
    may be absent.  The slot is any JSON value.  The type, when present, is
    a string; a type of another JSON kind is equal to none of the four
    names, takes the last branch of [validate_move] as an unknown string
    does, and is outside the model. *)
Record Move := { move_type : option string; slot : option PyValue }.

(** [move.get("slot")]. *)
Definition move_get (v : option PyValue) : PyValue := default PyNone v.

(** The dictionary returned by [apply_move]:
    [{"valid": False, "reason": reason}], or
    [{"valid": True, "state": state}] with ["round_end": True] added by
    [call_cambio]. *)
Inductive MoveResult :=
  | MoveRejected (reason : option string)
  | MoveApplied (state : GameState) (round_end : bool).

Definition result_valid (r : MoveResult) : bool :=
  match r with MoveRejected _ => false | MoveApplied _ _ => true end.

Definition result_reason (r : MoveResult) : option string :=
  match r with MoveRejected reason => reason | MoveApplied _ _ => None end.

(** ** Deck Manager *)

Definition suits : list string := ["H"; "D"; "C"; "S"].
Definition ranks : list string :=
  ["A"; "2"; "3"; "4"; "5"; "6"; "7"; "8"; "9"; "10"; "J"; "Q"; "K"].

(** The comprehension [[f"{rank}{suit}" for suit in suits for rank in ranks]]. *)
Definition ordered_deck : list Card :=
  suit ← suits; rank ← ranks; [rank +:+ suit].

(** [create_deck()].  [random.shuffle] is the argument [shuffle]: the
    rearrangement this call happens to draw. *)
Definition create_deck (shuffle : list Card -> list Card) : list Card :=
  shuffle ordered_deck.

(** ** Scoring Engine *)

(** [not card] for a value that is [None] or a string. *)
Definition falsy (c : option Card) : bool :=
  match c with
  | None => true
  | Some s => String.eqb s ""
  end.

(** [get_card_value(card)]. *)
Definition get_card_value (card : option Card) : Res Z :=
  match card with
  | None => Ok 0
  | Some card =>
      if String.eqb card "" then Ok 0
      else
        let rank := drop_last card in
        if String.eqb rank "K" then Ok 0
        else if String.eqb rank "Q" then Ok 12
        else if String.eqb rank "J" then Ok 11
        else if String.eqb rank "A" then Ok 1
        else py_int rank
  end.

(** [sum(get_card_value(c["card"]) for c in hand)]: the generator is consumed
    left to right and the first exception ends it. *)
Fixpoint sum_card_values (hand : list CardSlot) : Res Z :=
  match hand with
  | [] => Ok 0
  | c :: rest =>
      let? v := get_card_value (card c) in
      let? total := sum_card_values rest in
      Ok (v + total)
  end.

(** ** Game Session Store *)

(** The body of the dealing loop of [create_game]: [idx] is the position of
    the next undealt card and [i] the loop counter of [enumerate]. *)
Fixpoint deal (deck : list Card) (idx i : Z) (player_names : list string)
  : Res (list Player * Z) :=
  match player_names with
  | [] => Ok ([], idx)
  | name :: rest =>
      let? c0 := py_getitem deck idx in
      let? c1 := py_getitem deck (idx + 1) in
      let? c2 := py_getitem deck (idx + 2) in
      let? c3 := py_getitem deck (idx + 3) in
      let hand := [ {| card := Some c0; visible := true |};
                    {| card := Some c1; visible := false |};
                    {| card := Some c2; visible := true |};
                    {| card := Some c3; visible := false |} ] in
      let p := {| player_id := "p" +:+ str_of_Z (i + 1); name := name;
                  seat := i; hand := hand; score := 0 |} in
      let? (players, idx') := deal deck (idx + 4) (i + 1) rest in
      Ok (p :: players, idx')
  end.

(** [if not player_names: player_names = ['Player1', 'Player2']]. *)
Definition names_or_default (player_names : option (list string)) : list string :=
  match player_names with
  | None | Some [] => ["Player1"; "Player2"]
  | Some names => names
  end.

(** [create_game(player_names)].  [uuid4] is the identifier that
    [uuid.uuid4()] draws for this call. *)
Definition create_game (shuffle : list Card -> list Card) (uuid4 : string)
    (player_names : option (list string)) : M string :=
  let player_names := names_or_default player_names in
  let game_id := uuid4 in
  let deck := create_deck shuffle in
  let! (players, idx) := lift_res (deal deck 0 0 player_names) in
  let state :=
    {| game_id := game_id;
       variant := "cambio_standard";
       players := players;
       draw_pile := drop (Z.to_nat idx) deck;
       draw_pile_count := Z.of_nat (length (drop (Z.to_nat idx) deck));
       top_discard := None;
       current_player := "p1";
       turn_phase := "awaiting_action";
       history := [];
       metadata := {| started_at := "2025-10-25T08:00:00Z"; round := 1 |} |} in
  modify (<[game_id := state]>) ;;!
  st_ret game_id.

(** [get_state(game_id)]; the deep copy of an immutable value is the value. *)
Definition get_state (game_id : string) : M (option GameState) :=
  let! store := get_st in
  st_ret (store !! game_id).

(** A patch dictionary, restricted to the keys of a session and to values
    of the types [create_game] gives them; an absent key is [None]. *)
Record Patch := {
  patch_game_id : option string;
  patch_variant : option string;
  patch_players : option (list Player);
  patch_draw_pile : option (list Card);
  patch_draw_pile_count : option Z;
  patch_top_discard : option (option Card);
  patch_current_player : option string;
  patch_turn_phase : option string;
  patch_history : option (list HistoryEntry);
  patch_metadata : option Metadata
}.

(** [state.update(patch)]. *)
Definition dict_update (state : GameState) (patch : Patch) : GameState :=
  {| game_id := default (game_id state) (patch_game_id patch);
     variant := default (variant state) (patch_variant patch);
     players := default (players state) (patch_players patch);
     draw_pile := default (draw_pile state) (patch_draw_pile patch);
     draw_pile_count := default (draw_pile_count state) (patch_draw_pile_count patch);
     top_discard := default (top_discard state) (patch_top_discard patch);
     current_player := default (current_player state) (patch_current_player patch);
     turn_phase := default (turn_phase state) (patch_turn_phase patch);
     history := default (history state) (patch_history patch);
     metadata := default (metadata state) (patch_metadata patch) |}.

(** [patch_state(game_id, patch)]. *)
Definition patch_state (game_id : string) (patch : Patch) : M GameState :=
  let! store := get_st in
  match store !! game_id with
  | None => raise (ValueError ("Game " +:+ game_id +:+ " not found"))
  | Some state =>
      let state := dict_update state patch in
      modify (<[game_id := state]>) ;;!
      st_ret state
  end.

(** ** Move Validator *)

(** [f"{move_type}"]. *)
Definition str_of_move_type (move_type : option string) : string :=
  match move_type with
  | None => "None"
  | Some s => s
  end.

(** [slot is None or slot < 0 or slot > 3].  A boolean compares as 0 or 1
    and a float by its value, a NaN being neither below 0 nor above 3; a
    string, a list or a dictionary cannot be compared with an integer, and
    [slot < 0] raises [TypeError]. *)
Definition invalid_slot (slot : PyValue) : Res bool :=
  match slot with
  | PyNone => Ok true
  | PyBool b => Ok ((Z.b2z b <? 0) || (Z.b2z b >? 3))
  | PyInt slot => Ok ((slot <? 0) || (slot >? 3))
  | PyFloat slot => Ok (PrimFloat.ltb slot 0%float || PrimFloat.ltb 3%float slot)
  | other =>
      Raise (TypeError ("'<' not supported between instances of '"
                        +:+ type_name other +:+ "' and 'int'"))
  end.

(** [validate_move(game_id, move)]. *)
Definition validate_move (game_id : string) (move : Move) : M (bool * option string) :=
  let! store := get_st in
  match store !! game_id with
  | None => st_ret (false, Some "Game not found")
  | Some state =>
      if String.eqb (turn_phase state) "round_end" then
        st_ret (false, Some "Round has ended")
      else
        let move_type := move_type move in
        if decide (move_type = Some "draw_deck") then
          if draw_pile_count state =? 0 then st_ret (false, Some "Draw pile is empty")
          else st_ret (true, None)
        else if decide (move_type = Some "draw_discard_swap") then
          if falsy (top_discard state) then st_ret (false, Some "No card in discard pile")
          else
            let slot := move_get (slot move) in
            let! invalid := lift_res (invalid_slot slot) in
            if invalid then st_ret (false, Some "Invalid slot")
            else st_ret (true, None)
        else if decide (move_type = Some "peek") then
          let slot := move_get (slot move) in
          let! invalid := lift_res (invalid_slot slot) in
          if invalid then st_ret (false, Some "Invalid slot")
          else st_ret (true, None)
        else if decide (move_type = Some "call_cambio") then
          st_ret (true, None)
        else
          st_ret (false, Some ("Unknown move type: " +:+ str_of_move_type move_type))
  end.

(** ** Move Executor *)

#[global] Instance Player_inhabited : Inhabited Player :=
  populate {| player_id := ""; name := ""; seat := 0; hand := []; score := 0 |}.

(** [state = _game_store[game_id]]: [body] then mutates the stored
    dictionary through this alias, so what it did before raising stays. *)
Definition with_state {A} (game_id : string) (body : St GameState A) : M A :=
  fun store =>
    match store !! game_id with
    | None => (Raise (KeyError game_id), store)
    | Some state =>
        let '(r, state') := body state in
        (r, <[game_id := state']> store)
    end.

(** [move[key]] for the two keys of a move. *)
Definition move_getitem {S A} (key : string) (v : option A) : St S A :=
  match v with
  | Some x => st_ret x
  | None => raise (KeyError key)
  end.

(** The position of the first player whose id is [state["current_player"]]. *)
Definition current_player_index (state : GameState) : option nat :=
  find_index (fun p => String.eqb (player_id p) (current_player state)) (players state).

(** [next(p for p in state["players"] if p["player_id"] == state["current_player"])].
    The player found is an alias into the list; it is kept as its position. *)
Definition next_current_player : St GameState nat :=
  let! state := get_st in
  match current_player_index state with
  | Some cur => st_ret cur
  | None => raise StopIteration
  end.

(** A mutation of the dictionary that the alias [current_player] names. *)
Definition update_player (cur : nat) (f : Player -> Player) : St GameState unit :=
  modify (fun state => set_players (alter f cur (players state)) state).

(** [state["history"].append({"turn": len(state["history"]) + 1,
     "player": state["current_player"], "action": action})]. *)
Definition push_history (action : string) (state : GameState) : GameState :=
  set_history (history state ++
               [ {| turn := Z.of_nat (length (history state)) + 1;
                    player := current_player state;
                    action := action |} ]) state.

Definition append_history (action : string) : St GameState unit :=
  modify (push_history action).

(** The [draw_deck] branch of [apply_move]. *)
Definition exec_draw_deck : St GameState unit :=
  let! state := get_st in
  match draw_pile state with
  | [] => raise IndexError
  | drawn :: rest =>
      modify (set_draw_pile rest) ;;!
      modify (fun state => set_draw_pile_count (Z.of_nat (length (draw_pile state))) state) ;;!
      modify (set_top_discard (Some drawn)) ;;!
      append_history "drew from deck"
  end.

(** The [draw_discard_swap] branch of [apply_move].  [hand[slot]] first
    takes the index out of [slot], which raises for a value that is no
    index. *)
Definition exec_draw_discard_swap (cur : nat) (move : Move) : St GameState unit :=
  let! slot := move_getitem "slot" (slot move) in
  let! state := get_st in
  let! slot := lift_res (index_of slot) in
  let! old := lift_res (py_getitem (hand (players state !!! cur)) (index_pos slot)) in
  let old_card := card old in
  let! hand' := lift_res (py_setitem (hand (players state !!! cur)) (index_pos slot)
                            {| card := top_discard state; visible := true |}) in
  update_player cur (set_hand hand') ;;!
  modify (set_top_discard old_card) ;;!
  append_history ("drew from discard and swapped slot " +:+ str_of_index slot).

(** The [peek] branch of [apply_move]. *)
Definition exec_peek (cur : nat) (move : Move) : St GameState unit :=
  let! slot := move_getitem "slot" (slot move) in
  let! state := get_st in
  let! slot := lift_res (index_of slot) in
  let! card_slot := lift_res (py_getitem (hand (players state !!! cur)) (index_pos slot)) in
  let! hand' := lift_res (py_setitem (hand (players state !!! cur)) (index_pos slot)
                            (set_visible true card_slot)) in
  update_player cur (set_hand hand') ;;!
  append_history ("peeked at slot " +:+ str_of_index slot).

(** The loop [for player in state["players"]] of the [call_cambio] branch:
    every slot of the player is made visible, then the score is computed and
    stored.  When the sum raises, the players before this one are done, this
    one has its slots visible and its old score, the rest are untouched. *)
Fixpoint reveal_and_score (players : list Player) : Res unit * list Player :=
  match players with
  | [] => (Ok tt, [])
  | player :: rest =>
      let player := set_hand (set_visible true <$> hand player) player in
      match sum_card_values (hand player) with
      | Raise e => (Raise e, player :: rest)
      | Ok total =>
          let '(r, rest') := reveal_and_score rest in
          (r, set_score total player :: rest')
      end
  end.

(** The [call_cambio] branch of [apply_move], up to its [return]. *)
Definition exec_call_cambio : St GameState MoveResult :=
  (fun state =>
     let '(r, players') := reveal_and_score (players state) in
     (r, set_players players' state)) ;;!
  modify (set_turn_phase "round_end") ;;!
  append_history "called Cambio!" ;;!
  let! state := get_st in
  st_ret (MoveApplied state true).

(** The tail of [apply_move] under [# Switch to next player].  The list is
    not empty here, since [current_player] was found in it. *)
Definition switch_to_next_player (cur : nat) : St GameState MoveResult :=
  let! state := get_st in
  match py_index (players state !!! cur) (players state) with
  | None => raise (ValueError "list.index(x): x not in list")
  | Some current_idx =>
      let next_idx := (Z.of_nat current_idx + 1) mod Z.of_nat (length (players state)) in
      let! next := lift_res (py_getitem (players state) next_idx) in
      modify (set_current_player (player_id next)) ;;!
      let! state := get_st in
      st_ret (MoveApplied state false)
  end.

(** [apply_move], from [current_player = next(...)] on: the part that runs
    once the move has passed validation. *)
Definition apply_validated (move : Move) : St GameState MoveResult :=
  let! cur := next_current_player in
  let! move_type := move_getitem "type" (move_type move) in
  let! returned :=
    (if String.eqb move_type "draw_deck" then
       exec_draw_deck ;;! st_ret None
     else if String.eqb move_type "draw_discard_swap" then
       exec_draw_discard_swap cur move ;;! st_ret None
     else if String.eqb move_type "peek" then
       exec_peek cur move ;;! st_ret None
     else if String.eqb move_type "call_cambio" then
       let! result := exec_call_cambio in st_ret (Some result)
     else st_ret None) in
  match returned with
  | Some result => st_ret result
  | None => switch_to_next_player cur
  end.

(** [apply_move(game_id, move)]. *)
Definition apply_move (game_id : string) (move : Move) : M MoveResult :=
  let! (valid, reason) := validate_move game_id move in
  if negb valid then st_ret (MoveRejected reason)
  else with_state game_id (apply_validated move).

(** ** HTTP endpoints of [main.py] *)

(** [POST /games]. *)
Definition create_game_endpoint (shuffle : list Card -> list Card) (uuid4 : string)
    (player_names : option (list string)) : M (string * option GameState) :=
  let! game_id := create_game shuffle uuid4 (Some (names_or_default player_names)) in
  let! state := get_state game_id in
  st_ret (game_id, state).

(** [GET /games/{game_id}]. *)
Definition get_game_endpoint (game_id : string) : M GameState :=
  let! state := get_state game_id in
  match state with
  | None => raise (HTTPException 404 (Some "Game not found"))
  | Some state => st_ret state
  end.

(** [PATCH /games/{game_id}]. *)
Definition patch_game_endpoint (game_id : string) (patch : Patch) : M GameState :=
  try_except_ValueError
    (let! state := patch_state game_id patch in st_ret state)
    (fun e => raise (HTTPException 404 (Some e))).

(** [POST /games/{game_id}/moves]. *)
Definition submit_move_endpoint (game_id : string) (req_move : Move) : M MoveResult :=
  let! result := apply_move game_id req_move in
  if negb (result_valid result) then
    raise (HTTPException 400 (result_reason result))
  else st_ret result.

(** [GET /games/{game_id}/history]. *)
Definition get_history_endpoint (game_id : string) : M (list HistoryEntry) :=
  let! state := get_state game_id in
  match state with
  | None => raise (HTTPException 404 (Some "Game not found"))
  | Some state => st_ret (history state)
  end.

(** * Vocabulary of the properties *)

(** ** Observations on a session *)

(** The cards in play: the draw pile, every hand slot that holds a card, and
    the discard top when there is one. *)
Definition hand_cards (p : Player) : list Card := omap card (hand p).

Definition cards_in_play (st : GameState) : list Card :=
  draw_pile st ++ (players st ≫= hand_cards) ++ option_list (top_discard st).

(** The card an accepted move takes out of play: [draw_deck] overwrites the
    discard top. *)
Definition superseded (move : Move) (st : GameState) : list Card :=
  if decide (move_type move = Some "draw_deck") then option_list (top_discard st) else [].

(** The session after the turn has passed from the player at position [cur]
    to the one that follows in the list, the last being followed by the
    first. *)
Definition next_position (cur : nat) (st : GameState) : nat :=
  (S cur mod length (players st))%nat.

Definition pass_turn (cur : nat) (st : GameState) : GameState :=
  set_current_player (player_id (players st !!! next_position cur st)) st.

(** The slots that pass the test of [validate_move]: a boolean, an integer
    from 0 to 3, or a float that is neither below 0 nor above 3 (a NaN is
    such a float). *)
Definition slot_in_range (v : PyValue) : Prop :=
  match v with
  | PyBool _ => True
  | PyInt k => 0 <= k <= 3
  | PyFloat x => (x <? 0)%float = false /\ (3 <? x)%float = false
  | PyNone | PyStr _ | PyList _ | PyDict _ => False
  end.

(** The slot of a move, when it is a value that indexes a list. *)
Definition slot_index (m : Move) : option ListIndex :=
  match slot m with
  | Some v => match index_of v with Ok i => Some i | Raise _ => None end
  | None => None
  end.

(** What an accepted move does to a session whose acting player sits at
    position [cur]; [apply_move_applied] below shows that [apply_move]
    accepts a move in exactly these four ways. *)
Inductive accepted_step (st : GameState) (cur : nat) (m : Move)
  : GameState -> bool -> Prop :=
  | step_draw_deck drawn rest :
      move_type m = Some "draw_deck" ->
      draw_pile st = drawn :: rest ->
      accepted_step st cur m
        (pass_turn cur
           (push_history "drew from deck"
              (set_top_discard (Some drawn)
                 (set_draw_pile_count (Z.of_nat (length rest))
                    (set_draw_pile rest st)))))
        false
  | step_draw_discard_swap i t old :
      move_type m = Some "draw_discard_swap" ->
      slot_index m = Some i -> 0 <= index_pos i <= 3 ->
      top_discard st = Some t -> t <> "" ->
      hand (players st !!! cur) !! Z.to_nat (index_pos i) = Some old ->
      accepted_step st cur m
        (pass_turn cur
           (push_history ("drew from discard and swapped slot " +:+ str_of_index i)
              (set_top_discard (card old)
                 (set_players
                    (alter (set_hand (<[Z.to_nat (index_pos i) :=
                                          {| card := Some t; visible := true |}]>
                                        (hand (players st !!! cur))))
                           cur (players st))
                    st))))
        false
  | step_peek i c :
      move_type m = Some "peek" ->
      slot_index m = Some i -> 0 <= index_pos i <= 3 ->
      hand (players st !!! cur) !! Z.to_nat (index_pos i) = Some c ->
      accepted_step st cur m
        (pass_turn cur
           (push_history ("peeked at slot " +:+ str_of_index i)
              (set_players
                 (alter (set_hand (<[Z.to_nat (index_pos i) := set_visible true c]>
                                     (hand (players st !!! cur))))
                        cur (players st))
                 st)))
        false
  | step_call_cambio players' :
      move_type m = Some "call_cambio" ->
      reveal_and_score (players st) = (Ok tt, players') ->
      accepted_step st cur m
        (push_history "called Cambio!"
           (set_turn_phase "round_end" (set_players players' st)))
        true.

(** A sequence of moves submitted one after the other, each accepted by
    [apply_move] on the store the previous one left: the cards taken out of
    play on the way and the final store, or [None] as soon as a move is not
    accepted. *)
Fixpoint run_moves (gid : string) (ms : list Move) (s : Store)
  : option (list Card * Store) :=
  match ms with
  | [] => Some ([], s)
  | m :: ms' =>
      match s !! gid, apply_move gid m s with
      | Some st, (Ok (MoveApplied _ _), s1) =>
          match run_moves gid ms' s1 with
          | Some (lost, s2) => Some ((superseded m st ++ lost)%list, s2)
          | None => None
          end
      | _, _ => None
      end
  end.

(** What [create_game] makes of the [i]-th name. *)
Definition dealt_player (i : Z) (name0 : string) (p : Player) : Prop :=
  player_id p = "p" +:+ str_of_Z (i + 1) /\ name p = name0 /\ seat p = i /\
  score p = 0 /\ (visible <$> hand p) = [true; false; true; false] /\
  length (hand p) = 4%nat.

(** The store after a sequence of submissions, whatever their outcomes. *)
Definition submit_all (gid : string) (ms : list Move) (s : Store) : Store :=
  foldl (fun s m => snd (apply_move gid m s)) s ms.

(** A move other than the terminal [call_cambio]. *)
Definition non_terminal (m : Move) : Prop := move_type m <> Some "call_cambio".

(** The redundant count agrees with the pile. *)
Definition count_mirrors_pile (st : GameState) : Prop :=
  draw_pile_count st = Z.of_nat (length (draw_pile st)).

(** The value given to each rank by the rules. *)
Definition rank_value (rank : string) : option Z :=
  if String.eqb rank "K" then Some 0
  else if String.eqb rank "A" then Some 1
  else if String.eqb rank "J" then Some 11
  else if String.eqb rank "Q" then Some 12
  else if String.eqb rank "2" then Some 2
  else if String.eqb rank "3" then Some 3
  else if String.eqb rank "4" then Some 4
  else if String.eqb rank "5" then Some 5
  else if String.eqb rank "6" then Some 6
  else if String.eqb rank "7" then Some 7
  else if String.eqb rank "8" then Some 8
  else if String.eqb rank "9" then Some 9
  else if String.eqb rank "10" then Some 10
  else None.

(** What [call_cambio] has done to a player when it is accepted. *)
Definition revealed_and_scored (p p' : Player) : Prop :=
  player_id p' = player_id p /\ name p' = name p /\ seat p' = seat p /\
  card <$> hand p' = card <$> hand p /\
  Forall (fun c => visible c = true) (hand p') /\
  sum_card_values (hand p) = Ok (score p') /\
  (forall c0 c1 c2 c3, hand p = [c0; c1; c2; c3] ->
     exists v0 v1 v2 v3,
       get_card_value (card c0) = Ok v0 /\ get_card_value (card c1) = Ok v1 /\
       get_card_value (card c2) = Ok v2 /\ get_card_value (card c3) = Ok v3 /\
       score p' = v0 + v1 + v2 + v3).

(** A session as [create_game] and accepted moves leave it: the current
    player is seated, every hand has its four slots, the count mirrors the
    pile, and every card in play has a value. *)
Definition well_formed (st : GameState) : Prop :=
  is_Some (current_player_index st) /\
  Forall (fun p => length (hand p) = 4%nat) (players st) /\
  count_mirrors_pile st /\
  Forall (fun c => exists v, get_card_value (Some c) = Ok v) (cards_in_play st).

(** A patch that names every key. *)
Definition full_patch (st : GameState) : Patch :=
  {| patch_game_id := Some (game_id st);
     patch_variant := Some (variant st);
     patch_players := Some (players st);
     patch_draw_pile := Some (draw_pile st);
     patch_draw_pile_count := Some (draw_pile_count st);
     patch_top_discard := Some (top_discard st);
     patch_current_player := Some (current_player st);
     patch_turn_phase := Some (turn_phase st);
     patch_history := Some (history st);
     patch_metadata := Some (metadata st) |}.

Definition empty_patch : Patch :=
  {| patch_game_id := None; patch_variant := None; patch_players := None;
     patch_draw_pile := None; patch_draw_pile_count := None;
     patch_top_discard := None; patch_current_player := None;
     patch_turn_phase := None; patch_history := None; patch_metadata := None |}.

(** Whether a computation raised. *)
Definition raised {A} (r : Res A) : Prop :=
  match r with Raise _ => True | Ok _ => False end.

(** ** Sample sessions and runs *)

(** Two shuffles, a two-player session dealt from the reversed deck, and
    some moves on it. *)
Definition shuffle_id (l : list Card) : list Card := l.
Definition shuffle_rev (l : list Card) : list Card := rev l.

Definition mv (t : string) (s : option Z) : Move :=
  {| move_type := Some t; slot := PyInt <$> s |}.

Definition blank_session : GameState :=
  {| game_id := ""; variant := ""; players := []; draw_pile := [];
     draw_pile_count := 0; top_discard := None; current_player := "";
     turn_phase := ""; history := [];
     metadata := {| started_at := ""; round := 0 |} |}.
Definition the_session (s : Store) (gid : string) : GameState :=
  default blank_session (s !! gid).
Definition after_moves (gid : string) (ms : list Move) (s : Store) : Store :=
  match run_moves gid ms s with Some (_, s') => s' | None => s end.
Definition demo_store : Store :=
  snd (create_game shuffle_rev "g" (Some ["Ann"; "Bob"]) ∅).
Definition demo_moves : list Move :=
  [mv "draw_deck" None; mv "draw_deck" None; mv "draw_discard_swap" (Some 2);
   mv "peek" (Some 1); mv "call_cambio" None].


Definition demo_float_slot : Move :=
  {| move_type := Some "peek"; slot := Some (PyFloat 1.5) |}.

Definition demo_turns : list Move :=
  [mv "draw_deck" None; mv "peek" (Some 1); mv "draw_discard_swap" (Some 0)].

Definition demo_swap_store : Store := after_moves "g" [mv "draw_deck" None] demo_store.

(** A patch on a finished round: the count no longer mirrors the pile, the
    current player names nobody, and play is open again. *)
Definition demo_ended_store : Store := submit_all "g" demo_moves demo_store.
Definition demo_patch : Patch :=
  {| patch_game_id := None; patch_variant := None; patch_players := None;
     patch_draw_pile := None; patch_draw_pile_count := Some 7;
     patch_top_discard := None; patch_current_player := Some "nobody";
     patch_turn_phase := Some "awaiting_action"; patch_history := Some [];
     patch_metadata := None |}.

(** ** What moves keep, and what the store functions maintain *)

(** What no call of [apply_move] changes in a player: who it is, how many
    slots it holds, and that a slot once visible is visible. *)
Definition player_kept (p p' : Player) : Prop :=
  player_id p' = player_id p /\ name p' = name p /\ seat p' = seat p /\
  length (hand p') = length (hand p) /\
  (forall j c, hand p !! j = Some c -> visible c = true ->
     exists c', hand p' !! j = Some c' /\ visible c' = true).

(** The history entry of an accepted move. *)
Definition history_entry (st : GameState) (action : string) : HistoryEntry :=
  {| turn := Z.of_nat (length (history st)) + 1;
     player := current_player st;
     action := action |}.

(** The entries of the history are numbered from 1 and name players of the
    session. *)
Definition history_numbered (st : GameState) : Prop :=
  forall i e, history st !! i = Some e ->
    turn e = Z.of_nat i + 1 /\ player e ∈ player_id <$> players st.

(** Scores are 0 while the round is on; once it has ended every slot is
    visible and every score is the sum of the hand. *)
Definition phase_consistent (st : GameState) : Prop :=
  (turn_phase st = "awaiting_action" /\ Forall (fun p => score p = 0) (players st))
  \/ (turn_phase st = "round_end" /\
      Forall (fun p => Forall (fun c => visible c = true) (hand p) /\
                       sum_card_values (hand p) = Ok (score p)) (players st)).

(** Every slot holds a card, and the cards in play are cards of the deck. *)
Definition cards_of_deck (st : GameState) : Prop :=
  Forall (fun c => c ∈ ordered_deck) (cards_in_play st) /\
  Forall (fun p => Forall (fun c => is_Some (card c)) (hand p)) (players st).

(** What holds of a session that the store functions alone have made. *)
Definition api_session (st : GameState) : Prop :=
  well_formed st /\ history_numbered st /\ phase_consistent st /\
  cards_of_deck st /\ NoDup (player_id <$> players st).

(** Sessions that a patch has made inconsistent. *)
Definition patch_of_players (ps : list Player) : Patch :=
  {| patch_game_id := None; patch_variant := None; patch_players := Some ps;
     patch_draw_pile := None; patch_draw_pile_count := None;
     patch_top_discard := None; patch_current_player := None;
     patch_turn_phase := None; patch_history := None; patch_metadata := None |}.

Definition demo_joker_store : Store :=
  snd (patch_state "g"
         (patch_of_players
            [ {| player_id := "p1"; name := "Ann"; seat := 0;
                 hand := [ {| card := Some "KS"; visible := true |};
                           {| card := Some "QS"; visible := false |} ];
                 score := 0 |};
              {| player_id := "p2"; name := "Bob"; seat := 1;
                 hand := [ {| card := Some "9S"; visible := true |};
                           {| card := Some "*J"; visible := false |} ];
                 score := 0 |};
              {| player_id := "p3"; name := "Cyd"; seat := 2;
                 hand := [ {| card := Some "2H"; visible := false |} ];
                 score := 0 |} ])
         demo_store).

(** * Properties *)

(** ** The monad and the Python primitives *)

Ltac st_unfold :=
  cbv [st_bind st_ret get_st modify raise lift_res move_getitem
       append_history update_player] in *.

Lemma find_index_Some {A} (P : A -> bool) (l : list A) (i : nat) :
  find_index P l = Some i ->
  exists x, l !! i = Some x /\ P x = true /\
            forall j y, (j < i)%nat -> l !! j = Some y -> P y = false.
Proof.
  revert i. induction l as [|y l IH]; intros i H; simpl in H; [discriminate|].
  destruct (P y) eqn:Hy.
  - inversion H; subst. exists y. repeat split; auto. intros j z Hj. lia.
  - destruct (find_index P l) as [k|] eqn:Hk; simpl in H; [|discriminate].
    inversion H; subst. destruct (IH k eq_refl) as (x & Hx & HP & Hmin).
    exists x. repeat split; auto.
    intros [|j] z Hj Hz; simpl in Hz.
    + congruence.
    + apply (Hmin j); auto. lia.
Qed.

Lemma find_index_None {A} (P : A -> bool) (l : list A) :
  find_index P l = None -> forall x, x ∈ l -> P x = false.
Proof.
  induction l as [|y l IH]; intros H x Hx; simpl in H.
  - inversion Hx.
  - destruct (P y) eqn:Hy; [discriminate|].
    destruct (find_index P l); simpl in H; [discriminate|].
    apply elem_of_cons in Hx as [->|Hx]; auto.
Qed.

Lemma py_index_first {A} `{EqDecision A} (x : A) (l : list A) (i : nat) :
  l !! i = Some x ->
  (forall j y, (j < i)%nat -> l !! j = Some y -> y <> x) ->
  py_index x l = Some i.
Proof.
  revert i. induction l as [|y l IH]; intros i Hi Hmin; [discriminate|].
  simpl. destruct (decide (y = x)) as [->|Hne].
  - destruct i as [|i]; [reflexivity|].
    exfalso. apply (Hmin 0%nat x); [lia|reflexivity|reflexivity].
  - destruct i as [|i]; simpl in Hi; [congruence|].
    rewrite (IH i Hi); [reflexivity|].
    intros j z Hj Hz. apply (Hmin (S j)); [lia|exact Hz].
Qed.

Lemma py_getitem_nonneg {A} (l : list A) (k : Z) :
  0 <= k ->
  py_getitem l k = match l !! Z.to_nat k with
                   | Some x => Ok x
                   | None => Raise IndexError
                   end.
Proof.
  intros Hk. unfold py_getitem.
  destruct (Z.ltb_spec k 0); [lia|].
  destruct (Z.leb_spec 0 k); [|lia]. simpl.
  destruct (Z.ltb_spec k (Z.of_nat (length l))); [reflexivity|].
  rewrite (proj2 (lookup_ge_None l (Z.to_nat k))); [reflexivity|lia].
Qed.

Lemma py_setitem_nonneg {A} (l : list A) (k : Z) (x : A) :
  0 <= k ->
  py_setitem l k x = if decide (Z.to_nat k < length l)%nat
                     then Ok (<[Z.to_nat k := x]> l) else Raise IndexError.
Proof.
  intros Hk. unfold py_setitem.
  destruct (Z.ltb_spec k 0); [lia|].
  destruct (Z.leb_spec 0 k); [|lia]. simpl.
  destruct (Z.ltb_spec k (Z.of_nat (length l))); case_decide; (reflexivity || lia).
Qed.

(** ** The validator *)

(** The slots that the validator lets through: a boolean, an integer from 0
    to 3, or a float that is neither below 0 nor above 3. *)
Lemma invalid_slot_false (v : PyValue) :
  invalid_slot v = Ok false <->
  (exists b, v = PyBool b)
  \/ (exists k, v = PyInt k /\ 0 <= k <= 3)
  \/ (exists x, v = PyFloat x /\ (x <? 0)%float = false /\ (3 <? x)%float = false).
Proof.
  split.
  - destruct v as [|b|k|x|s0|l|d]; simpl; intros [= H].
    + left. eauto.
    + right. left. apply orb_false_iff in H as [H1 H2]. exists k. split; [reflexivity|lia].
    + right. right. apply orb_false_iff in H as [H1 H2]. eauto.
  - intros [[b ->]|[(k & -> & Hk)|(x & -> & H1 & H2)]]; simpl.
    + by destruct b.
    + f_equal. apply orb_false_iff. lia.
    + by rewrite H1, H2.
Qed.

(** A slot that is not refused and indexes a list is a position of a hand
    of four. *)
Lemma invalid_slot_index (v : PyValue) (i : ListIndex) :
  invalid_slot v = Ok false -> index_of v = Ok i -> 0 <= index_pos i <= 3.
Proof.
  intros Hv Hi. apply invalid_slot_false in Hv as [[b ->]|[(k & -> & Hk)|(x & -> & _)]];
    simpl in Hi; inversion Hi; subst; simpl; [destruct b; simpl; lia|lia].
Qed.

(** The comparison of [invalid_slot] raises [TypeError] and nothing else. *)
Lemma invalid_slot_raise (v : PyValue) e :
  invalid_slot v = Raise e ->
  e = TypeError ("'<' not supported between instances of '" +:+ type_name v +:+ "' and 'int'")
  /\ ((exists s0, v = PyStr s0) \/ (exists l, v = PyList l) \/ (exists d, v = PyDict d)).
Proof.
  destruct v; simpl; intros [= <-]; split; eauto.
Qed.

Lemma falsy_false (o : option Card) :
  falsy o = false -> exists t, o = Some t /\ t <> "".
Proof.
  destruct o as [t|]; simpl; [|discriminate].
  intros H. exists t. split; [reflexivity|].
  intros ->. discriminate.
Qed.

(** [validate_move] leaves the store it was given, and either returns a
    verdict or raises the [TypeError] of the comparison of the slot. *)
Lemma validate_move_total gid m (s : Store) :
  exists r,
    validate_move gid m s = (r, s) /\
    ( (exists valid reason, r = Ok (valid, reason) /\
         (valid = false -> is_Some reason) /\ (valid = true -> reason = None))
      \/ (exists e, r = Raise e /\ invalid_slot (move_get (slot m)) = Raise e /\
            (move_type m = Some "draw_discard_swap" \/ move_type m = Some "peek")) ).
Proof.
  assert (Hfin : forall v (r : option string),
             (v = false -> is_Some r) -> (v = true -> r = None) ->
             exists r0,
               (Ok (v, r), s) = (r0, s) /\
               ( (exists valid reason, r0 = Ok (valid, reason) /\
                    (valid = false -> is_Some reason) /\ (valid = true -> reason = None))
                 \/ (exists e, r0 = Raise e /\ invalid_slot (move_get (slot m)) = Raise e /\
                       (move_type m = Some "draw_discard_swap" \/ move_type m = Some "peek")) ))
    by (intros v r H1 H2; eexists; split; [reflexivity|]; left; exists v, r; auto).
  unfold validate_move. st_unfold.
  destruct (s !! gid) as [st|]; [|apply Hfin; [eauto|discriminate]].
  destruct (String.eqb (turn_phase st) "round_end"); [apply Hfin; [eauto|discriminate]|].
  repeat case_decide;
    repeat match goal with
           | |- context [if falsy ?b then _ else _] => destruct (falsy b)
           | |- context [if (?a =? ?b) then _ else _] => destruct (a =? b)
           end;
    try (apply Hfin; solve [eauto | discriminate]);
    (destruct (invalid_slot (move_get (slot m))) as [[]|e] eqn:Hs;
     [apply Hfin; solve [eauto | discriminate]
     |apply Hfin; solve [eauto | discriminate]
     |eexists; split; [reflexivity|]; right; exists e; auto]).
Qed.

(** What a move that passes validation has been checked for. *)
Lemma validate_move_true gid m (s s' : Store) reason :
  validate_move gid m s = (Ok (true, reason), s') ->
  s' = s /\ reason = None /\
  exists st, s !! gid = Some st /\ turn_phase st <> "round_end" /\
    ( (move_type m = Some "draw_deck" /\ draw_pile_count st <> 0)
    \/ (move_type m = Some "draw_discard_swap" /\
        (exists t, top_discard st = Some t /\ t <> "") /\
        invalid_slot (move_get (slot m)) = Ok false)
    \/ (move_type m = Some "peek" /\ invalid_slot (move_get (slot m)) = Ok false)
    \/ move_type m = Some "call_cambio" ).
Proof.
  unfold validate_move. st_unfold.
  destruct (s !! gid) as [st|]; [|intros [=]].
  destruct (String.eqb_spec (turn_phase st) "round_end") as [|Hphase]; [intros [=]|].
  case_decide as H1.
  { destruct (Z.eqb_spec (draw_pile_count st) 0); intros [=]; subst.
    repeat split; eauto 10. }
  case_decide as H2.
  { destruct (falsy (top_discard st)) eqn:Hf; [intros [=]|].
    destruct (invalid_slot (move_get (slot m))) as [[]|e] eqn:Hs; intros [=]; subst.
    apply falsy_false in Hf.
    repeat split; eauto 10. }
  case_decide as H3.
  { destruct (invalid_slot (move_get (slot m))) as [[]|e] eqn:Hs; intros [=]; subst.
    repeat split; eauto 10. }
  case_decide as H4; intros [=]; subst.
  repeat split; eauto 10.
Qed.

(** A finished round rejects whatever is submitted. *)
Lemma validate_move_round_end gid m (s : Store) st :
  s !! gid = Some st -> turn_phase st = "round_end" ->
  validate_move gid m s = (Ok (false, Some "Round has ended"), s).
Proof.
  intros Hst Hphase. unfold validate_move. st_unfold.
  rewrite Hst, Hphase. reflexivity.
Qed.

Lemma validate_move_not_found gid m (s : Store) :
  s !! gid = None ->
  validate_move gid m s = (Ok (false, Some "Game not found"), s).
Proof.
  intros Hst. unfold validate_move. st_unfold. rewrite Hst. reflexivity.
Qed.

(** A move that fails validation is reported and changes nothing. *)
Lemma apply_move_rejected gid m (s s' : Store) reason :
  validate_move gid m s = (Ok (false, reason), s') ->
  apply_move gid m s = (Ok (MoveRejected reason), s).
Proof.
  intros Hv. destruct (validate_move_total gid m s) as (r & Hv' & _).
  rewrite Hv in Hv'. inversion Hv'; subst.
  unfold apply_move, st_bind. rewrite Hv. reflexivity.
Qed.

(** When the validator raises, [apply_move] raises the same and changes
    nothing. *)
Lemma apply_move_validation_raised gid m (s s' : Store) e :
  validate_move gid m s = (Raise e, s') ->
  apply_move gid m s = (Raise e, s) /\ s' = s.
Proof.
  intros Hv. destruct (validate_move_total gid m s) as (r & Hv' & _).
  rewrite Hv in Hv'. inversion Hv'; subst.
  unfold apply_move, st_bind. rewrite Hv. split; reflexivity.
Qed.

(** ** The executor, branch by branch *)

Lemma exec_draw_deck_run st :
  exec_draw_deck st =
  match draw_pile st with
  | [] => (Raise IndexError, st)
  | drawn :: rest =>
      (Ok tt, push_history "drew from deck"
                (set_top_discard (Some drawn)
                   (set_draw_pile_count (Z.of_nat (length rest))
                      (set_draw_pile rest st))))
  end.
Proof. unfold exec_draw_deck. st_unfold. destruct (draw_pile st); reflexivity. Qed.

Lemma slot_index_Some m i :
  slot_index m = Some i -> exists v, slot m = Some v /\ index_of v = Ok i.
Proof.
  unfold slot_index. destruct (slot m) as [v|]; [|discriminate].
  destruct (index_of v) as [j|] eqn:Hi; intros [= <-]. eauto.
Qed.

Lemma exec_draw_discard_swap_run cur m st i :
  slot_index m = Some i -> 0 <= index_pos i <= 3 ->
  exec_draw_discard_swap cur m st =
  match hand (players st !!! cur) !! Z.to_nat (index_pos i) with
  | None => (Raise IndexError, st)
  | Some old =>
      (Ok tt, push_history ("drew from discard and swapped slot " +:+ str_of_index i)
                (set_top_discard (card old)
                   (set_players
                      (alter (set_hand (<[Z.to_nat (index_pos i) :=
                                            {| card := top_discard st; visible := true |}]>
                                          (hand (players st !!! cur))))
                             cur (players st))
                      st)))
  end.
Proof.
  intros Hk Hr. destruct (slot_index_Some _ _ Hk) as (v & Hv & Hi).
  unfold exec_draw_discard_swap. rewrite Hv. st_unfold. rewrite Hi.
  rewrite py_getitem_nonneg by lia.
  destruct (hand (players st !!! cur) !! Z.to_nat (index_pos i)) as [old|] eqn:Hold;
    [|reflexivity].
  rewrite py_setitem_nonneg by lia.
  apply lookup_lt_Some in Hold. case_decide; [reflexivity|lia].
Qed.

Lemma exec_peek_run cur m st i :
  slot_index m = Some i -> 0 <= index_pos i <= 3 ->
  exec_peek cur m st =
  match hand (players st !!! cur) !! Z.to_nat (index_pos i) with
  | None => (Raise IndexError, st)
  | Some c =>
      (Ok tt, push_history ("peeked at slot " +:+ str_of_index i)
                (set_players
                   (alter (set_hand (<[Z.to_nat (index_pos i) := set_visible true c]>
                                       (hand (players st !!! cur))))
                          cur (players st))
                   st))
  end.
Proof.
  intros Hk Hr. destruct (slot_index_Some _ _ Hk) as (v & Hv & Hi).
  unfold exec_peek. rewrite Hv. st_unfold. rewrite Hi.
  rewrite py_getitem_nonneg by lia.
  destruct (hand (players st !!! cur) !! Z.to_nat (index_pos i)) as [c|] eqn:Hc;
    [|reflexivity].
  rewrite py_setitem_nonneg by lia.
  apply lookup_lt_Some in Hc. case_decide; [reflexivity|lia].
Qed.

(** A slot that passed validation but indexes no list, a float, makes the
    swap and the peek raise [TypeError] before they change anything. *)
Lemma exec_slot_not_index cur m st v e :
  slot m = Some v -> index_of v = Raise e ->
  exec_draw_discard_swap cur m st = (Raise e, st) /\
  exec_peek cur m st = (Raise e, st).
Proof.
  intros Hv Hi. unfold exec_draw_discard_swap, exec_peek. rewrite Hv. st_unfold.
  rewrite Hi. split; reflexivity.
Qed.

(** What validation leaves to decide about a slot: it is a value, and
    either an index from 0 to 3 or a float. *)
Lemma validated_slot m :
  invalid_slot (move_get (slot m)) = Ok false ->
  (exists i, slot_index m = Some i /\ 0 <= index_pos i <= 3)
  \/ (exists x, slot m = Some (PyFloat x) /\
        (x <? 0)%float = false /\ (3 <? x)%float = false).
Proof.
  intros Hv. unfold slot_index. destruct (slot m) as [v|]; [|discriminate].
  simpl in Hv. pose proof Hv as Hv'.
  apply invalid_slot_false in Hv as [[b ->]|[(k & -> & Hk)|(x & -> & H1 & H2)]].
  - left. exists (IndexBool b). split; [reflexivity|]. by eapply invalid_slot_index.
  - left. exists (IndexInt k). split; [reflexivity|]. exact Hk.
  - right. eauto.
Qed.

Lemma exec_call_cambio_run st :
  exec_call_cambio st =
  match reveal_and_score (players st) with
  | (Ok _, players') =>
      let st' := push_history "called Cambio!"
                   (set_turn_phase "round_end" (set_players players' st)) in
      (Ok (MoveApplied st' true), st')
  | (Raise e, players') => (Raise e, set_players players' st)
  end.
Proof.
  unfold exec_call_cambio. st_unfold.
  destruct (reveal_and_score (players st)) as [[[]|e] ps]; reflexivity.
Qed.

(** The acting player stays the first of its id when a move rewrites hands
    and scores only. *)
Lemma py_index_current (l l' : list Player) (id : string) (cur : nat) :
  find_index (fun p => String.eqb (player_id p) id) l = Some cur ->
  player_id <$> l' = player_id <$> l ->
  py_index (l' !!! cur) l' = Some cur.
Proof.
  intros Hfind Hids.
  destruct (find_index_Some _ _ _ Hfind) as (p & Hp & Hid & Hmin).
  apply String.eqb_eq in Hid.
  assert (Hlen : length l' = length l).
  { rewrite <- (length_fmap player_id l'), Hids. apply length_fmap. }
  assert (Hcur : (cur < length l')%nat) by (rewrite Hlen; eapply lookup_lt_Some; eauto).
  assert (Hids' : forall j q, l' !! j = Some q ->
                    exists q0, l !! j = Some q0 /\ player_id q0 = player_id q).
  { intros j q Hq.
    assert (H1 : (player_id <$> l') !! j = Some (player_id q)) by (rewrite list_lookup_fmap, Hq; reflexivity).
    rewrite Hids, list_lookup_fmap in H1.
    destruct (l !! j) as [q0|]; simpl in H1; [|discriminate].
    exists q0. split; [reflexivity|congruence]. }
  pose proof (list_lookup_lookup_total_lt l' cur Hcur) as Hp'.
  apply py_index_first; [exact Hp'|].
  intros j q Hj Hq Heq.
  destruct (Hids' _ _ Hq) as (q0 & Hq0 & Hq0id).
  destruct (Hids' _ _ Hp') as (p0 & Hp0 & Hp0id).
  assert (p0 = p) by congruence. subst p0.
  pose proof (Hmin j q0 Hj Hq0) as Hne.
  apply String.eqb_neq in Hne. apply Hne. congruence.
Qed.

Lemma Z_next_position (cur n : nat) :
  (0 < n)%nat ->
  Z.to_nat ((Z.of_nat cur + 1) mod Z.of_nat n) = (S cur mod n)%nat.
Proof.
  intros Hn.
  replace (Z.of_nat cur + 1) with (Z.of_nat (S cur)) by lia.
  rewrite <- Nat2Z.inj_mod. apply Nat2Z.id.
Qed.

Lemma switch_to_next_player_run cur st :
  py_index (players st !!! cur) (players st) = Some cur ->
  (cur < length (players st))%nat ->
  switch_to_next_player cur st = (Ok (MoveApplied (pass_turn cur st) false), pass_turn cur st).
Proof.
  intros Hidx Hcur. unfold switch_to_next_player. st_unfold. rewrite Hidx.
  assert (Hn : (0 < length (players st))%nat) by lia.
  assert (Hpos : 0 <= (Z.of_nat cur + 1) mod Z.of_nat (length (players st)))
    by (apply Z.mod_pos_bound; lia).
  rewrite py_getitem_nonneg by exact Hpos.
  rewrite Z_next_position by exact Hn.
  assert (Hlt : (S cur mod length (players st) < length (players st))%nat)
    by (apply Nat.mod_upper_bound; lia).
  rewrite (list_lookup_lookup_total_lt _ _ Hlt). reflexivity.
Qed.

Lemma alter_player_ids (f : Player -> Player) (cur : nat) (l : list Player) :
  (forall p, player_id (f p) = player_id p) ->
  player_id <$> alter f cur l = player_id <$> l.
Proof.
  intros Hf. revert cur. induction l as [|p l IH]; intros [|cur]; simpl; auto.
  - rewrite Hf. reflexivity.
  - f_equal. apply IH.
Qed.

(** ** Accepted moves *)

Lemma current_player_index_lt st cur :
  current_player_index st = Some cur -> (cur < length (players st))%nat.
Proof.
  intros H. destruct (find_index_Some _ _ _ H) as (p & Hp & _).
  eapply lookup_lt_Some; eauto.
Qed.

(** The turn passes after a branch that left the list of player ids alone. *)
Lemma switch_after st st1 cur :
  current_player_index st = Some cur ->
  player_id <$> players st1 = player_id <$> players st ->
  switch_to_next_player cur st1 = (Ok (MoveApplied (pass_turn cur st1) false), pass_turn cur st1).
Proof.
  intros Hcur Hids. apply switch_to_next_player_run.
  - eapply py_index_current; eauto.
  - rewrite <- (length_fmap player_id (players st1)), Hids, length_fmap.
    by apply current_player_index_lt.
Qed.

Lemma apply_validated_applied m st st' re st2 :
  ( (move_type m = Some "draw_deck" /\ draw_pile_count st <> 0)
    \/ (move_type m = Some "draw_discard_swap" /\
        (exists t, top_discard st = Some t /\ t <> "") /\
        invalid_slot (move_get (slot m)) = Ok false)
    \/ (move_type m = Some "peek" /\ invalid_slot (move_get (slot m)) = Ok false)
    \/ move_type m = Some "call_cambio" ) ->
  apply_validated m st = (Ok (MoveApplied st' re), st2) ->
  st2 = st' /\ exists cur, current_player_index st = Some cur /\ accepted_step st cur m st' re.
Proof.
  intros Hcase Hb. unfold apply_validated, next_current_player in Hb. st_unfold.
  destruct (current_player_index st) as [cur|] eqn:Hcur; [|discriminate].
  destruct Hcase as [[Hm Hcount]|[(Hm & (t & Ht & Hne) & Hslot)|[(Hm & Hslot)|Hm]]];
    rewrite Hm in Hb; cbn [String.eqb Ascii.eqb Bool.eqb] in Hb.
  - rewrite exec_draw_deck_run in Hb.
    destruct (draw_pile st) as [|drawn rest] eqn:Hpile; [discriminate|].
    rewrite (switch_after st) in Hb by (auto || reflexivity).
    inversion Hb; subst. split; [reflexivity|]. exists cur. split; [reflexivity|].
    by apply step_draw_deck.
  - destruct (validated_slot _ Hslot) as [(i & Hk & Hr)|(x & Hx & _)].
    2:{ rewrite (proj1 (exec_slot_not_index cur m st _ _ Hx eq_refl)) in Hb.
        discriminate. }
    rewrite (exec_draw_discard_swap_run _ _ _ i) in Hb by auto.
    destruct (hand (players st !!! cur) !! Z.to_nat (index_pos i)) as [old|] eqn:Hold;
      [|discriminate].
    rewrite (switch_after st) in Hb by (auto || (simpl; by apply alter_player_ids)).
    inversion Hb; subst. split; [reflexivity|]. exists cur. split; [reflexivity|].
    rewrite Ht. by eapply step_draw_discard_swap.
  - destruct (validated_slot _ Hslot) as [(i & Hk & Hr)|(x & Hx & _)].
    2:{ rewrite (proj2 (exec_slot_not_index cur m st _ _ Hx eq_refl)) in Hb.
        discriminate. }
    rewrite (exec_peek_run _ _ _ i) in Hb by auto.
    destruct (hand (players st !!! cur) !! Z.to_nat (index_pos i)) as [c|] eqn:Hc;
      [|discriminate].
    rewrite (switch_after st) in Hb by (auto || (simpl; by apply alter_player_ids)).
    inversion Hb; subst. split; [reflexivity|]. exists cur. split; [reflexivity|].
    by eapply step_peek.
  - rewrite exec_call_cambio_run in Hb.
    destruct (reveal_and_score (players st)) as [[[]|e] ps] eqn:Hrs; [|discriminate].
    cbv zeta in Hb. inversion Hb; subst. split; [reflexivity|]. exists cur. split; [reflexivity|].
    by apply step_call_cambio.
Qed.

(** Every acceptance by [apply_move] is one of the four steps, and what it
    returns is the session it stored. *)
Lemma apply_move_applied gid m (s s' : Store) st' re :
  apply_move gid m s = (Ok (MoveApplied st' re), s') ->
  exists st cur,
    s !! gid = Some st /\ s' = <[gid := st']> s /\
    turn_phase st <> "round_end" /\
    current_player_index st = Some cur /\
    accepted_step st cur m st' re.
Proof.
  intros Happ. destruct (validate_move_total gid m s) as (r & Hv & _).
  unfold apply_move, st_bind in Happ. rewrite Hv in Happ.
  destruct r as [[v reason]|e]; [|discriminate].
  destruct v; simpl in Happ; [|discriminate].
  destruct (validate_move_true _ _ _ _ _ Hv) as (_ & _ & st & Hst & Hphase & Hcase).
  unfold with_state in Happ. rewrite Hst in Happ.
  destruct (apply_validated m st) as [r2 st2] eqn:Hb.
  inversion Happ; subst.
  destruct (apply_validated_applied _ _ _ _ _ Hcase Hb) as (-> & cur & Hcur & Hstep).
  exists st, cur. auto.
Qed.

(** A call of [apply_move] either rejects and leaves the store alone, or
    raises what the validator raised and leaves the store alone, or runs
    the executor on the stored session and stores what it leaves. *)
Lemma apply_move_outcome gid m (s s' : Store) r :
  apply_move gid m s = (r, s') ->
  (exists reason, r = Ok (MoveRejected reason) /\ s' = s)
  \/ (exists e, r = Raise e /\ s' = s /\ validate_move gid m s = (Raise e, s))
  \/ (exists st st2, s !! gid = Some st /\ apply_validated m st = (r, st2) /\
        s' = <[gid := st2]> s /\
        validate_move gid m s = (Ok (true, None), s)).
Proof.
  intros Happ. destruct (validate_move_total gid m s) as (r0 & Hv & Hr0).
  unfold apply_move, st_bind in Happ. rewrite Hv in Happ.
  destruct r0 as [[v reason]|e].
  - destruct Hr0 as [(v' & reason' & [= <- <-] & _ & Hnone)|(e & [=] & _)].
    destruct v; simpl in Happ.
    + right. right. destruct (validate_move_true _ _ _ _ _ Hv) as (_ & _ & st & Hst & _).
      unfold with_state in Happ. rewrite Hst in Happ.
      destruct (apply_validated m st) as [r2 st2] eqn:Hb.
      inversion Happ; subst. exists st, st2. rewrite (Hnone eq_refl) in Hv. auto.
    + left. inversion Happ; subst. eauto.
  - right. left. inversion Happ; subst. eauto.
Qed.

(** ** Cards in play *)

Lemma cards_in_play_push_history a st :
  cards_in_play (push_history a st) = cards_in_play st.
Proof. reflexivity. Qed.

Lemma cards_in_play_pass_turn cur st :
  cards_in_play (pass_turn cur st) = cards_in_play st.
Proof. reflexivity. Qed.

Lemma omap_card_reveal (l : list CardSlot) :
  omap card (set_visible true <$> l) = omap card l.
Proof. induction l as [|c l IH]; csimpl; [reflexivity|]. rewrite IH. reflexivity. Qed.

(** Replacing the content of one slot trades the new card for the old. *)
Lemma omap_card_insert (l : list CardSlot) (k : nat) (old new : CardSlot) :
  l !! k = Some old ->
  omap card l ++ option_list (card new) ≡ₚ
  omap card (<[k := new]> l) ++ option_list (card old).
Proof.
  revert k. induction l as [|c l IH]; intros [|k] Hk; simpl in Hk; try discriminate.
  - inversion Hk; subst. csimpl. generalize (omap card l). intros L.
    destruct (card old) as [a|], (card new) as [b|]; simpl;
      rewrite ?app_nil_r; try reflexivity.
    + rewrite (Permutation_app_comm L [b]). simpl.
      rewrite (Permutation_app_comm L [a]). simpl. apply perm_swap.
    + apply Permutation_cons_append.
    + symmetry. apply Permutation_cons_append.
  - csimpl. destruct (card c) as [a|]; simpl.
    + f_equiv. by apply IH.
    + by apply IH.
Qed.

Lemma hands_alter (f : Player -> Player) (l : list Player) (cur : nat) (p : Player)
    (X Y : list Card) :
  l !! cur = Some p ->
  hand_cards p ++ X ≡ₚ hand_cards (f p) ++ Y ->
  (l ≫= hand_cards) ++ X ≡ₚ (alter f cur l ≫= hand_cards) ++ Y.
Proof.
  revert cur. induction l as [|q l IH]; intros [|cur] Hp HXY; simpl in Hp; try discriminate.
  - inversion Hp; subst. csimpl. generalize (l ≫= hand_cards). intros L.
    rewrite <- !app_assoc.
    rewrite (Permutation_app_comm L X), (Permutation_app_comm L Y).
    rewrite !app_assoc. by f_equiv.
  - csimpl. rewrite <- !app_assoc. f_equiv. by apply IH.
Qed.

Lemma reveal_and_score_cards (ps ps' : list Player) r :
  reveal_and_score ps = (r, ps') ->
  ps' ≫= hand_cards = ps ≫= hand_cards.
Proof.
  revert ps' r. induction ps as [|p ps IH]; intros ps' r H; simpl in H.
  - inversion H; reflexivity.
  - destruct (sum_card_values (set_visible true <$> hand p)) as [total|e].
    + destruct (reveal_and_score ps) as [r1 rest'] eqn:Hrest.
      inversion H; subst. csimpl. unfold hand_cards at 1. simpl.
      rewrite omap_card_reveal. rewrite (IH _ _ eq_refl). reflexivity.
    + inversion H; subst. csimpl. unfold hand_cards at 1. simpl.
      rewrite omap_card_reveal. reflexivity.
Qed.

(** One accepted step keeps the cards in play, except for the discard top
    that [draw_deck] overwrites. *)
Lemma accepted_step_cards st cur m st' re :
  (cur < length (players st))%nat ->
  accepted_step st cur m st' re ->
  cards_in_play st ≡ₚ superseded m st ++ cards_in_play st'.
Proof.
  intros Hcur Hstep.
  pose proof (list_lookup_lookup_total_lt _ _ Hcur) as Hp.
  destruct Hstep as [drawn rest Hm Hpile|k t old Hm Hk Hr Ht Hne Hold|k c Hm Hk Hr Hc|ps' Hm Hrs];
    unfold superseded; rewrite Hm; (case_decide; [try discriminate|try congruence]);
    rewrite ?cards_in_play_pass_turn, ?cards_in_play_push_history;
    unfold cards_in_play; simpl.
  - rewrite Hpile. simpl.
    rewrite (Permutation_app_comm (option_list (top_discard st))).
    rewrite <- !app_assoc. simpl.
    rewrite !app_assoc. apply Permutation_middle.
  - rewrite Ht. f_equiv.
    apply (hands_alter _ _ _ _ [t] (option_list (card old)) Hp).
    unfold hand_cards. simpl.
    apply (omap_card_insert _ _ old {| card := Some t; visible := true |} Hold).
  - f_equiv. f_equiv.
    apply (Permutation_app_inv_r (option_list (card c))).
    apply (hands_alter _ _ _ _ _ _ Hp).
    unfold hand_cards. simpl.
    apply (omap_card_insert _ _ c (set_visible true c) Hc).
  - rewrite (reveal_and_score_cards _ _ _ Hrs). reflexivity.
Qed.

(** ** Session creation *)

Lemma py_getitem_nat {A} (l : list A) (k : nat) :
  py_getitem l (Z.of_nat k) = match l !! k with
                              | Some x => Ok x
                              | None => Raise IndexError
                              end.
Proof. rewrite py_getitem_nonneg by lia. rewrite Nat2Z.id. reflexivity. Qed.

Lemma deal_ok (deck : list Card) (names : list string) (k : nat) (i : Z) :
  (k + 4 * length names <= length deck)%nat ->
  exists ps,
    deal deck (Z.of_nat k) i names = Ok (ps, Z.of_nat (k + 4 * length names)) /\
    length ps = length names /\
    ps ≫= hand_cards = take (4 * length names) (drop k deck) /\
    (forall j p, ps !! j = Some p ->
       exists name0, names !! j = Some name0 /\ dealt_player (i + Z.of_nat j) name0 p).
Proof.
  revert k i. induction names as [|name0 names IH]; intros k i Hlen.
  - exists []. simpl. rewrite Nat.add_0_r. repeat split; auto.
    intros j p Hj. discriminate.
  - simpl in Hlen.
    destruct (lookup_lt_is_Some_2 deck k) as [c0 H0]; [lia|].
    destruct (lookup_lt_is_Some_2 deck (S k)) as [c1 H1]; [lia|].
    destruct (lookup_lt_is_Some_2 deck (S (S k))) as [c2 H2]; [lia|].
    destruct (lookup_lt_is_Some_2 deck (S (S (S k)))) as [c3 H3]; [lia|].
    destruct (IH (4 + k)%nat (i + 1)) as (ps & Hdeal & Hps & Hcards & Hwf); [lia|].
    cbn [deal].
    replace (Z.of_nat k + 1) with (Z.of_nat (S k)) by lia.
    replace (Z.of_nat k + 2) with (Z.of_nat (S (S k))) by lia.
    replace (Z.of_nat k + 3) with (Z.of_nat (S (S (S k)))) by lia.
    replace (Z.of_nat k + 4) with (Z.of_nat (4 + k)) by lia.
    rewrite !py_getitem_nat, H0, H1, H2, H3, Hdeal. cbn [res_bind].
    eexists. split; [f_equal; f_equal; simpl; lia|].
    split; [simpl; lia|]. split.
    + csimpl. rewrite Hcards.
      rewrite (drop_S _ _ _ H0), (drop_S _ _ _ H1), (drop_S _ _ _ H2), (drop_S _ _ _ H3).
      match goal with
      | |- _ = take ?n _ => replace n with (4 + 4 * length names)%nat by lia
      end.
      reflexivity.
    + intros [|j] p Hj; simpl in Hj.
      * inversion Hj; subst. exists name0. split; [reflexivity|].
        unfold dealt_player. simpl. rewrite Z.add_0_r. repeat split; reflexivity.
      * destruct (Hwf j p Hj) as (n0 & Hn0 & Hd). exists n0. split; [exact Hn0|].
        replace (i + Z.of_nat (S j)) with (i + 1 + Z.of_nat j) by lia. exact Hd.
Qed.

Lemma deal_fail (deck : list Card) (names : list string) (k : nat) (i : Z) :
  (k <= length deck < k + 4 * length names)%nat ->
  deal deck (Z.of_nat k) i names = Raise IndexError.
Proof.
  revert k i. induction names as [|name0 names IH]; intros k i Hlen; [simpl in Hlen; lia|].
  cbn [deal].
  replace (Z.of_nat k + 1) with (Z.of_nat (S k)) by lia.
  replace (Z.of_nat k + 2) with (Z.of_nat (S (S k))) by lia.
  replace (Z.of_nat k + 3) with (Z.of_nat (S (S (S k)))) by lia.
  replace (Z.of_nat k + 4) with (Z.of_nat (4 + k)) by lia.
  rewrite !py_getitem_nat.
  destruct (deck !! k) as [c0|] eqn:H0; [|reflexivity].
  destruct (deck !! S k) as [c1|] eqn:H1; [|reflexivity].
  destruct (deck !! S (S k)) as [c2|] eqn:H2; [|reflexivity].
  destruct (deck !! S (S (S k))) as [c3|] eqn:H3; [|reflexivity].
  cbn [res_bind]. rewrite IH; [reflexivity|].
  apply lookup_lt_Some in H3. simpl in Hlen. lia.
Qed.

(** The session that [create_game] stores. *)
Lemma create_game_ok shuffle uuid4 player_names (s : Store) :
  (4 * length (names_or_default player_names) <= length (shuffle ordered_deck))%nat ->
  exists st,
    create_game shuffle uuid4 player_names s = (Ok uuid4, <[uuid4 := st]> s) /\
    game_id st = uuid4 /\
    length (players st) = length (names_or_default player_names) /\
    (forall j p, players st !! j = Some p ->
       exists name0, names_or_default player_names !! j = Some name0 /\
                     dealt_player (Z.of_nat j) name0 p) /\
((players st ≫= hand_cards) ++ draw_pile st)%list = shuffle ordered_deck /\
    draw_pile_count st = Z.of_nat (length (draw_pile st)) /\
    length (draw_pile st) =
      (length (shuffle ordered_deck) - 4 * length (names_or_default player_names))%nat /\
    top_discard st = None /\ current_player st = "p1" /\
    turn_phase st = "awaiting_action" /\ history st = [].
Proof.
  intros Hlen.
  destruct (deal_ok (shuffle ordered_deck) (names_or_default player_names) 0 0)
    as (ps & Hdeal & Hps & Hcards & Hwf); [lia|].
  unfold create_game, create_deck. st_unfold. change (Z.of_nat 0) with 0 in Hdeal. rewrite Hdeal.
  eexists. split; [reflexivity|]. cbn [game_id players draw_pile draw_pile_count
    top_discard current_player turn_phase history].
  rewrite Nat2Z.id, Nat.add_0_l.
  repeat split; auto.
  - rewrite Hcards. simpl drop. apply take_drop.
  - rewrite length_drop. reflexivity.
Qed.

Lemma create_game_fail shuffle uuid4 player_names (s : Store) :
  (length (shuffle ordered_deck) < 4 * length (names_or_default player_names))%nat ->
  create_game shuffle uuid4 player_names s = (Raise IndexError, s).
Proof.
  intros Hlen. unfold create_game, create_deck. st_unfold.
  rewrite (deal_fail _ _ 0 0) by lia. reflexivity.
Qed.

Lemma ordered_deck_length : length ordered_deck = 52%nat.
Proof. reflexivity. Qed.

Lemma ordered_deck_NoDup : NoDup ordered_deck.
Proof. apply (bool_decide_unpack (NoDup ordered_deck)). vm_compute. exact I. Qed.

(** ** Sequences of accepted moves *)

Lemma run_moves_cons gid m ms (s s' : Store) lost :
  run_moves gid (m :: ms) s = Some (lost, s') ->
  exists st st1 re s1 lost',
    s !! gid = Some st /\
    apply_move gid m s = (Ok (MoveApplied st1 re), s1) /\
    run_moves gid ms s1 = Some (lost', s') /\
    lost = (superseded m st ++ lost')%list.
Proof.
  simpl. destruct (s !! gid) as [st|]; [|discriminate].
  destruct (apply_move gid m s) as [[[reason|st1 re]|e] s1] eqn:Happ; try discriminate.
  destruct (run_moves gid ms s1) as [[lost' s2]|] eqn:Hrun; [|discriminate].
  intros [= <- <-]. exists st, st1, re, s1, lost'. auto.
Qed.

(** One accepted move, seen from the store. *)
Lemma apply_move_cards gid m (s s' : Store) st st' re :
  s !! gid = Some st ->
  apply_move gid m s = (Ok (MoveApplied st' re), s') ->
  s' !! gid = Some st' /\
  cards_in_play st ≡ₚ superseded m st ++ cards_in_play st'.
Proof.
  intros Hst Happ.
  destruct (apply_move_applied _ _ _ _ _ _ Happ) as (st0 & cur & Hst0 & -> & _ & Hcur & Hstep).
  assert (st0 = st) by congruence. subst st0.
  split; [apply lookup_insert_eq|].
  eapply accepted_step_cards; eauto using current_player_index_lt.
Qed.


(** ** Moves that raise *)

(** When the executor raises on a validated move, the session is as it was,
    except that [call_cambio] may have rewritten some players. *)
Lemma apply_validated_raised m st e st2 :
  ( (move_type m = Some "draw_deck" /\ draw_pile_count st <> 0)
    \/ (move_type m = Some "draw_discard_swap" /\
        (exists t, top_discard st = Some t /\ t <> "") /\
        invalid_slot (move_get (slot m)) = Ok false)
    \/ (move_type m = Some "peek" /\ invalid_slot (move_get (slot m)) = Ok false)
    \/ move_type m = Some "call_cambio" ) ->
  apply_validated m st = (Raise e, st2) ->
  st2 = st \/
  (move_type m = Some "call_cambio" /\
   exists ps', reveal_and_score (players st) = (Raise e, ps') /\ st2 = set_players ps' st).
Proof.
  intros Hcase Hb. unfold apply_validated, next_current_player in Hb. st_unfold.
  destruct (current_player_index st) as [cur|] eqn:Hcur; [|inversion Hb; auto].
  destruct Hcase as [[Hm Hcount]|[(Hm & (t & Ht & Hne) & Hslot)|[(Hm & Hslot)|Hm]]];
    rewrite Hm in Hb; cbn [String.eqb Ascii.eqb Bool.eqb] in Hb.
  - rewrite exec_draw_deck_run in Hb.
    destruct (draw_pile st) as [|drawn rest] eqn:Hpile; [inversion Hb; auto|].
    rewrite (switch_after st) in Hb by (auto || reflexivity). discriminate.
  - destruct (validated_slot _ Hslot) as [(i & Hk & Hr)|(x & Hx & _)].
    2:{ rewrite (proj1 (exec_slot_not_index cur m st _ _ Hx eq_refl)) in Hb.
        inversion Hb; auto. }
    rewrite (exec_draw_discard_swap_run _ _ _ i) in Hb by auto.
    destruct (hand (players st !!! cur) !! Z.to_nat (index_pos i)) as [old|] eqn:Hold;
      [|inversion Hb; auto].
    rewrite (switch_after st) in Hb by (auto || (simpl; by apply alter_player_ids)).
    discriminate.
  - destruct (validated_slot _ Hslot) as [(i & Hk & Hr)|(x & Hx & _)].
    2:{ rewrite (proj2 (exec_slot_not_index cur m st _ _ Hx eq_refl)) in Hb.
        inversion Hb; auto. }
    rewrite (exec_peek_run _ _ _ i) in Hb by auto.
    destruct (hand (players st !!! cur) !! Z.to_nat (index_pos i)) as [c|] eqn:Hc;
      [|inversion Hb; auto].
    rewrite (switch_after st) in Hb by (auto || (simpl; by apply alter_player_ids)).
    discriminate.
  - rewrite exec_call_cambio_run in Hb.
    destruct (reveal_and_score (players st)) as [[[]|e'] ps] eqn:Hrs; [discriminate|].
    inversion Hb; subst. right. eauto.
Qed.

Lemma switch_to_next_player_result cur st r st' :
  switch_to_next_player cur st = (Ok r, st') -> result_valid r = true.
Proof.
  unfold switch_to_next_player. st_unfold.
  destruct (py_index _ _); [|discriminate].
  destruct (py_getitem _ _); [|discriminate].
  intros [= <- <-]. reflexivity.
Qed.

Lemma exec_call_cambio_result st r st' :
  exec_call_cambio st = (Ok r, st') -> result_valid r = true.
Proof.
  rewrite exec_call_cambio_run.
  destruct (reveal_and_score (players st)) as [[[]|e] ps]; [|discriminate].
  intros [= <- <-]. reflexivity.
Qed.

(** A rejection never comes from the executor. *)
Lemma apply_validated_not_rejected m st reason st2 :
  apply_validated m st = (Ok (MoveRejected reason), st2) -> False.
Proof.
  intros Hb.
  assert (Hvalid : forall r, apply_validated m st = (Ok r, st2) -> result_valid r = true);
    [|by specialize (Hvalid _ Hb)].
  clear Hb reason. intros r Hb.
  unfold apply_validated, next_current_player in Hb. st_unfold.
  destruct (current_player_index st) as [cur|]; [|discriminate].
  destruct (move_type m) as [t|]; [|discriminate].
  destruct (String.eqb t "draw_deck").
  { destruct (exec_draw_deck st) as [[[]|?] ?]; [|discriminate].
    eapply switch_to_next_player_result; eauto. }
  destruct (String.eqb t "draw_discard_swap").
  { destruct (exec_draw_discard_swap cur m st) as [[[]|?] ?]; [|discriminate].
    eapply switch_to_next_player_result; eauto. }
  destruct (String.eqb t "peek").
  { destruct (exec_peek cur m st) as [[[]|?] ?]; [|discriminate].
    eapply switch_to_next_player_result; eauto. }
  destruct (String.eqb t "call_cambio").
  { destruct (exec_call_cambio st) as [[r0|?] ?] eqn:Hc; [|discriminate].
    inversion Hb; subst. eapply exec_call_cambio_result; eauto. }
  eapply switch_to_next_player_result; eauto.
Qed.

Lemma accepted_step_count st cur m st' re :
  accepted_step st cur m st' re ->
  count_mirrors_pile st -> count_mirrors_pile st'.
Proof.
  unfold count_mirrors_pile.
  intros [drawn rest Hm Hpile|k t old Hm Hk Hr Ht Hne Hold|k c Hm Hk Hr Hc|ps' Hm Hrs] H;
    simpl; auto.
Qed.

(** Whatever [apply_move] does with a move, it leaves a session under the
    same id, and the count still mirrors the pile. *)
Lemma apply_move_count gid m (s s' : Store) st r :
  s !! gid = Some st -> count_mirrors_pile st ->
  apply_move gid m s = (r, s') ->
  exists st', s' !! gid = Some st' /\ count_mirrors_pile st'.
Proof.
  intros Hst Hinv Happ.
  destruct (apply_move_outcome _ _ _ _ _ Happ)
    as [(reason & -> & ->)|[(e0 & -> & -> & _)|(st0 & st2 & Hst0 & Hb & -> & Hv)]];
    [eauto|eauto|].
  assert (st0 = st) by congruence. subst st0.
  exists st2. split; [apply lookup_insert_eq|].
  destruct (validate_move_true _ _ _ _ _ Hv) as (_ & _ & st0 & Hst0' & _ & Hcase).
  assert (st0 = st) by congruence. subst st0.
  destruct r as [[reason|st' re]|e].
  - exfalso. eapply apply_validated_not_rejected; eauto.
  - destruct (apply_validated_applied _ _ _ _ _ Hcase Hb) as (-> & cur & _ & Hstep).
    eapply accepted_step_count; eauto.
  - destruct (apply_validated_raised _ _ _ _ Hcase Hb) as [->|(_ & ps' & _ & ->)]; auto.
Qed.

Lemma create_game_stores shuffle uuid4 player_names (s s' : Store) gid :
  create_game shuffle uuid4 player_names s = (Ok gid, s') ->
  gid = uuid4 /\
  exists ps idx,
    deal (create_deck shuffle) 0 0 (names_or_default player_names) = Ok (ps, idx) /\
    s' !! gid =
      Some {| game_id := uuid4; variant := "cambio_standard"; players := ps;
              draw_pile := drop (Z.to_nat idx) (create_deck shuffle);
              draw_pile_count := Z.of_nat (length (drop (Z.to_nat idx) (create_deck shuffle)));
              top_discard := None; current_player := "p1";
              turn_phase := "awaiting_action"; history := [];
              metadata := {| started_at := "2025-10-25T08:00:00Z"; round := 1 |} |}.
Proof.
  unfold create_game. st_unfold.
  destruct (deal (create_deck shuffle) 0 0 (names_or_default player_names))
    as [[ps idx]|e]; [|discriminate].
  intros [= <- <-]. split; [reflexivity|]. exists ps, idx.
  split; [reflexivity|]. apply lookup_insert_eq.
Qed.


(** ** Turn order *)

Lemma ids_lookup_total (l l' : list Player) (j : nat) :
  player_id <$> l' = player_id <$> l ->
  (j < length l)%nat ->
  player_id (l' !!! j) = player_id (l !!! j).
Proof.
  intros Hids Hj.
  assert (Hlen : length l' = length l).
  { rewrite <- (length_fmap player_id l'), Hids. apply length_fmap. }
  assert (H : (player_id <$> l') !! j = (player_id <$> l) !! j) by (rewrite Hids; reflexivity).
  rewrite !list_lookup_fmap in H.
  rewrite (list_lookup_lookup_total_lt l' j), (list_lookup_lookup_total_lt l j) in H by lia.
  simpl in H. congruence.
Qed.

(** A non-terminal step hands the turn to the next position and leaves the
    order of the players alone. *)
Lemma accepted_step_turn st cur m st' re :
  (cur < length (players st))%nat ->
  accepted_step st cur m st' re -> non_terminal m ->
  re = false /\
  player_id <$> players st' = player_id <$> players st /\
  current_player st' = player_id (players st !!! (S cur mod length (players st))%nat).
Proof.
  intros Hcur Hstep Hnt.
  assert (Hlt : (S cur mod length (players st) < length (players st))%nat)
    by (apply Nat.mod_upper_bound; lia).
  destruct Hstep as [drawn rest Hm Hpile|k t old Hm Hk Hr Ht Hne Hold|k c Hm Hk Hr Hc|ps' Hm Hrs];
    [| | |by destruct Hnt];
    (split; [reflexivity|]); unfold pass_turn, next_position; simpl.
  - auto.
  - rewrite length_alter. split; [by apply alter_player_ids|].
    apply ids_lookup_total; [by apply alter_player_ids|exact Hlt].
  - rewrite length_alter. split; [by apply alter_player_ids|].
    apply ids_lookup_total; [by apply alter_player_ids|exact Hlt].
Qed.

Lemma apply_move_turn gid m (s s' : Store) st st' re :
  s !! gid = Some st -> non_terminal m ->
  apply_move gid m s = (Ok (MoveApplied st' re), s') ->
  exists cur p q,
    current_player_index st = Some cur /\
    players st !! cur = Some p /\ player_id p = current_player st /\
    players st !! (S cur mod length (players st))%nat = Some q /\
    current_player st' = player_id q /\
    player_id <$> players st' = player_id <$> players st /\
    s' !! gid = Some st' /\ re = false.
Proof.
  intros Hst Hnt Happ.
  destruct (apply_move_applied _ _ _ _ _ _ Happ) as (st0 & cur & Hst0 & -> & _ & Hcur & Hstep).
  assert (st0 = st) by congruence. subst st0.
  destruct (accepted_step_turn _ _ _ _ _ (current_player_index_lt _ _ Hcur) Hstep Hnt)
    as (-> & Hids & Hnext).
  destruct (find_index_Some _ _ _ Hcur) as (p & Hp & Hid & _).
  apply String.eqb_eq in Hid.
  assert (Hlt : (S cur mod length (players st) < length (players st))%nat).
  { apply Nat.mod_upper_bound. apply lookup_lt_Some in Hp. lia. }
  exists cur, p, (players st !!! (S cur mod length (players st))%nat).
  split; [exact Hcur|]. split; [exact Hp|]. split; [exact Hid|].
  split; [by apply list_lookup_lookup_total_lt|]. split; [exact Hnext|].
  split; [exact Hids|]. split; [apply lookup_insert_eq|reflexivity].
Qed.

(** With two players of distinct ids, the turn goes to the other one. *)
Lemma two_player_step gid m (s s' : Store) st st' re (x y : string) :
  s !! gid = Some st -> non_terminal m ->
  apply_move gid m s = (Ok (MoveApplied st' re), s') ->
  x <> y ->
  player_id <$> players st = [x; y] \/ player_id <$> players st = [y; x] ->
  current_player st = x ->
  s' !! gid = Some st' /\ current_player st' = y /\
  player_id <$> players st' = player_id <$> players st.
Proof.
  intros Hst Hnt Happ Hxy Hids Hx.
  destruct (apply_move_turn _ _ _ _ _ _ _ Hst Hnt Happ)
    as (cur & p & q & Hcur & Hp & Hpid & Hq & Hnext & Hids' & Hst' & _).
  split; [exact Hst'|]. split; [|exact Hids'].
  rewrite Hnext. clear Hnext Hids' Happ Hst' Hst.
  unfold current_player_index in Hcur. rewrite Hx in Hcur.
  destruct (players st) as [|p0 [|p1 [|p2 l]]];
    destruct Hids as [Hids|Hids]; simpl in Hids; try discriminate;
    inversion Hids as [[H0 H1]]; simpl in Hcur; rewrite H0, H1 in Hcur.
  - rewrite String.eqb_refl in Hcur. inversion Hcur; subst cur.
    simpl in Hq. congruence.
  - rewrite (proj2 (String.eqb_neq y x)) in Hcur by congruence.
    rewrite String.eqb_refl in Hcur. inversion Hcur; subst cur.
    simpl in Hq. congruence.
Qed.

Lemma two_player_run gid (ms : list Move) (s s' : Store) lost st (x y : string) :
  s !! gid = Some st ->
  Forall non_terminal ms ->
  run_moves gid ms s = Some (lost, s') ->
  x <> y ->
  player_id <$> players st = [x; y] \/ player_id <$> players st = [y; x] ->
  current_player st = x ->
  exists st', s' !! gid = Some st' /\
              current_player st' = if Nat.even (length ms) then x else y.
Proof.
  revert s lost st x y. induction ms as [|m ms IH]; intros s lost st x y Hst Hnt Hrun Hxy Hids Hx.
  - inversion Hrun; subst. exists st. auto.
  - destruct (run_moves_cons _ _ _ _ _ _ Hrun)
      as (st0 & st1 & re & s1 & lost' & Hst0 & Happ & Hrest & ->).
    assert (st0 = st) by congruence. subst st0.
    apply Forall_cons in Hnt as [Hm Hms].
    destruct (two_player_step _ _ _ _ _ _ _ x y Hst Hm Happ Hxy Hids Hx) as (Hst1 & Hy & Hids1).
    destruct (IH s1 lost' st1 y x Hst1 Hms Hrest) as (st' & Hst' & Hcur); auto.
    { rewrite Hids1. tauto. }
    exists st'. split; [exact Hst'|]. rewrite Hcur.
    cbn [length]. rewrite Nat.even_succ, <- Nat.negb_even.
    destruct (Nat.even (length ms)); reflexivity.
Qed.

Lemma create_game_Ok_inv shuffle uuid4 player_names (s0 s : Store) gid :
  create_game shuffle uuid4 player_names s0 = (Ok gid, s) ->
  (4 * length (names_or_default player_names) <= length (shuffle ordered_deck))%nat.
Proof.
  intros Hc.
  destruct (le_lt_dec (4 * length (names_or_default player_names))
                      (length (shuffle ordered_deck))) as [Hle|Hlt]; [exact Hle|].
  rewrite create_game_fail in Hc by exact Hlt. discriminate.
Qed.


(** ** Scoring *)

(** The code's values are the rules' values on every card [rank ++ suit]. *)
Lemma get_card_value_rank (rank : string) (suit : ascii) (v : Z) :
  rank_value rank = Some v ->
  get_card_value (Some (rank +:+ String suit "")) = Ok v.
Proof.
  unfold rank_value.
  repeat match goal with
         | |- context [String.eqb rank ?r] =>
             destruct (String.eqb_spec rank r) as [->|_];
             [intros [= <-]; reflexivity|]
         end.
  discriminate.
Qed.

Lemma sum_card_values_reveal (l : list CardSlot) :
  sum_card_values (set_visible true <$> l) = sum_card_values l.
Proof. induction l as [|c l IH]; csimpl; [reflexivity|]. rewrite IH. reflexivity. Qed.

Lemma sum_card_values_four (c0 c1 c2 c3 : CardSlot) (total : Z) :
  sum_card_values [c0; c1; c2; c3] = Ok total ->
  exists v0 v1 v2 v3,
    get_card_value (card c0) = Ok v0 /\ get_card_value (card c1) = Ok v1 /\
    get_card_value (card c2) = Ok v2 /\ get_card_value (card c3) = Ok v3 /\
    total = v0 + v1 + v2 + v3.
Proof.
  simpl.
  destruct (get_card_value (card c0)) as [v0|]; [|discriminate].
  destruct (get_card_value (card c1)) as [v1|]; [|discriminate].
  destruct (get_card_value (card c2)) as [v2|]; [|discriminate].
  destruct (get_card_value (card c3)) as [v3|]; [|discriminate].
  simpl. intros [= <-]. exists v0, v1, v2, v3. repeat split; auto. lia.
Qed.

Lemma reveal_and_score_Ok (ps ps' : list Player) :
  reveal_and_score ps = (Ok tt, ps') -> Forall2 revealed_and_scored ps ps'.
Proof.
  revert ps'. induction ps as [|p ps IH]; intros ps' H; simpl in H.
  - inversion H. constructor.
  - rewrite sum_card_values_reveal in H.
    destruct (sum_card_values (hand p)) as [total|e] eqn:Hsum; [|discriminate].
    destruct (reveal_and_score ps) as [r rest'] eqn:Hrest.
    inversion H; subst. constructor; [|by apply IH].
    unfold revealed_and_scored. simpl. repeat split; auto.
    + rewrite <- list_fmap_compose. reflexivity.
    + apply Forall_fmap. apply Forall_forall. reflexivity.
    + intros c0 c1 c2 c3 Hhand. rewrite Hhand in Hsum.
      by apply sum_card_values_four.
Qed.


Lemma created_session_cards shuffle uuid4 player_names (s0 s : Store) gid :
  shuffle ordered_deck ≡ₚ ordered_deck ->
  create_game shuffle uuid4 player_names s0 = (Ok gid, s) ->
  exists st, s !! gid = Some st /\
             cards_in_play st ≡ₚ ordered_deck /\ NoDup (cards_in_play st).
Proof.
  intros Hperm Hc.
  pose proof (create_game_Ok_inv _ _ _ _ _ _ Hc) as Hlen.
  destruct (create_game_ok shuffle uuid4 player_names s0 Hlen)
    as (st & Hc' & _ & _ & _ & Hcards & _ & _ & Htop & _).
  rewrite Hc in Hc'. inversion Hc'; subst.
  exists st. split; [apply lookup_insert_eq|].
  assert (H : cards_in_play st ≡ₚ ordered_deck).
  { unfold cards_in_play. rewrite Htop. simpl. rewrite app_nil_r.
    rewrite Permutation_app_comm, Hcards. exact Hperm. }
  split; [exact H|]. rewrite H. apply ordered_deck_NoDup.
Qed.


(** A run of accepted moves, seen from the store. *)
Lemma run_moves_cards gid (ms : list Move) (s s' : Store)
    (lost : list Card) (st : GameState) :
  s !! gid = Some st ->
  run_moves gid ms s = Some (lost, s') ->
  exists st',
    s' !! gid = Some st' /\
    cards_in_play st ≡ₚ lost ++ cards_in_play st' /\
    cards_in_play st' ⊆+ cards_in_play st /\
    (NoDup (cards_in_play st) -> NoDup (cards_in_play st')).
Proof.
  revert s lost st. induction ms as [|m ms IH]; intros s lost st Hst Hrun.
  - inversion Hrun; subst. exists st. repeat split; auto.
  - destruct (run_moves_cons _ _ _ _ _ _ Hrun)
      as (st0 & st1 & re & s1 & lost' & Hst0 & Happ & Hrest & ->).
    assert (st0 = st) by congruence. subst st0.
    destruct (apply_move_cards _ _ _ _ _ _ _ Hst Happ) as [Hst1 Hstep].
    destruct (IH _ _ _ Hst1 Hrest) as (st' & Hst' & Hperm & _ & _).
    assert (Hall : cards_in_play st ≡ₚ (superseded m st ++ lost') ++ cards_in_play st').
    { rewrite Hstep, Hperm. by rewrite app_assoc. }
    exists st'. split; [exact Hst'|]. split; [exact Hall|]. split.
    + rewrite Hall. apply submseteq_inserts_l. reflexivity.
    + intros Hnd. rewrite Hall in Hnd. by apply NoDup_app in Hnd as (_ & _ & ?).
Qed.


(** ** The HTTP surface *)

Lemma submit_move_unknown_game gid m (s : Store) :
  s !! gid = None ->
  submit_move_endpoint gid m s = (Raise (HTTPException 400 (Some "Game not found")), s).
Proof.
  intros Hs. unfold submit_move_endpoint, st_bind.
  rewrite (apply_move_rejected gid m s s (Some "Game not found"))
    by (by apply validate_move_not_found).
  reflexivity.
Qed.

Lemma submit_move_rejected gid m (s s' : Store) reason :
  validate_move gid m s = (Ok (false, reason), s') ->
  submit_move_endpoint gid m s = (Raise (HTTPException 400 reason), s).
Proof.
  intros Hv. unfold submit_move_endpoint, st_bind.
  rewrite (apply_move_rejected gid m s s' reason Hv). reflexivity.
Qed.


(** ** Patching *)

Lemma patch_state_found gid patch (s : Store) st :
  s !! gid = Some st ->
  patch_state gid patch s
    = (Ok (dict_update st patch), <[gid := dict_update st patch]> s).
Proof. intros Hst. unfold patch_state. st_unfold. rewrite Hst. reflexivity. Qed.

Lemma patch_state_not_found gid patch (s : Store) :
  s !! gid = None ->
  patch_state gid patch s = (Raise (ValueError ("Game " +:+ gid +:+ " not found")), s).
Proof. intros Hst. unfold patch_state. st_unfold. rewrite Hst. reflexivity. Qed.

Lemma dict_update_full st target : dict_update st (full_patch target) = target.
Proof. destruct target. reflexivity. Qed.


(** ** Well-formed sessions *)

Lemma find_index_is_Some {A} (P : A -> bool) (l : list A) (j : nat) (x : A) :
  l !! j = Some x -> P x = true -> is_Some (find_index P l).
Proof.
  intros Hj HP. destruct (find_index P l) eqn:Hf; [eauto|].
  apply list_elem_of_lookup_2 in Hj.
  rewrite (find_index_None _ _ Hf _ Hj) in HP. discriminate.
Qed.

Lemma find_index_ids (l l' : list Player) (id : string) :
  player_id <$> l' = player_id <$> l ->
  find_index (fun p => String.eqb (player_id p) id) l'
  = find_index (fun p => String.eqb (player_id p) id) l.
Proof.
  revert l'. induction l as [|p l IH]; intros [|p' l'] Hids; try discriminate; [reflexivity|].
  simpl in Hids. inversion Hids as [[Hp Hl]]. simpl. rewrite Hp, (IH _ Hl). reflexivity.
Qed.

Lemma revealed_and_scored_ids (ps ps' : list Player) :
  Forall2 revealed_and_scored ps ps' ->
  player_id <$> ps' = player_id <$> ps /\
  (Forall (fun p => length (hand p) = 4%nat) ps ->
   Forall (fun p => length (hand p) = 4%nat) ps').
Proof.
  induction 1 as [|p p' ps ps' (Hid & _ & _ & Hcards & _) _ [IH1 IH2]]; [auto|].
  split; [rewrite !fmap_cons; by rewrite Hid, IH1|].
  intros Hall. apply Forall_cons in Hall as [Hp Hps].
  apply Forall_cons. split; [|auto].
  rewrite <- (length_fmap card (hand p')), Hcards, length_fmap. exact Hp.
Qed.

Lemma sum_card_values_Ok (l : list CardSlot) :
  Forall (fun c => exists v, get_card_value (Some c) = Ok v) (omap card l) ->
  exists total, sum_card_values l = Ok total.
Proof.
  induction l as [|c l IH]; csimpl; intros Hall; [eauto|].
  destruct (card c) as [x|] eqn:Hc; simpl in *.
  - apply Forall_cons in Hall as [[v Hv] Hl]. destruct (IH Hl) as [t Ht].
    rewrite Hv, Ht. simpl. eauto.
  - destruct (IH Hall) as [t Ht]. rewrite Ht. simpl. eauto.
Qed.

Lemma reveal_and_score_total (ps : list Player) :
  Forall (fun c => exists v, get_card_value (Some c) = Ok v) (ps ≫= hand_cards) ->
  exists ps', reveal_and_score ps = (Ok tt, ps').
Proof.
  induction ps as [|p ps IH]; csimpl; intros Hall; [eauto|].
  apply Forall_app in Hall as [Hp Hps].
  rewrite sum_card_values_reveal.
  destruct (sum_card_values_Ok _ Hp) as [t Ht]. rewrite Ht.
  destruct (IH Hps) as [ps' Hps']. rewrite Hps'. eauto.
Qed.

Lemma accepted_step_well_formed st cur m st' re :
  current_player_index st = Some cur ->
  accepted_step st cur m st' re ->
  well_formed st -> well_formed st'.
Proof.
  intros Hcur Hstep (_ & Hhands & Hcount & Hval).
  pose proof (current_player_index_lt _ _ Hcur) as Hlt.
  assert (Hval' : Forall (fun c => exists v, get_card_value (Some c) = Ok v) (cards_in_play st')).
  { rewrite (accepted_step_cards _ _ _ _ _ Hlt Hstep) in Hval.
    by apply Forall_app in Hval as [_ ?]. }
  assert (Hcount' : count_mirrors_pile st') by (eapply accepted_step_count; eauto).
  assert (Hseat : forall st1,
            player_id <$> players st1 = player_id <$> players st ->
            is_Some (current_player_index (pass_turn cur st1))).
  { intros st1 Hids.
    assert (Hlen : length (players st1) = length (players st)).
    { rewrite <- (length_fmap player_id (players st1)), Hids. apply length_fmap. }
    assert (Hnext : (next_position cur st1 < length (players st1))%nat).
    { unfold next_position. apply Nat.mod_upper_bound. lia. }
    unfold current_player_index, pass_turn. simpl.
    eapply find_index_is_Some; [by apply list_lookup_lookup_total_lt|].
    apply String.eqb_refl. }
  destruct Hstep as [drawn rest Hm Hpile|k t old Hm Hk Hr Ht Hne Hold|k c Hm Hk Hr Hc|ps' Hm Hrs].
  - split; [by apply Hseat|]. split; [exact Hhands|]. split; assumption.
  - split; [apply Hseat; simpl; by apply alter_player_ids|].
    split; [|split; assumption].
    simpl. apply Forall_alter; [exact Hhands|].
    intros p Hp Hp4. simpl. rewrite length_insert.
    rewrite (list_lookup_total_correct _ _ _ Hp). exact Hp4.
  - split; [apply Hseat; simpl; by apply alter_player_ids|].
    split; [|split; assumption].
    simpl. apply Forall_alter; [exact Hhands|].
    intros p Hp Hp4. simpl. rewrite length_insert.
    rewrite (list_lookup_total_correct _ _ _ Hp). exact Hp4.
  - destruct (revealed_and_scored_ids _ _ (reveal_and_score_Ok _ _ Hrs)) as [Hids H4].
    split; [|split; [simpl; auto|split; assumption]].
    unfold current_player_index. simpl.
    rewrite (find_index_ids _ _ _ Hids).
    change (is_Some (current_player_index st)). rewrite Hcur. eauto.
Qed.

(** On a well-formed session, a move that passes validation is accepted,
    unless it is a swap or a peek whose slot is a float: then indexing the
    hand raises [TypeError] and the store is as it was. *)
Lemma apply_move_accepts gid m (s : Store) st :
  s !! gid = Some st -> well_formed st ->
  validate_move gid m s = (Ok (true, None), s) ->
  (exists st' re,
     apply_move gid m s = (Ok (MoveApplied st' re), <[gid := st']> s) /\
     well_formed st')
  \/ (exists x, slot m = Some (PyFloat x) /\
        (x <? 0)%float = false /\ (3 <? x)%float = false /\
        (move_type m = Some "draw_discard_swap" \/ move_type m = Some "peek") /\
        apply_move gid m s
        = (Raise (TypeError "list indices must be integers or slices, not float"), s)).
Proof.
  intros Hst Hwf Hv.
  destruct (validate_move_true _ _ _ _ _ Hv) as (_ & _ & st0 & Hst0 & _ & Hcase).
  assert (st0 = st) by congruence. subst st0.
  assert (Hb : (exists st' re, apply_validated m st = (Ok (MoveApplied st' re), st'))
               \/ (exists x, slot m = Some (PyFloat x) /\
                     (x <? 0)%float = false /\ (3 <? x)%float = false /\
                     (move_type m = Some "draw_discard_swap" \/ move_type m = Some "peek") /\
                     apply_validated m st
                     = (Raise (TypeError "list indices must be integers or slices, not float"),
                        st))).
  { destruct Hwf as ([cur Hcur] & Hhands & Hcount & Hval).
    pose proof (current_player_index_lt _ _ Hcur) as Hlt.
    pose proof (Forall_lookup_1 _ _ _ _ Hhands (list_lookup_lookup_total_lt _ _ Hlt)) as H4.
    unfold apply_validated, next_current_player. st_unfold. rewrite Hcur.
    destruct Hcase as [[Hm Hc0]|[(Hm & (t & Ht & Hne) & Hslot)|[(Hm & Hslot)|Hm]]];
      rewrite Hm; cbn [String.eqb Ascii.eqb Bool.eqb].
    - left. rewrite exec_draw_deck_run.
      destruct (draw_pile st) as [|drawn rest] eqn:Hpile.
      { unfold count_mirrors_pile in Hcount. rewrite Hpile in Hcount. simpl in Hcount. lia. }
      rewrite (switch_after st) by (auto || reflexivity). eauto.
    - destruct (validated_slot _ Hslot) as [(i & Hk & Hr)|(x & Hx & Hx0 & Hx3)].
      2:{ right. exists x. rewrite (proj1 (exec_slot_not_index cur m st _ _ Hx eq_refl)).
          auto 10. }
      left. rewrite (exec_draw_discard_swap_run _ _ _ i) by auto.
      destruct (lookup_lt_is_Some_2 (hand (players st !!! cur)) (Z.to_nat (index_pos i)))
        as [old Hold]; [lia|].
      rewrite Hold.
      rewrite (switch_after st) by (auto || (simpl; by apply alter_player_ids)). eauto.
    - destruct (validated_slot _ Hslot) as [(i & Hk & Hr)|(x & Hx & Hx0 & Hx3)].
      2:{ right. exists x. rewrite (proj2 (exec_slot_not_index cur m st _ _ Hx eq_refl)).
          auto 10. }
      left. rewrite (exec_peek_run _ _ _ i) by auto.
      destruct (lookup_lt_is_Some_2 (hand (players st !!! cur)) (Z.to_nat (index_pos i)))
        as [c Hc]; [lia|].
      rewrite Hc.
      rewrite (switch_after st) by (auto || (simpl; by apply alter_player_ids)). eauto.
    - left. rewrite exec_call_cambio_run.
      destruct (reveal_and_score_total (players st)) as [ps' Hps'].
      { unfold cards_in_play in Hval.
        apply Forall_app in Hval as [_ Hval]. by apply Forall_app in Hval as [? _]. }
      rewrite Hps'. eauto. }
  destruct Hb as [(st' & re & Hb)|(x & Hx & Hx0 & Hx3 & Hm & Hb)].
  - left. destruct (apply_validated_applied _ _ _ _ _ Hcase Hb) as (_ & cur & Hcur & Hstep).
    exists st', re. split.
    + unfold apply_move, st_bind. rewrite Hv. simpl.
      unfold with_state. rewrite Hst, Hb. reflexivity.
    + eapply accepted_step_well_formed; eauto.
  - right. exists x. repeat (split; [assumption|]).
    unfold apply_move, st_bind. rewrite Hv. simpl.
    unfold with_state. rewrite Hst, Hb. by rewrite insert_id.
Qed.

Lemma ordered_deck_valued :
  Forall (fun c => exists v, get_card_value (Some c) = Ok v) ordered_deck.
Proof. repeat constructor; eexists; vm_compute; reflexivity. Qed.

Lemma created_session_well_formed shuffle uuid4 player_names (s0 s : Store) gid :
  shuffle ordered_deck ≡ₚ ordered_deck ->
  create_game shuffle uuid4 player_names s0 = (Ok gid, s) ->
  exists st, s !! gid = Some st /\ well_formed st /\ turn_phase st = "awaiting_action".
Proof.
  intros Hperm Hc.
  destruct (created_session_cards _ _ _ _ _ _ Hperm Hc) as (st & Hst & Hdeck & _).
  pose proof (create_game_Ok_inv _ _ _ _ _ _ Hc) as Hlen.
  destruct (create_game_ok shuffle uuid4 player_names s0 Hlen)
    as (st1 & Hc' & _ & Hn & Hwf & _ & Hcount & _ & _ & Hcur & Hphase & _).
  rewrite Hc in Hc'. inversion Hc'; subst. rewrite lookup_insert_eq in Hst.
  inversion Hst; subst st1. clear Hst.
  exists st. split; [apply lookup_insert_eq|]. split; [|exact Hphase].
  split; [|split; [|split]].
  - assert (Hne : (0 < length (players st))%nat).
    { rewrite Hn. destruct player_names as [[|? ?]|]; simpl; lia. }
    destruct (lookup_lt_is_Some_2 (players st) 0%nat Hne) as [p0 Hp0].
    destruct (Hwf _ _ Hp0) as (n0 & _ & Hid & _).
    unfold current_player_index. rewrite Hcur.
    eapply find_index_is_Some; [exact Hp0|]. rewrite Hid. reflexivity.
  - apply Forall_lookup. intros j p Hp.
    destruct (Hwf _ _ Hp) as (n0 & _ & _ & _ & _ & _ & _ & H4). exact H4.
  - exact Hcount.
  - rewrite Hdeck. apply ordered_deck_valued.
Qed.

(** * The claims *)

(** C1. Along every sequence of moves accepted through [apply_move], the
    cards of the draw pile, the hand slots and the discard top are conserved
    up to rearrangement, except for the discard tops overwritten by accepted
    [draw_deck] moves, which are exactly the cards in [lost]: no card is
    gained, and a session without a duplicate never gets one.  For a session
    that [create_game] dealt from a shuffled deck, the cards in play and the
    overwritten discard tops are together the 52 cards, each once. *)
Theorem cards_conserved_by_accepted_moves :
  (forall gid (ms : list Move) (s s' : Store) (lost : list Card) (st : GameState),
     s !! gid = Some st ->
     run_moves gid ms s = Some (lost, s') ->
     exists st',
       s' !! gid = Some st' /\
       cards_in_play st ≡ₚ lost ++ cards_in_play st' /\
       cards_in_play st' ⊆+ cards_in_play st /\
       (NoDup (cards_in_play st) -> NoDup (cards_in_play st')))
  /\
  (forall shuffle uuid4 player_names (s0 s s' : Store) gid (ms : list Move) lost,
     shuffle ordered_deck ≡ₚ ordered_deck ->
     create_game shuffle uuid4 player_names s0 = (Ok gid, s) ->
     run_moves gid ms s = Some (lost, s') ->
     exists st',
       s' !! gid = Some st' /\
       lost ++ cards_in_play st' ≡ₚ ordered_deck /\
       NoDup (lost ++ cards_in_play st') /\
       (length lost + length (cards_in_play st') = 52)%nat).
Proof.
  split; [exact run_moves_cards|].
  intros shuffle uuid4 player_names s0 s s' gid ms lost Hperm Hc Hrun.
  destruct (created_session_cards _ _ _ _ _ _ Hperm Hc) as (st & Hst & Hdeck & Hnd).
  destruct (run_moves_cards _ _ _ _ _ _ Hst Hrun) as (st' & Hst' & Hall & _).
  exists st'. split; [exact Hst'|].
  assert (H : lost ++ cards_in_play st' ≡ₚ ordered_deck) by (by rewrite <- Hall).
  split; [exact H|]. split; [rewrite H; apply ordered_deck_NoDup|].
  rewrite <- length_app, H. apply ordered_deck_length.
Qed.

Lemma cards_conserved_by_accepted_moves_witness :
  demo_store !! "g" = Some (the_session demo_store "g") /\
  run_moves "g" demo_moves demo_store = Some (["5S"], after_moves "g" demo_moves demo_store) /\
  shuffle_rev ordered_deck ≡ₚ ordered_deck /\
  create_game shuffle_rev "g" (Some ["Ann"; "Bob"]) ∅ = (Ok "g", demo_store) /\
  (exists st',
     after_moves "g" demo_moves demo_store !! "g" = Some st' /\
     cards_in_play (the_session demo_store "g") ≡ₚ ["5S"] ++ cards_in_play st' /\
     cards_in_play st' ⊆+ cards_in_play (the_session demo_store "g") /\
     (NoDup (cards_in_play (the_session demo_store "g")) -> NoDup (cards_in_play st'))) /\
  (exists st',
     after_moves "g" demo_moves demo_store !! "g" = Some st' /\
     ["5S"] ++ cards_in_play st' ≡ₚ ordered_deck /\
     NoDup (["5S"] ++ cards_in_play st') /\
     (length ["5S"] + length (cards_in_play st') = 52)%nat).
Proof.
  assert (H1 : demo_store !! "g" = Some (the_session demo_store "g"))
    by (vm_compute; reflexivity).
  assert (H2 : run_moves "g" demo_moves demo_store
               = Some (["5S"], after_moves "g" demo_moves demo_store))
    by (vm_compute; reflexivity).
  assert (H3 : shuffle_rev ordered_deck ≡ₚ ordered_deck)
    by (unfold shuffle_rev; symmetry; apply Permutation_rev).
  assert (H4 : create_game shuffle_rev "g" (Some ["Ann"; "Bob"]) ∅ = (Ok "g", demo_store))
    by (vm_compute; reflexivity).
  split; [exact H1|]. split; [exact H2|]. split; [exact H3|]. split; [exact H4|].
  split.
  - exact (proj1 cards_conserved_by_accepted_moves "g" demo_moves demo_store _ _ _ H1 H2).
  - exact (proj2 cards_conserved_by_accepted_moves _ _ _ _ _ _ _ _ _ H3 H4 H2).
Defined.

(** C2. Once a stored session has [turn_phase = "round_end"], every move
    submitted against it is rejected with the reason ["Round has ended"]
    (status 400 with that detail at the endpoint) and the store, hence the
    session's current player, hands, piles, discard top and history, is left
    as it was, however many moves are submitted. *)
Theorem round_end_is_terminal gid (s : Store) st :
  s !! gid = Some st ->
  turn_phase st = "round_end" ->
  (forall m, validate_move gid m s = (Ok (false, Some "Round has ended"), s)) /\
  (forall m, apply_move gid m s = (Ok (MoveRejected (Some "Round has ended")), s)) /\
  (forall m, submit_move_endpoint gid m s
             = (Raise (HTTPException 400 (Some "Round has ended")), s)) /\
  (forall ms, submit_all gid ms s = s).
Proof.
  intros Hst Hphase.
  assert (Hv : forall m, validate_move gid m s = (Ok (false, Some "Round has ended"), s))
    by (intros m; by eapply validate_move_round_end).
  assert (Hone : forall m, apply_move gid m s = (Ok (MoveRejected (Some "Round has ended")), s))
    by (intros m; eapply apply_move_rejected; apply Hv).
  split; [exact Hv|]. split; [exact Hone|].
  split; [intros m; eapply submit_move_rejected; apply Hv|].
  intros ms. induction ms as [|m ms IH]; [reflexivity|].
  simpl. rewrite Hone. exact IH.
Qed.

Lemma round_end_is_terminal_witness :
  let s := submit_all "g" demo_moves demo_store in
  s !! "g" = Some (the_session s "g") /\
  turn_phase (the_session s "g") = "round_end" /\
  (forall m, validate_move "g" m s = (Ok (false, Some "Round has ended"), s)) /\
  (forall m, apply_move "g" m s = (Ok (MoveRejected (Some "Round has ended")), s)) /\
  (forall m, submit_move_endpoint "g" m s
             = (Raise (HTTPException 400 (Some "Round has ended")), s)) /\
  (forall ms, submit_all "g" ms s = s).
Proof.
  intros s.
  assert (H1 : s !! "g" = Some (the_session s "g")) by (vm_compute; reflexivity).
  assert (H2 : turn_phase (the_session s "g") = "round_end") by (vm_compute; reflexivity).
  split; [exact H1|]. split; [exact H2|].
  exact (round_end_is_terminal "g" s _ H1 H2).
Defined.

(** C3. When [call_cambio] is accepted, the result carries [round_end: True]
    and the stored session; in it every slot of every hand is visible and
    holds the card it held, every player's score is the sum of
    [get_card_value] over the hand (for a hand of four slots, the sum of the
    four values), [turn_phase] is ["round_end"], the history has grown by the
    one entry of the call, and [current_player] is as before.  On a card
    [rank ++ suit] the value is 0 for K, 1 for A, the number for 2 to 10, 11
    for J and 12 for Q. *)
Theorem call_cambio_reveals_and_scores gid m (s s' : Store) st st' re :
  s !! gid = Some st ->
  move_type m = Some "call_cambio" ->
  apply_move gid m s = (Ok (MoveApplied st' re), s') ->
  re = true /\ s' !! gid = Some st' /\
  turn_phase st' = "round_end" /\
  current_player st' = current_player st /\
  history st' = (history st ++
                 [ {| turn := Z.of_nat (length (history st)) + 1;
                      player := current_player st;
                      action := "called Cambio!" |} ])%list /\
  Forall2 revealed_and_scored (players st) (players st') /\
  draw_pile st' = draw_pile st /\ draw_pile_count st' = draw_pile_count st /\
  top_discard st' = top_discard st /\
  (forall rank suit v, rank_value rank = Some v ->
     get_card_value (Some (rank +:+ String suit "")) = Ok v).
Proof.
  intros Hst Hm Happ.
  destruct (apply_move_applied _ _ _ _ _ _ Happ) as (st0 & cur & Hst0 & -> & _ & Hcur & Hstep).
  assert (st0 = st) by congruence. subst st0.
  destruct Hstep as [drawn rest Hm' Hpile|k t old Hm' Hk Hr Ht Hne Hold|k c Hm' Hk Hr Hc|ps' Hm' Hrs];
    try congruence.
  split; [reflexivity|]. split; [apply lookup_insert_eq|].
  simpl. repeat split; auto using reveal_and_score_Ok.
  intros rank suit v. apply get_card_value_rank.
Qed.

Lemma call_cambio_reveals_and_scores_witness :
  let s' := after_moves "g" [mv "call_cambio" None] demo_store in
  demo_store !! "g" = Some (the_session demo_store "g") /\
  move_type (mv "call_cambio" None) = Some "call_cambio" /\
  apply_move "g" (mv "call_cambio" None) demo_store
    = (Ok (MoveApplied (the_session s' "g") true), s') /\
  turn_phase (the_session s' "g") = "round_end" /\
  Forall2 revealed_and_scored (players (the_session demo_store "g"))
                              (players (the_session s' "g")).
Proof.
  intros s'.
  assert (H1 : demo_store !! "g" = Some (the_session demo_store "g"))
    by (vm_compute; reflexivity).
  assert (H2 : apply_move "g" (mv "call_cambio" None) demo_store
               = (Ok (MoveApplied (the_session s' "g") true), s'))
    by (vm_compute; reflexivity).
  split; [exact H1|]. split; [reflexivity|]. split; [exact H2|].
  destruct (call_cambio_reveals_and_scores "g" (mv "call_cambio" None) _ _ _ _ _
              H1 eq_refl H2) as (_ & _ & Hphase & _ & _ & Hall & _).
  split; [exact Hphase|exact Hall].
Defined.

(** C4. When [draw_discard_swap] is accepted, the slot named by the move
    (an integer from 0 to 3, or a boolean, which Python reads as 0 or 1) in
    the hand of the acting player (the first player whose id is
    [current_player]) holds the card that was the discard top and is
    visible, the card that was in the slot is the discard top, every other
    slot, every other player and the draw pile are as before, and the cards
    in play are the same cards, hence as many. *)
Theorem draw_discard_swap_exchanges gid m (s s' : Store) st st' re :
  s !! gid = Some st ->
  move_type m = Some "draw_discard_swap" ->
  apply_move gid m s = (Ok (MoveApplied st' re), s') ->
  exists cur p p' i t old,
    current_player_index st = Some cur /\
    players st !! cur = Some p /\ player_id p = current_player st /\
    players st' !! cur = Some p' /\ player_id p' = player_id p /\
    slot_index m = Some i /\ 0 <= index_pos i <= 3 /\
    top_discard st = Some t /\
    hand p !! Z.to_nat (index_pos i) = Some old /\
    hand p' !! Z.to_nat (index_pos i) = Some {| card := Some t; visible := true |} /\
    top_discard st' = card old /\
    (forall j, j <> Z.to_nat (index_pos i) -> hand p' !! j = hand p !! j) /\
    (forall q, q <> cur -> players st' !! q = players st !! q) /\
    draw_pile st' = draw_pile st /\
    cards_in_play st' ≡ₚ cards_in_play st /\
    length (cards_in_play st') = length (cards_in_play st) /\
    s' !! gid = Some st'.
Proof.
  intros Hst Hm Happ.
  destruct (apply_move_cards _ _ _ _ _ _ _ Hst Happ) as [Hst' Hcards].
  unfold superseded in Hcards. rewrite Hm in Hcards.
  case_decide; [discriminate|]. simpl in Hcards.
  destruct (apply_move_applied _ _ _ _ _ _ Happ) as (st0 & cur & Hst0 & -> & _ & Hcur & Hstep).
  assert (st0 = st) by congruence. subst st0.
  destruct (find_index_Some _ _ _ Hcur) as (p & Hp & Hid & _).
  apply String.eqb_eq in Hid.
  pose proof (list_lookup_total_correct _ _ _ Hp) as Hpt.
  destruct Hstep as [drawn rest Hm' Hpile|i t old Hm' Hk Hr Ht Hne Hold|i c Hm' Hk Hr Hc|ps' Hm' Hrs];
    try congruence.
  rewrite Hpt in *.
  exists cur, p,
    (set_hand (<[Z.to_nat (index_pos i) := {| card := Some t; visible := true |}]> (hand p)) p),
    i, t, old.
  simpl.
  split; [exact Hcur|]. split; [exact Hp|]. split; [exact Hid|].
  split; [by rewrite list_lookup_alter_eq, Hp|]. split; [reflexivity|].
  split; [exact Hk|]. split; [exact Hr|]. split; [exact Ht|]. split; [exact Hold|].
  split; [apply list_lookup_insert_eq; by eapply lookup_lt_Some|].
  split; [reflexivity|].
  split; [intros j Hj; by apply list_lookup_insert_ne|].
  split; [intros q Hq; by apply list_lookup_alter_ne|].
  split; [reflexivity|].
  split; [by symmetry|]. split; [by rewrite Hcards|exact Hst'].
Qed.

Lemma draw_discard_swap_exchanges_witness :
  let s' := after_moves "g" [mv "draw_discard_swap" (Some 3)] demo_swap_store in
  demo_swap_store !! "g" = Some (the_session demo_swap_store "g") /\
  move_type (mv "draw_discard_swap" (Some 3)) = Some "draw_discard_swap" /\
  apply_move "g" (mv "draw_discard_swap" (Some 3)) demo_swap_store
    = (Ok (MoveApplied (the_session s' "g") false), s') /\
  exists cur p p' i t old,
    current_player_index (the_session demo_swap_store "g") = Some cur /\
    players (the_session demo_swap_store "g") !! cur = Some p /\
    player_id p = current_player (the_session demo_swap_store "g") /\
    players (the_session s' "g") !! cur = Some p' /\ player_id p' = player_id p /\
    slot_index (mv "draw_discard_swap" (Some 3)) = Some i /\
    0 <= index_pos i <= 3 /\
    top_discard (the_session demo_swap_store "g") = Some t /\
    hand p !! Z.to_nat (index_pos i) = Some old /\
    hand p' !! Z.to_nat (index_pos i) = Some {| card := Some t; visible := true |} /\
    top_discard (the_session s' "g") = card old /\
    (forall j, j <> Z.to_nat (index_pos i) -> hand p' !! j = hand p !! j) /\
    (forall q, q <> cur ->
       players (the_session s' "g") !! q = players (the_session demo_swap_store "g") !! q) /\
    draw_pile (the_session s' "g") = draw_pile (the_session demo_swap_store "g") /\
    cards_in_play (the_session s' "g") ≡ₚ cards_in_play (the_session demo_swap_store "g") /\
    length (cards_in_play (the_session s' "g"))
      = length (cards_in_play (the_session demo_swap_store "g")) /\
    s' !! "g" = Some (the_session s' "g").
Proof.
  intros s'.
  assert (H1 : demo_swap_store !! "g" = Some (the_session demo_swap_store "g"))
    by (vm_compute; reflexivity).
  assert (H2 : apply_move "g" (mv "draw_discard_swap" (Some 3)) demo_swap_store
               = (Ok (MoveApplied (the_session s' "g") false), s'))
    by (vm_compute; reflexivity).
  split; [exact H1|]. split; [reflexivity|]. split; [exact H2|].
  exact (draw_discard_swap_exchanges "g" (mv "draw_discard_swap" (Some 3)) _ _ _ _ _
           H1 eq_refl H2).
Defined.

(** C5. An accepted [draw_deck], [draw_discard_swap] or [peek] makes
    [current_player] the id of the player that follows the acting one in the
    player list, the last being followed by the first, and leaves the order
    of the list alone; in a session created for two names the current player
    is ["p1"] after an even number of accepted non-terminal moves and ["p2"]
    after an odd number. *)
Theorem turn_passes_round_robin :
  (forall gid m (s s' : Store) st st' re,
     s !! gid = Some st -> non_terminal m ->
     apply_move gid m s = (Ok (MoveApplied st' re), s') ->
     exists cur p q,
       current_player_index st = Some cur /\
       players st !! cur = Some p /\ player_id p = current_player st /\
       players st !! (S cur mod length (players st))%nat = Some q /\
       current_player st' = player_id q /\
       player_id <$> players st' = player_id <$> players st /\
       s' !! gid = Some st')
  /\
  (forall shuffle uuid4 (n1 n2 : string) (s0 s s' : Store) gid (ms : list Move) lost,
     create_game shuffle uuid4 (Some [n1; n2]) s0 = (Ok gid, s) ->
     Forall non_terminal ms ->
     run_moves gid ms s = Some (lost, s') ->
     exists st st',
       s !! gid = Some st /\ player_id <$> players st = ["p1"; "p2"] /\
       current_player st = "p1" /\
       s' !! gid = Some st' /\
       current_player st' = if Nat.even (length ms) then "p1" else "p2").
Proof.
  split.
  - intros gid m s s' st st' re Hst Hnt Happ.
    destruct (apply_move_turn _ _ _ _ _ _ _ Hst Hnt Happ)
      as (cur & p & q & H1 & H2 & H3 & H4 & H5 & H6 & H7 & _).
    exists cur, p, q. auto 10.
  - intros shuffle uuid4 n1 n2 s0 s s' gid ms lost Hc Hnt Hrun.
    pose proof (create_game_Ok_inv _ _ _ _ _ _ Hc) as Hlen.
    destruct (create_game_ok shuffle uuid4 (Some [n1; n2]) s0 Hlen)
      as (st & Hc' & _ & Hn & Hwf & _ & _ & _ & _ & Hcur & _).
    rewrite Hc in Hc'. inversion Hc'; subst.
    assert (Hst : <[uuid4 := st]> s0 !! uuid4 = Some st) by apply lookup_insert_eq.
    assert (Hids : player_id <$> players st = ["p1"; "p2"]).
    { simpl in Hn. destruct (players st) as [|p0 [|p1 [|p2 l]]]; try discriminate.
      destruct (Hwf 0%nat p0 eq_refl) as (? & _ & Hp0 & _).
      destruct (Hwf 1%nat p1 eq_refl) as (? & _ & Hp1 & _).
      simpl. rewrite Hp0, Hp1. reflexivity. }
    assert (Hne : "p1" <> "p2") by discriminate.
    destruct (two_player_run _ _ _ _ _ _ "p1" "p2" Hst Hnt Hrun Hne (or_introl Hids) Hcur)
      as (st' & Hst' & Hcur').
    exists st, st'. auto.
Qed.

Lemma turn_passes_round_robin_witness :
  let s1 := after_moves "g" [mv "draw_deck" None] demo_store in
  create_game shuffle_rev "g" (Some ["Ann"; "Bob"]) ∅ = (Ok "g", demo_store) /\
  Forall non_terminal demo_turns /\
  run_moves "g" demo_turns demo_store = Some ([], after_moves "g" demo_turns demo_store) /\
  demo_store !! "g" = Some (the_session demo_store "g") /\
  apply_move "g" (mv "draw_deck" None) demo_store
    = (Ok (MoveApplied (the_session s1 "g") false), s1) /\
  (exists cur p q,
     current_player_index (the_session demo_store "g") = Some cur /\
     players (the_session demo_store "g") !! cur = Some p /\
     player_id p = current_player (the_session demo_store "g") /\
     players (the_session demo_store "g")
       !! (S cur mod length (players (the_session demo_store "g")))%nat = Some q /\
     current_player (the_session s1 "g") = player_id q /\
     player_id <$> players (the_session s1 "g")
       = player_id <$> players (the_session demo_store "g") /\
     s1 !! "g" = Some (the_session s1 "g")) /\
  (exists st st',
     demo_store !! "g" = Some st /\ player_id <$> players st = ["p1"; "p2"] /\
     current_player st = "p1" /\
     after_moves "g" demo_turns demo_store !! "g" = Some st' /\
     current_player st' = "p2").
Proof.
  intros s1.
  assert (H0 : create_game shuffle_rev "g" (Some ["Ann"; "Bob"]) ∅ = (Ok "g", demo_store))
    by (vm_compute; reflexivity).
  assert (H1 : Forall non_terminal demo_turns)
    by (repeat constructor; discriminate).
  assert (H2 : run_moves "g" demo_turns demo_store
               = Some ([], after_moves "g" demo_turns demo_store))
    by (vm_compute; reflexivity).
  assert (H3 : demo_store !! "g" = Some (the_session demo_store "g"))
    by (vm_compute; reflexivity).
  assert (H4 : apply_move "g" (mv "draw_deck" None) demo_store
               = (Ok (MoveApplied (the_session s1 "g") false), s1))
    by (vm_compute; reflexivity).
  assert (H5 : non_terminal (mv "draw_deck" None)) by discriminate.
  split; [exact H0|]. split; [exact H1|]. split; [exact H2|].
  split; [exact H3|]. split; [exact H4|]. split.
  - exact (proj1 turn_passes_round_robin "g" (mv "draw_deck" None) _ _ _ _ _ H3 H5 H4).
  - exact (proj2 turn_passes_round_robin _ _ _ _ _ _ _ _ _ _ H0 H1 H2).
Defined.




(** C7, as the specification states it, fails: a single name is fewer than
    two names, and the session is created. *)
Lemma create_game_single_name_succeeds :
  ~ (raised (fst (create_game shuffle_id "g" (Some ["Solo"]) ∅)) <->
     (length ["Solo"] < 2)%nat \/ (52 < 4 * length ["Solo"])%nat).
Proof.
  intros [_ H]. apply H. left. simpl. lia.
Qed.

(** C7, amended. With a deck of 52 cards, [create_game] fails exactly when
    four times the number of names exceeds 52, the names being the two
    defaults when none is supplied; it then raises [IndexError] and stores
    nothing.  In every other case, a single name included, it stores under
    the new id an initial session: one player per name with four dealt
    slots, the rest of the deck as draw pile with its count, no discard,
    ["p1"] to play, [awaiting_action], an empty history, and the 52 cards in
    play once each. *)
Theorem create_game_fails_iff_deck_exhausted shuffle uuid4 player_names (s : Store) :
  shuffle ordered_deck ≡ₚ ordered_deck ->
  let n := length (names_or_default player_names) in
  (raised (fst (create_game shuffle uuid4 player_names s)) <-> (52 < 4 * n)%nat) /\
  ((52 < 4 * n)%nat ->
     create_game shuffle uuid4 player_names s = (Raise IndexError, s)) /\
  ((4 * n <= 52)%nat ->
     exists st,
       create_game shuffle uuid4 player_names s = (Ok uuid4, <[uuid4 := st]> s) /\
       length (players st) = n /\
       (forall j p, players st !! j = Some p ->
          exists name0, names_or_default player_names !! j = Some name0 /\
                        dealt_player (Z.of_nat j) name0 p) /\
       draw_pile_count st = Z.of_nat (length (draw_pile st)) /\
       draw_pile_count st + 4 * Z.of_nat n = 52 /\
       top_discard st = None /\ current_player st = "p1" /\
       turn_phase st = "awaiting_action" /\ history st = [] /\
       cards_in_play st ≡ₚ ordered_deck /\ NoDup (cards_in_play st)).
Proof.
  intros Hperm n.
  assert (Hlen : length (shuffle ordered_deck) = 52%nat)
    by (rewrite Hperm; apply ordered_deck_length).
  assert (Hfail : (52 < 4 * n)%nat ->
            create_game shuffle uuid4 player_names s = (Raise IndexError, s)).
  { intros Hn. apply create_game_fail. rewrite Hlen. exact Hn. }
  assert (Hok : (4 * n <= 52)%nat ->
     exists st,
       create_game shuffle uuid4 player_names s = (Ok uuid4, <[uuid4 := st]> s) /\
       length (players st) = n /\
       (forall j p, players st !! j = Some p ->
          exists name0, names_or_default player_names !! j = Some name0 /\
                        dealt_player (Z.of_nat j) name0 p) /\
       draw_pile_count st = Z.of_nat (length (draw_pile st)) /\
       draw_pile_count st + 4 * Z.of_nat n = 52 /\
       top_discard st = None /\ current_player st = "p1" /\
       turn_phase st = "awaiting_action" /\ history st = [] /\
       cards_in_play st ≡ₚ ordered_deck /\ NoDup (cards_in_play st)).
  { intros Hn.
    destruct (create_game_ok shuffle uuid4 player_names s) as
      (st & Hc & _ & Hps & Hwf & Hcards & Hcount & Hpile & Htop & Hcur & Hphase & Hhist);
      [rewrite Hlen; exact Hn|].
    exists st. split; [exact Hc|].
    destruct (created_session_cards _ _ _ _ _ _ Hperm Hc) as (st1 & Hst1 & Hperm1 & Hnd1).
    rewrite lookup_insert_eq in Hst1. inversion Hst1; subst st1.
    repeat split; auto.
    rewrite Hcount, Hpile, Hlen. fold n. lia. }
  split; [|split; [exact Hfail|exact Hok]].
  split.
  - intros Hraised. destruct (le_lt_dec (4 * n) 52) as [Hle|Hlt]; [|exact Hlt].
    destruct (Hok Hle) as (st & Hc & _). rewrite Hc in Hraised. destruct Hraised.
  - intros Hn. rewrite (Hfail Hn). exact I.
Qed.

Lemma create_game_fails_iff_deck_exhausted_witness :
  shuffle_rev ordered_deck ≡ₚ ordered_deck /\
  (4 * length (names_or_default (Some ["Solo"])) <= 52)%nat /\
  exists st,
    create_game shuffle_rev "g" (Some ["Solo"]) ∅ = (Ok "g", <["g" := st]> ∅) /\
    length (players st) = 1%nat /\ draw_pile_count st = 48.
Proof.
  assert (H0 : shuffle_rev ordered_deck ≡ₚ ordered_deck)
    by (unfold shuffle_rev; symmetry; apply Permutation_rev).
  assert (H1 : (4 * length (names_or_default (Some ["Solo"])) <= 52)%nat)
    by (simpl; lia).
  split; [exact H0|]. split; [exact H1|].
  destruct (proj2 (proj2 (create_game_fails_iff_deck_exhausted
                            shuffle_rev "g" (Some ["Solo"]) ∅ H0)) H1)
    as (st & Hc & Hn & _ & _ & Hcount & _).
  exists st. split; [exact Hc|]. split; [exact Hn|].
  simpl in Hcount. lia.
Defined.

(** C8. The code at the failing input: a move submitted against an unknown
    id is answered with status 400 and the detail ["Game not found"], the
    status of every rejected move (here an invalid slot on a stored session),
    whereas the sibling endpoints answer an unknown id with 404. *)
Theorem submit_move_unknown_game_is_400 :
  submit_move_endpoint "no-such-game" (mv "draw_deck" None) demo_store
    = (Raise (HTTPException 400 (Some "Game not found")), demo_store) /\
  submit_move_endpoint "g" (mv "peek" (Some 5)) demo_store
    = (Raise (HTTPException 400 (Some "Invalid slot")), demo_store) /\
  get_game_endpoint "no-such-game" demo_store
    = (Raise (HTTPException 404 (Some "Game not found")), demo_store) /\
  get_history_endpoint "no-such-game" demo_store
    = (Raise (HTTPException 404 (Some "Game not found")), demo_store) /\
  patch_game_endpoint "no-such-game" empty_patch demo_store
    = (Raise (HTTPException 404 (Some "Game no-such-game not found")), demo_store).
Proof. repeat split; vm_compute; reflexivity. Qed.

(** C9. The session that [create_game] stores has a [draw_pile_count] equal
    to the length of its [draw_pile], and every call of [apply_move], accepted
    or not, keeps it so: after any sequence of submissions the stored count
    still equals the length of the stored pile. *)
Theorem draw_pile_count_mirrors_pile :
  (forall shuffle uuid4 player_names (s0 s : Store) gid,
     create_game shuffle uuid4 player_names s0 = (Ok gid, s) ->
     exists st, s !! gid = Some st /\ count_mirrors_pile st)
  /\
  (forall gid (ms : list Move) (s : Store) st,
     s !! gid = Some st -> count_mirrors_pile st ->
     exists st', submit_all gid ms s !! gid = Some st' /\ count_mirrors_pile st').
Proof.
  split.
  - intros shuffle uuid4 player_names s0 s gid Hc.
    destruct (create_game_stores _ _ _ _ _ _ Hc) as (_ & ps & idx & _ & Hst).
    eexists. split; [exact Hst|]. reflexivity.
  - intros gid ms. induction ms as [|m ms IH]; intros s st Hst Hinv.
    + exists st. auto.
    + simpl. destruct (apply_move gid m s) as [r s1] eqn:Happ.
      destruct (apply_move_count _ _ _ _ _ _ Hst Hinv Happ) as (st1 & Hst1 & Hinv1).
      simpl. eapply IH; eauto.
Qed.

Lemma draw_pile_count_mirrors_pile_witness :
  create_game shuffle_rev "g" (Some ["Ann"; "Bob"]) ∅ = (Ok "g", demo_store) /\
  exists st', submit_all "g" demo_moves demo_store !! "g" = Some st' /\
              count_mirrors_pile st'.
Proof.
  assert (H0 : create_game shuffle_rev "g" (Some ["Ann"; "Bob"]) ∅ = (Ok "g", demo_store))
    by (vm_compute; reflexivity).
  split; [exact H0|].
  destruct draw_pile_count_mirrors_pile as [Hcreate Hkeep].
  destruct (Hcreate _ _ _ _ _ _ H0) as (st & Hst & Hinv).
  exact (Hkeep "g" demo_moves demo_store st Hst Hinv).
Defined.

(** C10. On a stored session [patch_state] checks nothing: whatever the
    patch and whatever the session, a finished round included, it overwrites
    each key the patch names with the patch's value, leaves the other keys,
    stores and returns the result; a patch can therefore turn the session
    into any session at all.  It raises [ValueError], leaving the store
    alone, exactly when the id is not in the store.  [PATCH /games/{game_id}]
    is this function, with the [ValueError] turned into status 404. *)
Theorem patch_state_overwrites_unchecked gid patch (s : Store) :
  (forall st, s !! gid = Some st ->
     patch_state gid patch s
       = (Ok (dict_update st patch), <[gid := dict_update st patch]> s) /\
     patch_game_endpoint gid patch s
       = (Ok (dict_update st patch), <[gid := dict_update st patch]> s) /\
     game_id (dict_update st patch) = default (game_id st) (patch_game_id patch) /\
     variant (dict_update st patch) = default (variant st) (patch_variant patch) /\
     players (dict_update st patch) = default (players st) (patch_players patch) /\
     draw_pile (dict_update st patch) = default (draw_pile st) (patch_draw_pile patch) /\
     draw_pile_count (dict_update st patch)
       = default (draw_pile_count st) (patch_draw_pile_count patch) /\
     top_discard (dict_update st patch) = default (top_discard st) (patch_top_discard patch) /\
     current_player (dict_update st patch)
       = default (current_player st) (patch_current_player patch) /\
     turn_phase (dict_update st patch) = default (turn_phase st) (patch_turn_phase patch) /\
     history (dict_update st patch) = default (history st) (patch_history patch) /\
     metadata (dict_update st patch) = default (metadata st) (patch_metadata patch)) /\
  (forall st target, s !! gid = Some st ->
     patch_state gid (full_patch target) s = (Ok target, <[gid := target]> s)) /\
  (s !! gid = None <-> exists msg, fst (patch_state gid patch s) = Raise (ValueError msg)) /\
  (s !! gid = None ->
     patch_state gid patch s
       = (Raise (ValueError ("Game " +:+ gid +:+ " not found")), s) /\
     patch_game_endpoint gid patch s
       = (Raise (HTTPException 404 (Some ("Game " +:+ gid +:+ " not found"))), s)).
Proof.
  split; [|split; [|split]].
  - intros st Hst. split; [by apply patch_state_found|].
    split; [|repeat split].
    unfold patch_game_endpoint, try_except_ValueError, st_bind.
    rewrite (patch_state_found _ _ _ _ Hst). reflexivity.
  - intros st target Hst. rewrite (patch_state_found _ _ _ _ Hst), dict_update_full.
    reflexivity.
  - split.
    + intros Hnone. rewrite (patch_state_not_found _ _ _ Hnone). eauto.
    + intros [msg Hmsg]. destruct (s !! gid) as [st|] eqn:Hst; [|reflexivity].
      rewrite (patch_state_found _ _ _ _ Hst) in Hmsg. discriminate.
  - intros Hnone. split; [by apply patch_state_not_found|].
    unfold patch_game_endpoint, try_except_ValueError, st_bind.
    rewrite (patch_state_not_found _ _ _ Hnone). reflexivity.
Qed.

Lemma patch_state_overwrites_unchecked_witness :
  let st := the_session demo_ended_store "g" in
  demo_ended_store !! "g" = Some st /\
  turn_phase st = "round_end" /\ count_mirrors_pile st /\
  patch_state "g" demo_patch demo_ended_store
    = (Ok (dict_update st demo_patch), <["g" := dict_update st demo_patch]> demo_ended_store) /\
  turn_phase (dict_update st demo_patch) = "awaiting_action" /\
  ~ count_mirrors_pile (dict_update st demo_patch) /\
  current_player_index (dict_update st demo_patch) = None /\
  history (dict_update st demo_patch) = [].
Proof.
  intros st.
  assert (H1 : demo_ended_store !! "g" = Some st) by (vm_compute; reflexivity).
  split; [exact H1|].
  split; [vm_compute; reflexivity|]. split; [vm_compute; reflexivity|].
  destruct (proj1 (patch_state_overwrites_unchecked "g" demo_patch demo_ended_store) st H1)
    as (Hpatch & _ & _ & _ & _ & _ & Hcount & _ & _ & Hphase & Hhist & _).
  split; [exact Hpatch|]. split; [exact Hphase|].
  split; [|split; [vm_compute; reflexivity|exact Hhist]].
  unfold count_mirrors_pile. rewrite Hcount. vm_compute. discriminate.
Defined.

(** * Further properties of the code *)

(** ** The deck and the values of its cards *)

Lemma elem_of_ordered_deck (c : Card) :
  c ∈ ordered_deck <->
  exists rank suit, rank ∈ ranks /\ suit ∈ suits /\ c = rank +:+ suit.
Proof.
  unfold ordered_deck. rewrite list_elem_of_bind. split.
  - intros (suit & Hc & Hsuit). apply list_elem_of_bind in Hc as (rank & Hc & Hrank).
    apply list_elem_of_singleton in Hc. eauto.
  - intros (rank & suit & Hrank & Hsuit & ->). exists suit. split; [|exact Hsuit].
    apply list_elem_of_bind. exists rank. split; [|exact Hrank].
    by apply list_elem_of_singleton.
Qed.

(** X1. Whatever rearrangement [random.shuffle] draws, [create_deck] returns
    52 cards without a repetition, and a card is in the deck exactly when it
    is one of the thirteen ranks followed by one of the four suits. *)
Theorem create_deck_is_a_full_deck (shuffle : list Card -> list Card) :
  shuffle ordered_deck ≡ₚ ordered_deck ->
  length (create_deck shuffle) = 52%nat /\
  NoDup (create_deck shuffle) /\
  (forall c, c ∈ create_deck shuffle <->
             exists rank suit, rank ∈ ranks /\ suit ∈ suits /\ c = rank +:+ suit).
Proof.
  intros Hperm. unfold create_deck. split; [by rewrite Hperm|].
  split; [rewrite Hperm; apply ordered_deck_NoDup|].
  intros c. rewrite Hperm. apply elem_of_ordered_deck.
Qed.

Lemma create_deck_is_a_full_deck_witness :
  shuffle_rev ordered_deck ≡ₚ ordered_deck /\
  length (create_deck shuffle_rev) = 52%nat /\
  NoDup (create_deck shuffle_rev) /\
  (forall c, c ∈ create_deck shuffle_rev <->
             exists rank suit, rank ∈ ranks /\ suit ∈ suits /\ c = rank +:+ suit).
Proof.
  assert (H : shuffle_rev ordered_deck ≡ₚ ordered_deck)
    by (unfold shuffle_rev; symmetry; apply Permutation_rev).
  split; [exact H|]. exact (create_deck_is_a_full_deck shuffle_rev H).
Defined.

Lemma drop_last_snoc (rank : string) (c : ascii) :
  drop_last (rank +:+ String c "") = rank.
Proof.
  induction rank as [|a rank IH]; [reflexivity|].
  cbn [String.app append]. change (String a rank +:+ String c "") with (String a (rank +:+ String c "")).
  cbn [drop_last]. rewrite IH.
  destruct rank; reflexivity.
Qed.

Lemma snoc_not_empty (rank : string) (c : ascii) :
  String.eqb (rank +:+ String c "") "" = false.
Proof. destruct rank; reflexivity. Qed.

(** The value of a card in terms of its rank alone. *)
Lemma get_card_value_snoc (rank : string) (c : ascii) :
  get_card_value (Some (rank +:+ String c "")) =
  if String.eqb rank "K" then Ok 0
  else if String.eqb rank "Q" then Ok 12
  else if String.eqb rank "J" then Ok 11
  else if String.eqb rank "A" then Ok 1
  else py_int rank.
Proof.
  unfold get_card_value. rewrite snoc_not_empty, drop_last_snoc. reflexivity.
Qed.

(** X2. [get_card_value] looks at the rank only: two cards that differ in
    their last character, the suit, have the same value or raise the same
    error. *)
Theorem get_card_value_ignores_suit (rank : string) (suit1 suit2 : ascii) :
  get_card_value (Some (rank +:+ String suit1 "")) =
  get_card_value (Some (rank +:+ String suit2 "")).
Proof. rewrite !get_card_value_snoc. reflexivity. Qed.

(** X3. Every card of a created deck has a value, and it lies between 0 and
    12: scoring a dealt card never raises. *)
Theorem deck_cards_have_values (shuffle : list Card -> list Card) (c : Card) :
  shuffle ordered_deck ≡ₚ ordered_deck ->
  c ∈ create_deck shuffle ->
  exists v, get_card_value (Some c) = Ok v /\ 0 <= v <= 12.
Proof.
  intros Hperm Hc. unfold create_deck in Hc. rewrite Hperm in Hc.
  assert (Hall : Forall (fun c => exists v, get_card_value (Some c) = Ok v /\ 0 <= v <= 12)
                        ordered_deck).
  { repeat constructor; eexists; (split; [vm_compute; reflexivity|lia]). }
  by apply (proj1 (Forall_forall _ _) Hall).
Qed.

Lemma deck_cards_have_values_witness :
  shuffle_rev ordered_deck ≡ₚ ordered_deck /\
  "10D" ∈ create_deck shuffle_rev /\
  exists v, get_card_value (Some "10D") = Ok v /\ 0 <= v <= 12.
Proof.
  assert (H : shuffle_rev ordered_deck ≡ₚ ordered_deck)
    by (unfold shuffle_rev; symmetry; apply Permutation_rev).
  assert (H1 : "10D" ∈ create_deck shuffle_rev).
  { apply (bool_decide_unpack _). vm_compute. exact I. }
  split; [exact H|]. split; [exact H1|].
  exact (deck_cards_have_values shuffle_rev "10D" H H1).
Defined.

Lemma py_int_raise (s0 : string) e : py_int s0 = Raise e -> exists msg, e = ValueError msg.
Proof.
  unfold py_int.
  destruct (match strip (list_ascii_of_string s0) with [] => None | _ => _ end);
    intros [=]; eauto.
Qed.

(** X4. The edges of [get_card_value]: no card, [None] or the empty string,
    is worth 0; a card of a single character, be it K, Q, J or A, leaves an
    empty rank and makes [int] raise [ValueError]; and whenever the function
    raises, the card is a non-empty string, its rank is none of K, Q, J, A,
    and the exception is a [ValueError], the one that [int] raises on that
    rank. *)
Theorem get_card_value_edges (c : option Card) (ch : ascii) (e : Exn) :
  get_card_value None = Ok 0 /\
  get_card_value (Some "") = Ok 0 /\
  get_card_value (Some (String ch ""))
    = Raise (ValueError "invalid literal for int() with base 10: ''") /\
  (get_card_value c = Raise e ->
   exists s msg, c = Some s /\ s <> "" /\ (drop_last s ∉ ["K"; "Q"; "J"; "A"]) /\
     e = ValueError msg /\ py_int (drop_last s) = Raise e).
Proof.
  split; [reflexivity|]. split; [reflexivity|]. split; [reflexivity|].
  unfold get_card_value. destruct c as [s|]; [|discriminate].
  destruct (String.eqb_spec s "") as [|Hne]; [discriminate|].
  destruct (String.eqb_spec (drop_last s) "K") as [|HK]; [discriminate|].
  destruct (String.eqb_spec (drop_last s) "Q") as [|HQ]; [discriminate|].
  destruct (String.eqb_spec (drop_last s) "J") as [|HJ]; [discriminate|].
  destruct (String.eqb_spec (drop_last s) "A") as [|HA]; [discriminate|].
  intros Hint. destruct (py_int_raise _ _ Hint) as [msg ->].
  exists s, msg. split; [reflexivity|]. split; [exact Hne|]. split; [|by split].
  rewrite !elem_of_cons. intros [?|[?|[?|[?|Hin]]]]; try contradiction.
  by apply elem_of_nil in Hin.
Qed.

(** ** More on session creation *)

Lemma str_of_Z_inj (a b : Z) : str_of_Z a = str_of_Z b -> a = b.
Proof.
  unfold str_of_Z. intros H.
  assert (Hnn : forall z, Z.to_int z <> Decimal.Pos Decimal.Nil /\
                          Z.to_int z <> Decimal.Neg Decimal.Nil).
  { intros [|p|p]; simpl; split; try discriminate;
      intros [= Hp]; by apply (Unsigned.to_uint_nonnil p). }
  assert (Hi : Some (Z.to_int a) = Some (Z.to_int b)).
  { rewrite <- (NilZero.isi (Z.to_int a)), <- (NilZero.isi (Z.to_int b)), H;
      [reflexivity|apply Hnn..]. }
  inversion Hi as [Hab].
  rewrite <- (DecimalZ.of_to a), <- (DecimalZ.of_to b), Hab. reflexivity.
Qed.

Lemma deal_hands (deck : list Card) (names : list string) (k : nat) (i : Z)
    (ps : list Player) (idx : Z) :
  deal deck (Z.of_nat k) i names = Ok (ps, idx) ->
  forall j p, ps !! j = Some p ->
    card <$> hand p = Some <$> take 4 (drop (k + 4 * j) deck).
Proof.
  revert k i ps idx. induction names as [|name0 names IH]; intros k i ps idx Hdeal.
  - inversion Hdeal; subst. intros j p Hj. discriminate.
  - cbn [deal] in Hdeal.
    replace (Z.of_nat k + 1) with (Z.of_nat (S k)) in Hdeal by lia.
    replace (Z.of_nat k + 2) with (Z.of_nat (S (S k))) in Hdeal by lia.
    replace (Z.of_nat k + 3) with (Z.of_nat (S (S (S k)))) in Hdeal by lia.
    replace (Z.of_nat k + 4) with (Z.of_nat (4 + k)) in Hdeal by lia.
    rewrite !py_getitem_nat in Hdeal.
    destruct (deck !! k) as [c0|] eqn:H0; [|discriminate].
    destruct (deck !! S k) as [c1|] eqn:H1; [|discriminate].
    destruct (deck !! S (S k)) as [c2|] eqn:H2; [|discriminate].
    destruct (deck !! S (S (S k))) as [c3|] eqn:H3; [|discriminate].
    cbn [res_bind] in Hdeal.
    destruct (deal deck (Z.of_nat (4 + k)) (i + 1) names) as [[ps' idx']|e] eqn:Hrest;
      [|discriminate].
    cbn [res_bind] in Hdeal. inversion Hdeal; subst.
    intros [|j] p Hj; simpl in Hj.
    + inversion Hj; subst. cbn [hand]. rewrite Nat.mul_0_r, Nat.add_0_r.
      rewrite (drop_S _ _ _ H0), (drop_S _ _ _ H1), (drop_S _ _ _ H2), (drop_S _ _ _ H3).
      reflexivity.
    + rewrite (IH _ _ _ _ Hrest j p Hj). do 3 f_equal. lia.
Qed.

(** X5. [create_game] deals in deck order: the player at position [j] holds
    the four cards of the deck from position [4 j] on, in that order, and
    the draw pile is the deck from the first undealt card on. *)
Theorem create_game_deals_in_deck_order shuffle uuid4 player_names (s0 s : Store) gid :
  create_game shuffle uuid4 player_names s0 = (Ok gid, s) ->
  exists st,
    s !! gid = Some st /\
    (forall j p, players st !! j = Some p ->
       card <$> hand p = Some <$> take 4 (drop (4 * j) (create_deck shuffle))) /\
    draw_pile st = drop (4 * length (players st)) (create_deck shuffle).
Proof.
  intros Hc.
  destruct (create_game_stores _ _ _ _ _ _ Hc) as (_ & ps & idx & Hdeal & Hst).
  eexists. split; [exact Hst|]. cbn [players draw_pile].
  split.
  - intros j p Hj. exact (deal_hands _ _ 0 _ _ _ Hdeal j p Hj).
  - pose proof (create_game_Ok_inv _ _ _ _ _ _ Hc) as Hlen.
    destruct (deal_ok (create_deck shuffle) (names_or_default player_names) 0 0)
      as (ps' & Hdeal' & Hps' & _); [exact Hlen|].
    change (Z.of_nat 0) with 0 in Hdeal'. rewrite Hdeal in Hdeal'.
    inversion Hdeal'; subst. rewrite Nat2Z.id, Hps'. reflexivity.
Qed.

Lemma create_game_deals_in_deck_order_witness :
  create_game shuffle_rev "g" (Some ["Ann"; "Bob"]) ∅ = (Ok "g", demo_store) /\
  exists st,
    demo_store !! "g" = Some st /\
    (forall j p, players st !! j = Some p ->
       card <$> hand p = Some <$> take 4 (drop (4 * j) (create_deck shuffle_rev))) /\
    draw_pile st = drop (4 * length (players st)) (create_deck shuffle_rev).
Proof.
  assert (H : create_game shuffle_rev "g" (Some ["Ann"; "Bob"]) ∅ = (Ok "g", demo_store))
    by (vm_compute; reflexivity).
  split; [exact H|].
  exact (create_game_deals_in_deck_order shuffle_rev "g" _ _ _ _ H).
Defined.

(** X6. The players of a created session are the supplied names in order
    (the two defaults when none is supplied); the one at position [j] has id
    [p(j+1)], seat [j] and score 0, no two players share an id, and the
    first one is the current player. *)
Theorem created_players_are_numbered shuffle uuid4 player_names (s0 s : Store) gid :
  create_game shuffle uuid4 player_names s0 = (Ok gid, s) ->
  exists st,
    s !! gid = Some st /\
    name <$> players st = names_or_default player_names /\
    (forall j p, players st !! j = Some p ->
       player_id p = "p" +:+ str_of_Z (Z.of_nat j + 1) /\
       seat p = Z.of_nat j /\ score p = 0) /\
    NoDup (player_id <$> players st) /\
    current_player_index st = Some 0%nat.
Proof.
  intros Hc.
  pose proof (create_game_Ok_inv _ _ _ _ _ _ Hc) as Hlen.
  destruct (create_game_ok shuffle uuid4 player_names s0 Hlen)
    as (st & Hc' & _ & Hn & Hwf & _ & _ & _ & _ & Hcur & _).
  rewrite Hc in Hc'. inversion Hc'; subst.
  exists st. split; [apply lookup_insert_eq|].
  assert (Hnum : forall j p, players st !! j = Some p ->
            player_id p = "p" +:+ str_of_Z (Z.of_nat j + 1) /\
            seat p = Z.of_nat j /\ score p = 0).
  { intros j p Hj. destruct (Hwf j p Hj) as (n0 & _ & Hid & _ & Hseat & Hscore & _). auto. }
  split; [|split; [exact Hnum|split]].
  - apply list_eq. intros j. rewrite list_lookup_fmap.
    destruct (players st !! j) as [p|] eqn:Hj; simpl.
    + destruct (Hwf j p Hj) as (n0 & Hn0 & _ & Hname & _). congruence.
    + symmetry. apply lookup_ge_None. apply lookup_ge_None in Hj. lia.
  - apply NoDup_alt. intros i j x Hi Hj.
    rewrite list_lookup_fmap in Hi, Hj.
    destruct (players st !! i) as [p|] eqn:Hpi; [|discriminate].
    destruct (players st !! j) as [q|] eqn:Hpj; [|discriminate].
    simpl in Hi, Hj.
    destruct (Hnum _ _ Hpi) as (Hp & _). destruct (Hnum _ _ Hpj) as (Hq & _).
    assert (Heq : "p" +:+ str_of_Z (Z.of_nat i + 1) = "p" +:+ str_of_Z (Z.of_nat j + 1))
      by congruence.
    inversion Heq as [Hs]. apply str_of_Z_inj in Hs. lia.
  - assert (Hne : (0 < length (players st))%nat).
    { rewrite Hn. destruct player_names as [[|? ?]|]; simpl; lia. }
    destruct (lookup_lt_is_Some_2 (players st) 0%nat Hne) as [p0 Hp0].
    destruct (Hnum _ _ Hp0) as (Hid & _).
    unfold current_player_index. rewrite Hcur.
    destruct (players st) as [|p ps]; [discriminate|].
    inversion Hp0; subst. simpl. rewrite Hid. reflexivity.
Qed.

Lemma created_players_are_numbered_witness :
  create_game shuffle_rev "g" (Some ["Ann"; "Bob"]) ∅ = (Ok "g", demo_store) /\
  exists st,
    demo_store !! "g" = Some st /\
    name <$> players st = ["Ann"; "Bob"] /\
    NoDup (player_id <$> players st) /\
    current_player_index st = Some 0%nat.
Proof.
  assert (H : create_game shuffle_rev "g" (Some ["Ann"; "Bob"]) ∅ = (Ok "g", demo_store))
    by (vm_compute; reflexivity).
  split; [exact H|].
  destruct (created_players_are_numbered shuffle_rev "g" _ _ _ _ H)
    as (st & Hst & Hnames & _ & Hnd & Hcur).
  exists st. auto.
Defined.

(** ** The store *)

Lemma apply_move_unknown gid m (s : Store) :
  s !! gid = None ->
  apply_move gid m s = (Ok (MoveRejected (Some "Game not found")), s).
Proof.
  intros Hs. eapply apply_move_rejected. by apply validate_move_not_found.
Qed.

(** Every call of [apply_move] on a stored session, by outcome. *)
Lemma apply_move_cases gid m (s s' : Store) st r :
  s !! gid = Some st ->
  apply_move gid m s = (r, s') ->
  exists st',
    s' = <[gid := st']> s /\
    ( (st' = st /\ exists reason, r = Ok (MoveRejected reason))
      \/ (exists cur re, current_player_index st = Some cur /\
            accepted_step st cur m st' re /\ r = Ok (MoveApplied st' re))
      \/ (st' = st /\ exists e, r = Raise e)
      \/ (exists e ps', r = Raise e /\ move_type m = Some "call_cambio" /\
            reveal_and_score (players st) = (Raise e, ps') /\
            st' = set_players ps' st) ).
Proof.
  intros Hst Happ.
  destruct (apply_move_outcome _ _ _ _ _ Happ)
    as [(reason & -> & ->)|[(e0 & -> & -> & _)|(st0 & st2 & Hst0 & Hb & -> & Hv)]].
  { exists st. split; [symmetry; by apply insert_id|]. left. eauto. }
  { exists st. split; [symmetry; by apply insert_id|]. right. right. left. eauto. }
  assert (st0 = st) by congruence. subst st0.
  exists st2. split; [reflexivity|].
  destruct (validate_move_true _ _ _ _ _ Hv) as (_ & _ & st0 & Hst0' & _ & Hcase).
  assert (st0 = st) by congruence. subst st0.
  destruct r as [[reason|st' re]|e].
  - exfalso. eapply apply_validated_not_rejected; eauto.
  - destruct (apply_validated_applied _ _ _ _ _ Hcase Hb) as (-> & cur & Hcur & Hstep).
    right. left. eauto.
  - destruct (apply_validated_raised _ _ _ _ Hcase Hb) as [->|(Hm & ps' & Hrs & ->)].
    + right. right. left. eauto.
    + right. right. right. eauto 10.
Qed.

(** X7. The snapshot that an accepted move returns is the session that
    [get_state] returns afterwards, and [get_state] itself changes
    nothing. *)
Theorem applied_state_is_the_stored_state gid m (s s' : Store) st' re :
  apply_move gid m s = (Ok (MoveApplied st' re), s') ->
  get_state gid s' = (Ok (Some st'), s').
Proof.
  intros Happ.
  destruct (apply_move_applied _ _ _ _ _ _ Happ) as (st & cur & _ & -> & _).
  unfold get_state. st_unfold. rewrite lookup_insert_eq. reflexivity.
Qed.

Lemma applied_state_is_the_stored_state_witness :
  let s' := after_moves "g" [mv "draw_deck" None] demo_store in
  apply_move "g" (mv "draw_deck" None) demo_store
    = (Ok (MoveApplied (the_session s' "g") false), s') /\
  get_state "g" s' = (Ok (Some (the_session s' "g")), s').
Proof.
  intros s'.
  assert (H : apply_move "g" (mv "draw_deck" None) demo_store
              = (Ok (MoveApplied (the_session s' "g") false), s'))
    by (vm_compute; reflexivity).
  split; [exact H|].
  exact (applied_state_is_the_stored_state "g" _ _ _ _ _ H).
Defined.

(** X8. Sessions are independent: [apply_move], [patch_state] and
    [create_game] on one id leave the session stored under any other id as
    it was, whatever their outcome; [apply_move] and [patch_state] never add
    or remove a session, and on an unknown id they change nothing. *)
Theorem sessions_are_independent gid other (s s' : Store) :
  (forall m r, apply_move gid m s = (r, s') ->
     (other <> gid -> s' !! other = s !! other) /\ dom s' = dom s /\
     (s !! gid = None -> s' = s)) /\
  (forall patch r, patch_state gid patch s = (r, s') ->
     (other <> gid -> s' !! other = s !! other) /\ dom s' = dom s /\
     (s !! gid = None -> s' = s)) /\
  (forall shuffle player_names r, create_game shuffle gid player_names s = (r, s') ->
     other <> gid -> s' !! other = s !! other).
Proof.
  split; [|split].
  - intros m r Happ. destruct (s !! gid) as [st|] eqn:Hst.
    + destruct (apply_move_cases _ _ _ _ _ _ Hst Happ) as (st' & -> & _).
      split; [intros Hne; by apply lookup_insert_ne|].
      split; [|discriminate].
      apply dom_insert_lookup_L. eauto.
    + rewrite (apply_move_unknown _ _ _ Hst) in Happ. inversion Happ; subst. auto.
  - intros patch r Hp. destruct (s !! gid) as [st|] eqn:Hst.
    + rewrite (patch_state_found _ _ _ _ Hst) in Hp. inversion Hp; subst.
      split; [intros Hne; by apply lookup_insert_ne|].
      split; [|discriminate].
      apply dom_insert_lookup_L. eauto.
    + rewrite (patch_state_not_found _ _ _ Hst) in Hp. inversion Hp; subst. auto.
  - intros shuffle player_names r Hc Hne. unfold create_game in Hc. st_unfold.
    destruct (deal _ _ _ _) as [[ps idx]|e]; inversion Hc; subst; [|reflexivity].
    by apply lookup_insert_ne.
Qed.

(** Two sessions side by side. *)
Lemma sessions_are_independent_witness :
  let s := snd (create_game shuffle_id "h" None demo_store) in
  let s' := snd (apply_move "g" (mv "call_cambio" None) s) in
  apply_move "g" (mv "call_cambio" None) s
    = (Ok (MoveApplied (the_session s' "g") true), s') /\
  "h" <> "g" /\
  s' !! "h" = s !! "h" /\ dom s' = dom s.
Proof.
  intros s s'.
  assert (H : apply_move "g" (mv "call_cambio" None) s
              = (Ok (MoveApplied (the_session s' "g") true), s'))
    by (vm_compute; reflexivity).
  assert (Hne : "h" <> "g") by discriminate.
  split; [exact H|]. split; [exact Hne|].
  destruct (proj1 (sessions_are_independent "g" "h" s s') _ _ H) as (Hother & Hdom & _).
  split; [exact (Hother Hne)|exact Hdom].
Defined.

(** ** The validator, as a table *)

Ltac decide_kind :=
  repeat match goal with
         | |- context [decide (?a = ?b)] =>
             let Hd := fresh "Hd" in
             destruct (decide (a = b)) as [Hd|Hd];
             [try discriminate Hd|try (exfalso; apply Hd; reflexivity)]
         end.

Lemma invalid_slot_spec (m : Move) :
  invalid_slot (move_get (slot m)) = Ok false <->
  exists v, slot m = Some v /\ slot_in_range v.
Proof.
  rewrite invalid_slot_false. split.
  - destruct (slot m) as [v|]; simpl.
    + intros [[b ->]|[(k & -> & Hk)|(x & -> & Hx)]]; eexists; (split; [reflexivity|]);
        simpl; auto.
    + intros [[b [=]]|[(k & [=] & _)|(x & [=] & _)]].
  - intros (v & -> & Hv). simpl.
    destruct v as [|b|k|x|s0|l|d]; simpl in Hv; try contradiction; eauto 6.
Qed.

(** X9. [validate_move] accepts a move exactly when the session exists, its
    round has not ended, and the move is a [draw_deck] with a non-zero
    [draw_pile_count], a [draw_discard_swap] with a discard top that is
    neither [None] nor empty and a slot in range, a [peek] with a slot in
    range, or a [call_cambio].  A slot in range is an integer from 0 to 3, a
    boolean, or a float that is neither below 0 nor above 3. *)
Theorem validate_move_accepts_iff gid m (s : Store) :
  validate_move gid m s = (Ok (true, None), s) <->
  exists st,
    s !! gid = Some st /\ turn_phase st <> "round_end" /\
    ( (move_type m = Some "draw_deck" /\ draw_pile_count st <> 0)
      \/ (move_type m = Some "draw_discard_swap" /\
          (exists t, top_discard st = Some t /\ t <> "") /\
          (exists v, slot m = Some v /\ slot_in_range v))
      \/ (move_type m = Some "peek" /\ exists v, slot m = Some v /\ slot_in_range v)
      \/ move_type m = Some "call_cambio" ).
Proof.
  split.
  - intros Hv. destruct (validate_move_true _ _ _ _ _ Hv) as (_ & _ & st & Hst & Hphase & H).
    exists st. split; [exact Hst|]. split; [exact Hphase|].
    rewrite !invalid_slot_spec in H. exact H.
  - intros (st & Hst & Hphase & Hcase).
    unfold validate_move. st_unfold. rewrite Hst.
    destruct (String.eqb_spec (turn_phase st) "round_end") as [|_]; [contradiction|].
    destruct Hcase as [[Hm Hcount]|[(Hm & (t & Ht & Hne) & Hslot)|[(Hm & Hslot)|Hm]]];
      rewrite Hm.
    + decide_kind.
      destruct (Z.eqb_spec (draw_pile_count st) 0); [contradiction|reflexivity].
    + decide_kind. rewrite Ht. simpl. rewrite (proj2 (String.eqb_neq t "") Hne).
      rewrite (proj2 (invalid_slot_spec _) Hslot). reflexivity.
    + decide_kind. rewrite (proj2 (invalid_slot_spec _) Hslot). reflexivity.
    + decide_kind. reflexivity.
Qed.

(** X10. The order of the checks of [validate_move]: an unknown id is
    reported whatever the move; a finished round whatever the move; a
    [draw_discard_swap] on an empty discard is refused for the discard even
    when its slot is bad too; and a move of another kind, or without one, is
    refused with a reason that names the kind. *)
Theorem validate_move_reasons gid m (s : Store) :
  (s !! gid = None ->
     validate_move gid m s = (Ok (false, Some "Game not found"), s)) /\
  (forall st, s !! gid = Some st ->
     (turn_phase st = "round_end" ->
        validate_move gid m s = (Ok (false, Some "Round has ended"), s)) /\
     (turn_phase st <> "round_end" ->
        (move_type m = Some "draw_deck" -> draw_pile_count st = 0 ->
           validate_move gid m s = (Ok (false, Some "Draw pile is empty"), s)) /\
        (move_type m = Some "draw_discard_swap" -> falsy (top_discard st) = true ->
           validate_move gid m s = (Ok (false, Some "No card in discard pile"), s)) /\
        (move_type m = Some "draw_discard_swap" -> falsy (top_discard st) = false ->
           invalid_slot (move_get (slot m)) = Ok true ->
           validate_move gid m s = (Ok (false, Some "Invalid slot"), s)) /\
        (move_type m = Some "peek" -> invalid_slot (move_get (slot m)) = Ok true ->
           validate_move gid m s = (Ok (false, Some "Invalid slot"), s)) /\
        (move_type m <> Some "draw_deck" -> move_type m <> Some "draw_discard_swap" ->
         move_type m <> Some "peek" -> move_type m <> Some "call_cambio" ->
           validate_move gid m s
           = (Ok (false, Some ("Unknown move type: " +:+ str_of_move_type (move_type m))), s)))).
Proof.
  split; [apply validate_move_not_found|].
  intros st Hst. split; [by apply validate_move_round_end|].
  intros Hphase.
  assert (Hne : String.eqb (turn_phase st) "round_end" = false)
    by (by apply String.eqb_neq).
  repeat split.
  - intros Hm Hc. unfold validate_move. st_unfold. rewrite Hst, Hne, Hm, Hc.
    decide_kind. reflexivity.
  - intros Hm Hf. unfold validate_move. st_unfold. rewrite Hst, Hne, Hm, Hf.
    decide_kind. reflexivity.
  - intros Hm Hf Hs. unfold validate_move. st_unfold. rewrite Hst, Hne, Hm, Hf, Hs.
    decide_kind. reflexivity.
  - intros Hm Hs. unfold validate_move. st_unfold. rewrite Hst, Hne, Hm, Hs.
    decide_kind. reflexivity.
  - intros H1 H2 H3 H4. unfold validate_move. st_unfold. rewrite Hst, Hne.
    repeat (case_decide; try contradiction). reflexivity.
Qed.

Lemma validate_move_reasons_witness :
  demo_store !! "g" = Some (the_session demo_store "g") /\
  turn_phase (the_session demo_store "g") <> "round_end" /\
  falsy (top_discard (the_session demo_store "g")) = true /\
  validate_move "g" (mv "draw_discard_swap" (Some 9)) demo_store
    = (Ok (false, Some "No card in discard pile"), demo_store) /\
  validate_move "g" (mv "shuffle" None) demo_store
    = (Ok (false, Some "Unknown move type: shuffle"), demo_store).
Proof.
  assert (H1 : demo_store !! "g" = Some (the_session demo_store "g"))
    by (vm_compute; reflexivity).
  assert (H2 : turn_phase (the_session demo_store "g") <> "round_end")
    by (vm_compute; discriminate).
  assert (H3 : falsy (top_discard (the_session demo_store "g")) = true)
    by (vm_compute; reflexivity).
  split; [exact H1|]. split; [exact H2|]. split; [exact H3|].
  split.
  - destruct (proj2 (proj2 (validate_move_reasons "g" (mv "draw_discard_swap" (Some 9))
                              demo_store) _ H1) H2) as (_ & Hd & _).
    exact (Hd eq_refl H3).
  - destruct (proj2 (proj2 (validate_move_reasons "g" (mv "shuffle" None)
                              demo_store) _ H1) H2) as (_ & _ & _ & _ & Hu).
    apply Hu; discriminate.
Defined.

Lemma validate_move_accepts_iff_witness :
  (exists st,
     demo_store !! "g" = Some st /\ turn_phase st <> "round_end" /\
     ( (move_type (mv "peek" (Some 3)) = Some "draw_deck" /\ draw_pile_count st <> 0)
       \/ (move_type (mv "peek" (Some 3)) = Some "draw_discard_swap" /\
           (exists t, top_discard st = Some t /\ t <> "") /\
           (exists v, slot (mv "peek" (Some 3)) = Some v /\ slot_in_range v))
       \/ (move_type (mv "peek" (Some 3)) = Some "peek" /\
           exists v, slot (mv "peek" (Some 3)) = Some v /\ slot_in_range v)
       \/ move_type (mv "peek" (Some 3)) = Some "call_cambio" )) /\
  validate_move "g" (mv "peek" (Some 3)) demo_store = (Ok (true, None), demo_store).
Proof.
  assert (H : exists st,
     demo_store !! "g" = Some st /\ turn_phase st <> "round_end" /\
     ( (move_type (mv "peek" (Some 3)) = Some "draw_deck" /\ draw_pile_count st <> 0)
       \/ (move_type (mv "peek" (Some 3)) = Some "draw_discard_swap" /\
           (exists t, top_discard st = Some t /\ t <> "") /\
           (exists v, slot (mv "peek" (Some 3)) = Some v /\ slot_in_range v))
       \/ (move_type (mv "peek" (Some 3)) = Some "peek" /\
           exists v, slot (mv "peek" (Some 3)) = Some v /\ slot_in_range v)
       \/ move_type (mv "peek" (Some 3)) = Some "call_cambio" )).
  { exists (the_session demo_store "g").
    split; [vm_compute; reflexivity|]. split; [vm_compute; discriminate|].
    right. right. left. split; [reflexivity|]. exists (PyInt 3).
    split; [reflexivity|simpl; lia]. }
  split; [exact H|].
  exact (proj2 (validate_move_accepts_iff "g" (mv "peek" (Some 3)) demo_store) H).
Defined.

(** ** What no move changes *)

Lemma player_kept_refl (p : Player) : player_kept p p.
Proof. unfold player_kept. repeat split; eauto. Qed.

Lemma player_kept_insert (p : Player) (k : nat) (new : CardSlot) :
  visible new = true ->
  player_kept p (set_hand (<[k := new]> (hand p)) p).
Proof.
  intros Hnew. unfold player_kept. simpl. repeat split; [apply length_insert|].
  intros j c Hj Hc. destruct (decide (k = j)) as [->|Hne].
  - exists new. split; [|exact Hnew].
    apply list_lookup_insert_eq. by eapply lookup_lt_Some.
  - exists c. split; [|exact Hc]. by rewrite list_lookup_insert_ne.
Qed.

Lemma player_kept_reveal (p : Player) (sc : Z) :
  player_kept p (set_hand (set_visible true <$> hand p) p) /\
  player_kept p (set_score sc (set_hand (set_visible true <$> hand p) p)).
Proof.
  unfold player_kept. simpl.
  assert (H : forall j c, hand p !! j = Some c -> visible c = true ->
            exists c', (set_visible true <$> hand p) !! j = Some c' /\ visible c' = true).
  { intros j c Hj _. exists (set_visible true c).
    rewrite list_lookup_fmap, Hj. auto. }
  split; repeat split; auto using length_fmap.
Qed.

Lemma reveal_and_score_kept (ps ps' : list Player) r :
  reveal_and_score ps = (r, ps') -> Forall2 player_kept ps ps'.
Proof.
  revert ps' r. induction ps as [|p ps IH]; intros ps' r H; simpl in H.
  - inversion H. constructor.
  - destruct (sum_card_values (set_visible true <$> hand p)) as [total|e].
    + destruct (reveal_and_score ps) as [r1 rest'] eqn:Hrest.
      inversion H; subst. constructor; [apply player_kept_reveal|by eapply IH].
    + inversion H; subst. constructor; [apply (player_kept_reveal p 0)|].
      apply Forall_Forall2_diag, Forall_forall. intros. apply player_kept_refl.
Qed.

Lemma Forall2_player_kept_alter (l : list Player) (cur : nat) (f : Player -> Player) :
  (forall p, l !! cur = Some p -> player_kept p (f p)) ->
  Forall2 player_kept l (alter f cur l).
Proof.
  intros Hf. apply Forall2_alter_r.
  - apply Forall_Forall2_diag, Forall_forall. intros. apply player_kept_refl.
  - intros x y Hx Hy _. assert (x = y) by congruence. subst. by apply Hf.
Qed.

Lemma accepted_step_kept st cur m st' re :
  (cur < length (players st))%nat ->
  accepted_step st cur m st' re ->
  game_id st' = game_id st /\ variant st' = variant st /\ metadata st' = metadata st /\
  Forall2 player_kept (players st) (players st').
Proof.
  intros Hcur Hstep.
  pose proof (list_lookup_lookup_total_lt _ _ Hcur) as Hp.
  destruct Hstep as [drawn rest Hm Hpile|k t old Hm Hk Hr Ht Hne Hold|k c Hm Hk Hr Hc|ps' Hm Hrs];
    simpl; repeat split.
  - apply Forall_Forall2_diag, Forall_forall. intros. apply player_kept_refl.
  - apply Forall2_player_kept_alter. intros p Hp'.
    assert (p = players st !!! cur) by congruence. subst p.
    by apply player_kept_insert.
  - apply Forall2_player_kept_alter. intros p Hp'.
    assert (p = players st !!! cur) by congruence. subst p.
    by apply player_kept_insert.
  - by eapply reveal_and_score_kept.
Qed.

(** Whatever the outcome of a call, the players are kept. *)
Lemma apply_move_kept gid m (s s' : Store) st r :
  s !! gid = Some st ->
  apply_move gid m s = (r, s') ->
  exists st',
    s' !! gid = Some st' /\
    game_id st' = game_id st /\ variant st' = variant st /\ metadata st' = metadata st /\
    Forall2 player_kept (players st) (players st').
Proof.
  intros Hst Happ.
  assert (Hrefl : Forall2 player_kept (players st) (players st))
    by (apply Forall_Forall2_diag, Forall_forall; intros; apply player_kept_refl).
  destruct (apply_move_cases _ _ _ _ _ _ Hst Happ)
    as (st' & -> & [(Heq & _)|[(cur & re & Hcur & Hstep & _)|[(Heq & _)|(e & ps' & _ & _ & Hrs & Heq)]]]);
    exists st'; (split; [apply lookup_insert_eq|]).
  - subst st'. auto.
  - eapply accepted_step_kept; eauto using current_player_index_lt.
  - subst st'. auto.
  - subst st'. simpl. repeat split. by eapply reveal_and_score_kept.
Qed.

(** X11. No call of [apply_move], whether it accepts, rejects or raises,
    changes the session's [game_id], [variant] or [metadata] (the round
    number included), the number or order of the players, or a player's id,
    name, seat or number of slots. *)
Theorem apply_move_keeps_identities gid m (s s' : Store) st r :
  s !! gid = Some st ->
  apply_move gid m s = (r, s') ->
  exists st',
    s' !! gid = Some st' /\
    game_id st' = game_id st /\ variant st' = variant st /\ metadata st' = metadata st /\
    length (players st') = length (players st) /\
    player_id <$> players st' = player_id <$> players st /\
    name <$> players st' = name <$> players st /\
    seat <$> players st' = seat <$> players st /\
    (length ∘ hand) <$> players st' = (length ∘ hand) <$> players st.
Proof.
  intros Hst Happ.
  destruct (apply_move_kept _ _ _ _ _ _ Hst Happ) as (st' & Hst' & Hg & Hv & Hm & Hall).
  exists st'. split; [exact Hst'|]. split; [exact Hg|]. split; [exact Hv|].
  split; [exact Hm|]. split; [symmetry; by eapply Forall2_length|].
  clear -Hall.
  induction Hall as [|p p' ps ps' (Hid & Hname & Hseat & Hlen & _) _ (IH1 & IH2 & IH3 & IH4)];
    [auto|].
  rewrite !fmap_cons. simpl. rewrite Hid, Hname, Hseat, Hlen, IH1, IH2, IH3, IH4. auto.
Qed.

Lemma apply_move_keeps_identities_witness :
  demo_store !! "g" = Some (the_session demo_store "g") /\
  apply_move "g" (mv "call_cambio" None) demo_store
    = (fst (apply_move "g" (mv "call_cambio" None) demo_store),
       snd (apply_move "g" (mv "call_cambio" None) demo_store)) /\
  exists st',
    snd (apply_move "g" (mv "call_cambio" None) demo_store) !! "g" = Some st' /\
    metadata st' = metadata (the_session demo_store "g") /\
    name <$> players st' = ["Ann"; "Bob"].
Proof.
  assert (H1 : demo_store !! "g" = Some (the_session demo_store "g"))
    by (vm_compute; reflexivity).
  assert (H2 : apply_move "g" (mv "call_cambio" None) demo_store
    = (fst (apply_move "g" (mv "call_cambio" None) demo_store),
       snd (apply_move "g" (mv "call_cambio" None) demo_store)))
    by (vm_compute; reflexivity).
  split; [exact H1|]. split; [exact H2|].
  destruct (apply_move_keeps_identities "g" _ _ _ _ _ H1 H2)
    as (st' & Hst' & _ & _ & Hm & _ & _ & Hn & _).
  exists st'. split; [exact Hst'|]. split; [exact Hm|].
  rewrite Hn. vm_compute. reflexivity.
Defined.

(** X12. No call of [apply_move] hides a card: a slot that is visible
    before the call is visible after it, whatever the outcome. *)
Theorem apply_move_never_hides gid m (s s' : Store) st r i p j c :
  s !! gid = Some st ->
  apply_move gid m s = (r, s') ->
  players st !! i = Some p -> hand p !! j = Some c -> visible c = true ->
  exists st' p' c',
    s' !! gid = Some st' /\ players st' !! i = Some p' /\
    hand p' !! j = Some c' /\ visible c' = true.
Proof.
  intros Hst Happ Hp Hc Hvis.
  destruct (apply_move_kept _ _ _ _ _ _ Hst Happ) as (st' & Hst' & _ & _ & _ & Hall).
  destruct (Forall2_lookup_l _ _ _ _ _ Hall Hp) as (p' & Hp' & (_ & _ & _ & _ & Hkeep)).
  destruct (Hkeep j c Hc Hvis) as (c' & Hc' & Hvis').
  exists st', p', c'. auto.
Qed.

Lemma apply_move_never_hides_witness :
  let st := the_session demo_swap_store "g" in
  let p := {| player_id := "p2"; name := "Bob"; seat := 1;
              hand := [ {| card := Some "9S"; visible := true |};
                        {| card := Some "8S"; visible := false |};
                        {| card := Some "7S"; visible := true |};
                        {| card := Some "6S"; visible := false |} ];
              score := 0 |} in
  let m := mv "draw_discard_swap" (Some 0) in
  demo_swap_store !! "g" = Some st /\
  apply_move "g" m demo_swap_store
    = (fst (apply_move "g" m demo_swap_store), snd (apply_move "g" m demo_swap_store)) /\
  players st !! 1%nat = Some p /\
  hand p !! 0%nat = Some {| card := Some "9S"; visible := true |} /\
  exists st' p' c',
    snd (apply_move "g" m demo_swap_store) !! "g" = Some st' /\
    players st' !! 1%nat = Some p' /\
    hand p' !! 0%nat = Some c' /\ visible c' = true.
Proof.
  intros st p m.
  assert (H1 : demo_swap_store !! "g" = Some st) by (vm_compute; reflexivity).
  assert (H2 : apply_move "g" m demo_swap_store
    = (fst (apply_move "g" m demo_swap_store), snd (apply_move "g" m demo_swap_store)))
    by (vm_compute; reflexivity).
  assert (H3 : players st !! 1%nat = Some p) by (vm_compute; reflexivity).
  assert (H4 : hand p !! 0%nat = Some {| card := Some "9S"; visible := true |})
    by reflexivity.
  split; [exact H1|]. split; [exact H2|]. split; [exact H3|]. split; [exact H4|].
  exact (apply_move_never_hides "g" m _ _ _ _ _ _ _ _ H1 H2 H3 H4 eq_refl).
Defined.

(** ** The history *)

Lemma accepted_step_history st cur m st' re :
  accepted_step st cur m st' re ->
  exists action,
    history st' = (history st ++ [history_entry st action])%list /\
    (move_type m = Some "draw_deck" -> action = "drew from deck") /\
    (move_type m = Some "draw_discard_swap" ->
       forall i, slot_index m = Some i ->
         action = "drew from discard and swapped slot " +:+ str_of_index i) /\
    (move_type m = Some "peek" ->
       forall i, slot_index m = Some i -> action = "peeked at slot " +:+ str_of_index i) /\
    (move_type m = Some "call_cambio" -> action = "called Cambio!").
Proof.
  intros [drawn rest Hm Hpile|k t old Hm Hk Hr Ht Hne Hold|k c Hm Hk Hr Hc|ps' Hm Hrs];
    eexists; (split; [reflexivity|]); rewrite Hm;
    repeat split; try discriminate; try reflexivity;
    intros _ k' Hk'; congruence.
Qed.

(** X13. The history is append-only and counts the accepted moves: an
    accepted move appends exactly one entry, whose turn is the new length of
    the history, whose player is the one who moved, and whose action
    describes the move, the slot written as Python prints it (an integer in
    decimal, a boolean as [True] or [False]); a call that rejects or raises
    leaves the history alone. *)
Theorem history_records_accepted_moves gid m (s s' : Store) st r :
  s !! gid = Some st ->
  apply_move gid m s = (r, s') ->
  exists st',
    s' !! gid = Some st' /\
    (forall snap re, r = Ok (MoveApplied snap re) ->
       exists action,
         history st' = (history st ++ [history_entry st action])%list /\
         (move_type m = Some "draw_deck" -> action = "drew from deck") /\
         (move_type m = Some "draw_discard_swap" ->
            forall i, slot_index m = Some i ->
              action = "drew from discard and swapped slot " +:+ str_of_index i) /\
         (move_type m = Some "peek" ->
            forall i, slot_index m = Some i -> action = "peeked at slot " +:+ str_of_index i) /\
         (move_type m = Some "call_cambio" -> action = "called Cambio!")) /\
    ((forall snap re, r <> Ok (MoveApplied snap re)) -> history st' = history st).
Proof.
  intros Hst Happ.
  destruct (apply_move_cases _ _ _ _ _ _ Hst Happ)
    as (st' & -> & [(Heq & reason & ->)|[(cur & re & Hcur & Hstep & ->)|[(Heq & e & ->)|(e & ps' & -> & _ & Hrs & Heq)]]]);
    exists st'; (split; [apply lookup_insert_eq|]).
  - subst st'. split; [discriminate|reflexivity].
  - split.
    + intros snap re' _. by eapply accepted_step_history.
    + intros Hno. exfalso. by eapply Hno.
  - subst st'. split; [discriminate|reflexivity].
  - subst st'. split; [discriminate|reflexivity].
Qed.

Lemma history_records_accepted_moves_witness :
  let m := mv "draw_discard_swap" (Some 3) in
  let s' := after_moves "g" [m] demo_swap_store in
  demo_swap_store !! "g" = Some (the_session demo_swap_store "g") /\
  apply_move "g" m demo_swap_store = (Ok (MoveApplied (the_session s' "g") false), s') /\
  exists st',
    s' !! "g" = Some st' /\
    history st' =
      [ {| turn := 1; player := "p1"; action := "drew from deck" |};
        {| turn := 2; player := "p2";
           action := "drew from discard and swapped slot 3" |} ].
Proof.
  intros m s'.
  assert (H1 : demo_swap_store !! "g" = Some (the_session demo_swap_store "g"))
    by (vm_compute; reflexivity).
  assert (H2 : apply_move "g" m demo_swap_store
               = (Ok (MoveApplied (the_session s' "g") false), s'))
    by (vm_compute; reflexivity).
  split; [exact H1|]. split; [exact H2|].
  destruct (history_records_accepted_moves "g" m _ _ _ _ H1 H2) as (st' & Hst' & Hacc & _).
  exists st'. split; [exact Hst'|].
  destruct (Hacc _ _ eq_refl) as (action & Hh & _ & Hswap & _).
  rewrite Hh, (Hswap eq_refl (IndexInt 3) eq_refl). vm_compute. reflexivity.
Defined.

(** ** The effect of each kind of move *)

(** X14. An accepted [draw_deck] takes the front card of the draw pile and
    makes it the discard top; the pile is its tail, the count the length of
    the tail (one less than before when it mirrored the pile), and hands,
    scores and the phase are as before. *)
Theorem draw_deck_moves_the_front_card gid m (s s' : Store) st st' re :
  s !! gid = Some st ->
  move_type m = Some "draw_deck" ->
  apply_move gid m s = (Ok (MoveApplied st' re), s') ->
  exists drawn,
    draw_pile st = drawn :: draw_pile st' /\
    top_discard st' = Some drawn /\
    draw_pile_count st' = Z.of_nat (length (draw_pile st')) /\
    (count_mirrors_pile st -> draw_pile_count st' = draw_pile_count st - 1) /\
    players st' = players st /\ turn_phase st' = turn_phase st /\ re = false.
Proof.
  intros Hst Hm Happ.
  destruct (apply_move_applied _ _ _ _ _ _ Happ) as (st0 & cur & Hst0 & -> & _ & Hcur & Hstep).
  assert (st0 = st) by congruence. subst st0.
  destruct Hstep as [drawn rest Hm' Hpile|k t old Hm' Hk Hr Ht Hne Hold|k c Hm' Hk Hr Hc|ps' Hm' Hrs];
    try congruence.
  exists drawn. simpl. repeat split; auto.
  unfold count_mirrors_pile. rewrite Hpile. simpl length. lia.
Qed.

Lemma draw_deck_moves_the_front_card_witness :
  let m := mv "draw_deck" None in
  let s' := after_moves "g" [m] demo_store in
  demo_store !! "g" = Some (the_session demo_store "g") /\
  move_type m = Some "draw_deck" /\
  apply_move "g" m demo_store = (Ok (MoveApplied (the_session s' "g") false), s') /\
  exists drawn,
    draw_pile (the_session demo_store "g") = drawn :: draw_pile (the_session s' "g") /\
    top_discard (the_session s' "g") = Some drawn /\
    draw_pile_count (the_session s' "g") = 43.
Proof.
  intros m s'.
  assert (H1 : demo_store !! "g" = Some (the_session demo_store "g"))
    by (vm_compute; reflexivity).
  assert (H2 : apply_move "g" m demo_store
               = (Ok (MoveApplied (the_session s' "g") false), s'))
    by (vm_compute; reflexivity).
  split; [exact H1|]. split; [reflexivity|]. split; [exact H2|].
  destruct (draw_deck_moves_the_front_card "g" m _ _ _ _ _ H1 eq_refl H2)
    as (drawn & Hp & Ht & _ & Hc & _).
  exists drawn. split; [exact Hp|]. split; [exact Ht|].
  rewrite Hc; vm_compute; reflexivity.
Defined.

(** X15. An accepted [peek] makes the named slot of the acting player (an
    integer from 0 to 3, or a boolean read as 0 or 1) visible and leaves its
    card; every other slot, every other player, the
    piles, the discard top and the phase are as before, and when the slot
    was visible already nothing but the turn and the history changes. *)
Theorem peek_reveals_one_slot gid m (s s' : Store) st st' re :
  s !! gid = Some st ->
  move_type m = Some "peek" ->
  apply_move gid m s = (Ok (MoveApplied st' re), s') ->
  exists cur p p' i c,
    current_player_index st = Some cur /\
    players st !! cur = Some p /\ players st' !! cur = Some p' /\
    slot_index m = Some i /\ 0 <= index_pos i <= 3 /\
    hand p !! Z.to_nat (index_pos i) = Some c /\
    hand p' !! Z.to_nat (index_pos i) = Some {| card := card c; visible := true |} /\
    (forall j, j <> Z.to_nat (index_pos i) -> hand p' !! j = hand p !! j) /\
    (forall q, q <> cur -> players st' !! q = players st !! q) /\
    score p' = score p /\
    draw_pile st' = draw_pile st /\ draw_pile_count st' = draw_pile_count st /\
    top_discard st' = top_discard st /\ turn_phase st' = turn_phase st /\
    (visible c = true -> players st' = players st).
Proof.
  intros Hst Hm Happ.
  destruct (apply_move_applied _ _ _ _ _ _ Happ) as (st0 & cur & Hst0 & -> & _ & Hcur & Hstep).
  assert (st0 = st) by congruence. subst st0.
  destruct (find_index_Some _ _ _ Hcur) as (p & Hp & _).
  pose proof (list_lookup_total_correct _ _ _ Hp) as Hpt.
  destruct Hstep as [drawn rest Hm' Hpile|i t old Hm' Hk Hr Ht Hne Hold|i c Hm' Hk Hr Hc|ps' Hm' Hrs];
    try congruence.
  rewrite Hpt in *.
  exists cur, p, (set_hand (<[Z.to_nat (index_pos i) := set_visible true c]> (hand p)) p), i, c.
  simpl.
  split; [exact Hcur|]. split; [exact Hp|].
  split; [by rewrite list_lookup_alter_eq, Hp|].
  split; [exact Hk|]. split; [exact Hr|]. split; [exact Hc|].
  split; [apply list_lookup_insert_eq; by eapply lookup_lt_Some|].
  split; [intros j Hj; by apply list_lookup_insert_ne|].
  split; [intros q Hq; by apply list_lookup_alter_ne|].
  repeat split.
  intros Hvis. apply list_eq. intros q.
  destruct (decide (q = cur)) as [->|Hne]; [|by apply list_lookup_alter_ne].
  rewrite list_lookup_alter_eq, Hp. simpl. f_equal.
  destruct p as [pid pname pseat phand pscore]. unfold set_hand. simpl in *. f_equal.
  apply list_insert_id. rewrite Hc. f_equal.
  destruct c as [cc cv]. simpl in *. by subst cv.
Qed.

Lemma peek_reveals_one_slot_witness :
  let m := mv "peek" (Some 1) in
  let s' := after_moves "g" [m] demo_store in
  demo_store !! "g" = Some (the_session demo_store "g") /\
  move_type m = Some "peek" /\
  apply_move "g" m demo_store = (Ok (MoveApplied (the_session s' "g") false), s') /\
  exists cur p p' i c,
    current_player_index (the_session demo_store "g") = Some cur /\
    players (the_session demo_store "g") !! cur = Some p /\
    players (the_session s' "g") !! cur = Some p' /\
    slot_index m = Some i /\
    hand p !! Z.to_nat (index_pos i) = Some c /\
    hand p' !! Z.to_nat (index_pos i) = Some {| card := card c; visible := true |}.
Proof.
  intros m s'.
  assert (H1 : demo_store !! "g" = Some (the_session demo_store "g"))
    by (vm_compute; reflexivity).
  assert (H2 : apply_move "g" m demo_store
               = (Ok (MoveApplied (the_session s' "g") false), s'))
    by (vm_compute; reflexivity).
  split; [exact H1|]. split; [reflexivity|]. split; [exact H2|].
  destruct (peek_reveals_one_slot "g" m _ _ _ _ _ H1 eq_refl H2)
    as (cur & p & p' & i & c & Hcur & Hp & Hp' & Hk & _ & Hc & Hc' & _).
  exists cur, p, p', i, c. auto 10.
Defined.

(** ** When a move raises *)

Lemma get_card_value_raise (c : option Card) e :
  get_card_value c = Raise e -> exists msg, e = ValueError msg.
Proof.
  unfold get_card_value. destruct c as [c|]; [|discriminate].
  repeat match goal with
         | |- context [if ?b then _ else _] => destruct b; [discriminate|]
         end.
  apply py_int_raise.
Qed.

Lemma sum_card_values_raise (l : list CardSlot) e :
  sum_card_values l = Raise e -> exists msg, e = ValueError msg.
Proof.
  induction l as [|c l IH]; simpl; [discriminate|].
  destruct (get_card_value (card c)) as [v|e'] eqn:Hv; simpl.
  - destruct (sum_card_values l) as [t|e'']; simpl; [discriminate|].
    intros [= <-]. by apply IH.
  - intros [= <-]. by eapply get_card_value_raise.
Qed.

(** Where the loop of [call_cambio] stops when a hand cannot be summed. *)
Lemma reveal_and_score_raise (ps ps' : list Player) e :
  reveal_and_score ps = (Raise e, ps') ->
  exists done done' p rest,
    ps = (done ++ p :: rest)%list /\
    ps' = (done' ++ set_hand (set_visible true <$> hand p) p :: rest)%list /\
    Forall2 revealed_and_scored done done' /\
    sum_card_values (hand p) = Raise e.
Proof.
  revert ps'. induction ps as [|p ps IH]; intros ps' H; simpl in H; [discriminate|].
  rewrite sum_card_values_reveal in H.
  destruct (sum_card_values (hand p)) as [total|e'] eqn:Hsum.
  - destruct (reveal_and_score ps) as [[[]|e''] rest'] eqn:Hrest; [discriminate|].
    inversion H; subst.
    destruct (IH _ eq_refl) as (done & done' & q & rest & -> & -> & Hdone & Hq).
    exists (p :: done), (set_score total (set_hand (set_visible true <$> hand p) p) :: done'),
      q, rest.
    repeat split; auto. constructor; [|exact Hdone].
    assert (H1 : reveal_and_score [p]
                 = (Ok tt, [set_score total (set_hand (set_visible true <$> hand p) p)])).
    { simpl. rewrite sum_card_values_reveal, Hsum. reflexivity. }
    apply reveal_and_score_Ok in H1. by inversion H1.
  - inversion H; subst. exists [], [], p, ps. repeat split; auto.
Qed.

Lemma apply_validated_raised_why m st e st2 :
  ( (move_type m = Some "draw_deck" /\ draw_pile_count st <> 0)
    \/ (move_type m = Some "draw_discard_swap" /\
        (exists t, top_discard st = Some t /\ t <> "") /\
        invalid_slot (move_get (slot m)) = Ok false)
    \/ (move_type m = Some "peek" /\ invalid_slot (move_get (slot m)) = Ok false)
    \/ move_type m = Some "call_cambio" ) ->
  apply_validated m st = (Raise e, st2) ->
  (e = StopIteration /\ current_player_index st = None /\ st2 = st)
  \/ exists cur, current_player_index st = Some cur /\
      ( (e = IndexError /\ move_type m = Some "draw_deck" /\ draw_pile st = [] /\ st2 = st)
        \/ (e = IndexError /\
            (move_type m = Some "draw_discard_swap" \/ move_type m = Some "peek") /\
            (exists i, slot_index m = Some i /\ 0 <= index_pos i <= 3 /\
                       (length (hand (players st !!! cur)) <= Z.to_nat (index_pos i))%nat) /\
            st2 = st)
        \/ (e = TypeError "list indices must be integers or slices, not float" /\
            (move_type m = Some "draw_discard_swap" \/ move_type m = Some "peek") /\
            (exists x, slot m = Some (PyFloat x)) /\
            st2 = st)
        \/ (move_type m = Some "call_cambio" /\
            exists ps', reveal_and_score (players st) = (Raise e, ps') /\
                        st2 = set_players ps' st) ).
Proof.
  intros Hcase Hb. unfold apply_validated, next_current_player in Hb. st_unfold.
  destruct (current_player_index st) as [cur|] eqn:Hcur; [|inversion Hb; auto].
  right. exists cur. split; [reflexivity|].
  destruct Hcase as [[Hm Hcount]|[(Hm & (t & Ht & Hne) & Hslot)|[(Hm & Hslot)|Hm]]];
    rewrite Hm in Hb; cbn [String.eqb Ascii.eqb Bool.eqb] in Hb.
  - rewrite exec_draw_deck_run in Hb.
    destruct (draw_pile st) as [|drawn rest] eqn:Hpile; [inversion Hb; auto|].
    rewrite (switch_after st) in Hb by (auto || reflexivity). discriminate.
  - destruct (validated_slot _ Hslot) as [(i & Hk & Hr)|(x & Hx & _)].
    2:{ rewrite (proj1 (exec_slot_not_index cur m st _ _ Hx eq_refl)) in Hb.
        inversion Hb; subst. right. right. left. eauto 10. }
    rewrite (exec_draw_discard_swap_run _ _ _ i) in Hb by auto.
    destruct (hand (players st !!! cur) !! Z.to_nat (index_pos i)) as [old|] eqn:Hold.
    + rewrite (switch_after st) in Hb by (auto || (simpl; by apply alter_player_ids)).
      discriminate.
    + inversion Hb; subst. apply lookup_ge_None in Hold. right. left. eauto 10.
  - destruct (validated_slot _ Hslot) as [(i & Hk & Hr)|(x & Hx & _)].
    2:{ rewrite (proj2 (exec_slot_not_index cur m st _ _ Hx eq_refl)) in Hb.
        inversion Hb; subst. right. right. left. eauto 10. }
    rewrite (exec_peek_run _ _ _ i) in Hb by auto.
    destruct (hand (players st !!! cur) !! Z.to_nat (index_pos i)) as [c|] eqn:Hc.
    + rewrite (switch_after st) in Hb by (auto || (simpl; by apply alter_player_ids)).
      discriminate.
    + inversion Hb; subst. apply lookup_ge_None in Hc. right. left. eauto 10.
  - rewrite exec_call_cambio_run in Hb.
    destruct (reveal_and_score (players st)) as [[[]|e'] ps] eqn:Hrs; [discriminate|].
    inversion Hb; subst. right. right. right. eauto.
Qed.

(** X17. [call_cambio] is not atomic.  When it raises [ValueError], the
    players listed before the one whose hand cannot be summed are revealed
    and scored, that one is revealed and keeps its score, the players after
    it are untouched, and the round is not ended: phase, history, current
    player, piles and discard top are as before. *)
Theorem call_cambio_is_not_atomic gid m (s s' : Store) msg :
  apply_move gid m s = (Raise (ValueError msg), s') ->
  move_type m = Some "call_cambio" /\
  exists st st' done done' p rest,
    s !! gid = Some st /\ s' !! gid = Some st' /\
    players st = (done ++ p :: rest)%list /\
    players st' = (done' ++ set_hand (set_visible true <$> hand p) p :: rest)%list /\
    Forall2 revealed_and_scored done done' /\
    sum_card_values (hand p) = Raise (ValueError msg) /\
    turn_phase st' = turn_phase st /\ history st' = history st /\
    current_player st' = current_player st /\
    draw_pile st' = draw_pile st /\ draw_pile_count st' = draw_pile_count st /\
    top_discard st' = top_discard st.
Proof.
  intros Happ.
  destruct (apply_move_outcome _ _ _ _ _ Happ)
    as [(reason & Hr & _)|[(e0 & He0 & _ & Hv)|(st & st2 & Hst & Hb & -> & Hv)]];
    [discriminate| |].
  { exfalso. injection He0 as <-.
    destruct (validate_move_total gid m s) as (r0 & Hv' & [(v & reason & -> & _)|(e & -> & He & _)]);
      rewrite Hv in Hv'; [discriminate|].
    injection Hv' as <-. by destruct (invalid_slot_raise _ _ He) as [[=] _]. }
  destruct (validate_move_true _ _ _ _ _ Hv) as (_ & _ & st0 & Hst0 & _ & Hcase).
  assert (st0 = st) by congruence. subst st0.
  destruct (apply_validated_raised_why _ _ _ _ Hcase Hb)
    as [(He & _)|(cur & Hcur & [(He & _)|[(He & _)|[(He & _)|(Hm & ps' & Hrs & ->)]]])];
    try discriminate.
  split; [exact Hm|].
  destruct (reveal_and_score_raise _ _ _ Hrs) as (done & done' & p & rest & Hps & -> & Hdone & Hsum).
  exists st, (set_players (done' ++ set_hand (set_visible true <$> hand p) p :: rest) st),
    done, done', p, rest.
  split; [exact Hst|]. split; [apply lookup_insert_eq|]. simpl. auto 15.
Qed.

Lemma call_cambio_is_not_atomic_witness :
  let m := mv "call_cambio" None in
  let s' := snd (apply_move "g" m demo_joker_store) in
  apply_move "g" m demo_joker_store
    = (Raise (ValueError "invalid literal for int() with base 10: '*'"), s') /\
  score <$> players (the_session s' "g") = [12; 0; 0] /\
  (move_type m = Some "call_cambio" /\
   exists st st' done done' p rest,
     demo_joker_store !! "g" = Some st /\ s' !! "g" = Some st' /\
     players st = (done ++ p :: rest)%list /\
     players st' = (done' ++ set_hand (set_visible true <$> hand p) p :: rest)%list /\
     Forall2 revealed_and_scored done done' /\
     sum_card_values (hand p)
       = Raise (ValueError "invalid literal for int() with base 10: '*'") /\
     turn_phase st' = turn_phase st /\ history st' = history st /\
     current_player st' = current_player st /\
     draw_pile st' = draw_pile st /\ draw_pile_count st' = draw_pile_count st /\
     top_discard st' = top_discard st).
Proof.
  intros m s'.
  assert (H : apply_move "g" m demo_joker_store
              = (Raise (ValueError "invalid literal for int() with base 10: '*'"), s'))
    by (vm_compute; reflexivity).
  split; [exact H|]. split; [vm_compute; reflexivity|].
  exact (call_cambio_is_not_atomic "g" m _ _ _ H).
Defined.

(** ** Sessions made through the store functions *)

Lemma Forall2_player_kept_ids (ps ps' : list Player) :
  Forall2 player_kept ps ps' -> player_id <$> ps' = player_id <$> ps.
Proof.
  induction 1 as [|p p' ps ps' (Hid & _) _ IH]; [reflexivity|].
  rewrite !fmap_cons, Hid, IH. reflexivity.
Qed.

Lemma sum_card_values_cards (l l' : list CardSlot) :
  card <$> l' = card <$> l -> sum_card_values l' = sum_card_values l.
Proof.
  revert l'. induction l as [|c l IH]; intros [|c' l'] H; try discriminate; [reflexivity|].
  rewrite !fmap_cons in H. inversion H as [[Hc Hl]].
  simpl. rewrite Hc, (IH _ Hl). reflexivity.
Qed.

Lemma accepted_step_phase st cur m st' re :
  turn_phase st <> "round_end" ->
  accepted_step st cur m st' re ->
  phase_consistent st -> phase_consistent st'.
Proof.
  intros Hphase Hstep [[Hp Hsc]|[Hp _]]; [|contradiction].
  destruct Hstep as [drawn rest Hm Hpile|k t old Hm Hk Hr Ht Hne Hold|k c Hm Hk Hr Hc|ps' Hm Hrs].
  - left. simpl. auto.
  - left. simpl. split; [exact Hp|]. apply Forall_alter; auto.
  - left. simpl. split; [exact Hp|]. apply Forall_alter; auto.
  - right. simpl. split; [reflexivity|].
    apply reveal_and_score_Ok in Hrs. clear -Hrs.
    induction Hrs as [|p p' ps ps' (_ & _ & _ & Hcards & Hvis & Hsum & _) _ IH];
      constructor; [|exact IH].
    split; [exact Hvis|]. rewrite <- Hsum. by apply sum_card_values_cards.
Qed.

Lemma accepted_step_history_numbered st cur m st' re :
  current_player_index st = Some cur ->
  accepted_step st cur m st' re ->
  history_numbered st -> history_numbered st'.
Proof.
  intros Hcur Hstep Hnum.
  pose proof (current_player_index_lt _ _ Hcur) as Hlt.
  destruct (accepted_step_kept _ _ _ _ _ Hlt Hstep) as (_ & _ & _ & Hkept).
  pose proof (Forall2_player_kept_ids _ _ Hkept) as Hids.
  destruct (accepted_step_history _ _ _ _ _ Hstep) as (action & Hh & _).
  destruct (find_index_Some _ _ _ Hcur) as (p & Hp & Hid & _).
  apply String.eqb_eq in Hid.
  intros i e Hi. rewrite Hh in Hi. rewrite Hids.
  destruct (decide (i < length (history st))%nat) as [Hlti|Hge].
  - rewrite lookup_app_l in Hi by exact Hlti. by apply Hnum.
  - rewrite lookup_app_r in Hi by lia.
    destruct (i - length (history st))%nat as [|n] eqn:Hn; simpl in Hi; [|discriminate].
    inversion Hi; subst e. simpl. split; [lia|].
    rewrite <- Hid. apply list_elem_of_fmap_2. by eapply list_elem_of_lookup_2.
Qed.

Lemma accepted_step_cards_of_deck st cur m st' re :
  (cur < length (players st))%nat ->
  accepted_step st cur m st' re ->
  cards_of_deck st -> cards_of_deck st'.
Proof.
  intros Hlt Hstep [Hdeck Hsome]. split.
  - rewrite (accepted_step_cards _ _ _ _ _ Hlt Hstep) in Hdeck.
    by apply Forall_app in Hdeck as [_ ?].
  - pose proof (list_lookup_lookup_total_lt _ _ Hlt) as Hp.
    pose proof (Forall_lookup_1 _ _ _ _ Hsome Hp) as Hcur.
    destruct Hstep as [drawn rest Hm Hpile|k t old Hm Hk Hr Ht Hne Hold|k c Hm Hk Hr Hc|ps' Hm Hrs];
      simpl.
    + exact Hsome.
    + apply Forall_alter; [exact Hsome|]. intros p _ _. simpl.
      apply Forall_insert; [exact Hcur|]. simpl. eauto.
    + apply Forall_alter; [exact Hsome|]. intros p _ _. simpl.
      apply Forall_insert; [exact Hcur|]. simpl.
      exact (Forall_lookup_1 _ _ _ _ Hcur Hc).
    + apply reveal_and_score_Ok in Hrs. clear -Hrs Hsome.
      induction Hrs as [|p p' ps ps' (_ & _ & _ & Hcards & _) _ IH]; [constructor|].
      apply Forall_cons in Hsome as [Hp Hps]. constructor; [|by apply IH].
      apply Forall_lookup. intros j c' Hc'.
      assert (H : (card <$> hand p') !! j = Some (card c'))
        by (rewrite list_lookup_fmap, Hc'; reflexivity).
      rewrite Hcards, list_lookup_fmap in H.
      destruct (hand p !! j) as [c|] eqn:Hc; [|discriminate].
      simpl in H. inversion H as [Heq].
      pose proof (Forall_lookup_1 _ _ _ _ Hp Hc) as Hs. simpl in Hs.
      exact Hs.
Qed.

Lemma accepted_step_api st cur m st' re :
  current_player_index st = Some cur ->
  turn_phase st <> "round_end" ->
  accepted_step st cur m st' re ->
  api_session st -> api_session st'.
Proof.
  intros Hcur Hphase Hstep (Hwf & Hnum & Hph & Hdeck & Hnd).
  pose proof (current_player_index_lt _ _ Hcur) as Hlt.
  split; [by eapply accepted_step_well_formed|].
  split; [by eapply accepted_step_history_numbered|].
  split; [by eapply accepted_step_phase|].
  split; [by eapply accepted_step_cards_of_deck|].
  destruct (accepted_step_kept _ _ _ _ _ Hlt Hstep) as (_ & _ & _ & Hkept).
  by rewrite (Forall2_player_kept_ids _ _ Hkept).
Qed.

(** On such a session a call returns a result, or raises [TypeError] for
    the slot and changes nothing; it leaves such a session. *)
Lemma apply_move_api gid m (s : Store) st :
  s !! gid = Some st -> api_session st ->
  exists r st',
    apply_move gid m s = (r, <[gid := st']> s) /\ api_session st' /\
    ( (st' = st /\ exists reason, r = Ok (MoveRejected reason))
      \/ (exists cur re, current_player_index st = Some cur /\
            turn_phase st <> "round_end" /\
            accepted_step st cur m st' re /\ r = Ok (MoveApplied st' re))
      \/ (st' = st /\ exists msg, r = Raise (TypeError msg)) ).
Proof.
  intros Hst Hapi.
  destruct (validate_move_total gid m s)
    as (r0 & Hv & [(v & reason & -> & _ & Hnone)|(e & -> & He & _)]).
  - destruct v.
    + rewrite (Hnone eq_refl) in Hv.
      destruct (apply_move_accepts _ _ _ _ Hst (proj1 Hapi) Hv)
        as [(st' & re & Happ & _)|(x & _ & _ & _ & _ & Happ)].
      * destruct (apply_move_applied _ _ _ _ _ _ Happ)
          as (st0 & cur & Hst0 & _ & Hphase & Hcur & Hstep).
        assert (st0 = st) by congruence. subst st0.
        exists (Ok (MoveApplied st' re)), st'. split; [exact Happ|].
        split; [by eapply accepted_step_api|]. right. left. eauto 10.
      * eexists _, st. rewrite Happ, (insert_id _ _ _ Hst).
        split; [reflexivity|]. split; [exact Hapi|]. right. right. eauto.
    + exists (Ok (MoveRejected reason)), st.
      rewrite (apply_move_rejected _ _ _ _ _ Hv), (insert_id _ _ _ Hst). eauto 10.
  - destruct (apply_move_validation_raised _ _ _ _ _ Hv) as [Happ _].
    destruct (invalid_slot_raise _ _ He) as [-> _].
    eexists _, st. rewrite Happ, (insert_id _ _ _ Hst).
    split; [reflexivity|]. split; [exact Hapi|]. right. right. eauto.
Qed.

Lemma submit_all_api gid (ms : list Move) (s : Store) st :
  s !! gid = Some st -> api_session st ->
  exists st', submit_all gid ms s !! gid = Some st' /\ api_session st'.
Proof.
  revert s st. induction ms as [|m ms IH]; intros s st Hst Hapi; [eauto|].
  destruct (apply_move_api gid m s st Hst Hapi) as (r & st' & Happ & Hapi' & _).
  simpl. rewrite Happ. simpl. eapply IH; [apply lookup_insert_eq|exact Hapi'].
Qed.

Lemma fmap_card_all_some (h : list CardSlot) (l : list Card) :
  card <$> h = Some <$> l -> Forall (fun c => is_Some (card c)) h.
Proof.
  intros H. apply Forall_lookup. intros j c Hc.
  assert (Hj : (card <$> h) !! j = Some (card c))
    by (rewrite list_lookup_fmap, Hc; reflexivity).
  rewrite H, list_lookup_fmap in Hj.
  destruct (l !! j) as [x|]; [|discriminate]. simpl in Hj. inversion Hj. eauto.
Qed.

Lemma ordered_deck_elems : Forall (fun c => c ∈ ordered_deck) ordered_deck.
Proof. apply Forall_forall. auto. Qed.

Lemma created_session_api shuffle uuid4 player_names (s0 s : Store) gid :
  shuffle ordered_deck ≡ₚ ordered_deck ->
  create_game shuffle uuid4 player_names s0 = (Ok gid, s) ->
  exists st, s !! gid = Some st /\ api_session st.
Proof.
  intros Hperm Hc.
  destruct (created_session_well_formed _ _ _ _ _ _ Hperm Hc) as (st & Hst & Hwf & Hphase).
  destruct (created_session_cards _ _ _ _ _ _ Hperm Hc) as (st1 & Hst1 & Hdeck & _).
  assert (st1 = st) by congruence. subst st1.
  pose proof (create_game_Ok_inv _ _ _ _ _ _ Hc) as Hlen.
  destruct (create_game_ok shuffle uuid4 player_names s0 Hlen)
    as (st1 & Hc' & _ & Hn & Hdealt & _ & _ & _ & _ & _ & _ & Hhist).
  rewrite Hc in Hc'. inversion Hc'; subst. rewrite lookup_insert_eq in Hst.
  inversion Hst; subst st1. clear Hst Hst1.
  exists st. split; [apply lookup_insert_eq|].
  split; [exact Hwf|]. split; [|split; [|split]].
  - intros i e Hi. rewrite Hhist in Hi. discriminate.
  - left. split; [exact Hphase|]. apply Forall_lookup. intros j p Hj.
    destruct (Hdealt j p Hj) as (n0 & _ & _ & _ & _ & Hsc & _). exact Hsc.
  - split; [rewrite Hdeck; apply ordered_deck_elems|].
    destruct (create_game_stores _ _ _ _ _ _ Hc) as (_ & ps & idx & Hdeal & Hst).
    rewrite lookup_insert_eq in Hst. inversion Hst as [Hst']. simpl.
    apply Forall_lookup. intros j p Hj.
    exact (fmap_card_all_some _ _ (deal_hands _ _ 0 _ _ _ Hdeal j p Hj)).
  - apply NoDup_alt. intros i j x Hi Hj.
    rewrite list_lookup_fmap in Hi, Hj.
    destruct (players st !! i) as [p|] eqn:Hpi; [|discriminate].
    destruct (players st !! j) as [q|] eqn:Hpj; [|discriminate].
    simpl in Hi, Hj.
    destruct (Hdealt _ _ Hpi) as (? & _ & Hp & _).
    destruct (Hdealt _ _ Hpj) as (? & _ & Hq & _).
    assert (Heq : "p" +:+ str_of_Z (Z.of_nat i + 1) = "p" +:+ str_of_Z (Z.of_nat j + 1))
      by congruence.
    inversion Heq as [Hs]. apply str_of_Z_inj in Hs. lia.
Qed.

Lemma created_then_submitted shuffle uuid4 player_names (s0 s : Store) gid (ms : list Move) :
  shuffle ordered_deck ≡ₚ ordered_deck ->
  create_game shuffle uuid4 player_names s0 = (Ok gid, s) ->
  exists st', submit_all gid ms s !! gid = Some st' /\ api_session st'.
Proof.
  intros Hperm Hc.
  destruct (created_session_api _ _ _ _ _ _ Hperm Hc) as (st & Hst & Hapi).
  by eapply submit_all_api.
Qed.

Lemma demo_store_created :
  shuffle_rev ordered_deck ≡ₚ ordered_deck /\
  create_game shuffle_rev "g" (Some ["Ann"; "Bob"]) ∅ = (Ok "g", demo_store).
Proof.
  split; [unfold shuffle_rev; symmetry; apply Permutation_rev|vm_compute; reflexivity].
Qed.

(** A move that meets the checks of [validate_move] passes it. *)
Lemma validate_move_accepts_like gid m (s : Store) st :
  s !! gid = Some st -> turn_phase st <> "round_end" ->
  ( (move_type m = Some "draw_deck" /\ draw_pile_count st <> 0)
    \/ (move_type m = Some "draw_discard_swap" /\
        (exists t, top_discard st = Some t /\ t <> "") /\
        invalid_slot (move_get (slot m)) = Ok false)
    \/ (move_type m = Some "peek" /\ invalid_slot (move_get (slot m)) = Ok false)
    \/ move_type m = Some "call_cambio" ) ->
  validate_move gid m s = (Ok (true, None), s).
Proof.
  intros Hst Hphase Hcase.
  unfold validate_move. st_unfold. rewrite Hst.
  destruct (String.eqb_spec (turn_phase st) "round_end") as [|_]; [contradiction|].
  destruct Hcase as [[Hm Hcount]|[(Hm & (t & Ht & Hne) & Hslot)|[(Hm & Hslot)|Hm]]];
    rewrite Hm.
  - decide_kind.
    destruct (Z.eqb_spec (draw_pile_count st) 0); [contradiction|reflexivity].
  - decide_kind. rewrite Ht. simpl. rewrite (proj2 (String.eqb_neq t "") Hne).
    rewrite Hslot. reflexivity.
  - decide_kind. rewrite Hslot. reflexivity.
  - decide_kind. reflexivity.
Qed.

(** When the validator raises: in a round that has not ended, on a [peek],
    or on a [draw_discard_swap] with a card on the discard, whose slot
    cannot be compared with an integer. *)
Lemma validate_move_raises gid m (s : Store) st e :
  s !! gid = Some st ->
  validate_move gid m s = (Raise e, s) <->
  turn_phase st <> "round_end" /\
  (move_type m = Some "peek"
   \/ (move_type m = Some "draw_discard_swap" /\ falsy (top_discard st) = false)) /\
  invalid_slot (move_get (slot m)) = Raise e.
Proof.
  intros Hst. unfold validate_move. st_unfold. rewrite Hst.
  destruct (String.eqb_spec (turn_phase st) "round_end") as [Hp|Hp];
    [split; [discriminate|intros [? _]; contradiction]|].
  case_decide as H1.
  { destruct (draw_pile_count st =? 0);
      (split; [discriminate|intros (_ & [H|[H _]] & _); congruence]). }
  case_decide as H2.
  { destruct (falsy (top_discard st)) eqn:Hf.
    - split; [discriminate|intros (_ & [H|[_ H]] & _); congruence].
    - destruct (invalid_slot (move_get (slot m))) as [[]|e'] eqn:Hs.
      + split; [discriminate|intros (_ & _ & [=])].
      + split; [discriminate|intros (_ & _ & [=])].
      + split; [intros [= ->]; auto|intros (_ & _ & [= ->]); reflexivity]. }
  case_decide as H3.
  { destruct (invalid_slot (move_get (slot m))) as [[]|e'] eqn:Hs.
    - split; [discriminate|intros (_ & _ & [=])].
    - split; [discriminate|intros (_ & _ & [=])].
    - split; [intros [= ->]; auto|intros (_ & _ & [= ->]); reflexivity]. }
  case_decide as H4;
    (split; [discriminate|intros (_ & [H|[H _]] & _); congruence]).
Qed.

(** X18. On a session dealt by [create_game] from a shuffled deck, whatever
    has been submitted before, [apply_move] raises in two cases only, both on
    a [peek], or a [draw_discard_swap] with a card on the discard, in a round
    that has not ended: when the slot is a string, a list or a dictionary,
    the comparison in [validate_move] raises [TypeError]; when the slot is a
    float that is neither below 0 nor above 3, validation passes and
    indexing the hand raises [TypeError].  In both the store is left as it
    was, and on every other move [apply_move] returns a result.  After any
    sequence of submissions every hand has four slots, each holding a card,
    no two players share an id, and [current_player] is the id of a player
    of the session. *)
Theorem api_sessions_raise_on_slot_type_only shuffle uuid4 player_names (s0 s : Store) gid
    (ms : list Move) (m : Move) :
  shuffle ordered_deck ≡ₚ ordered_deck ->
  create_game shuffle uuid4 player_names s0 = (Ok gid, s) ->
  exists st',
    submit_all gid ms s !! gid = Some st' /\
    Forall (fun p => length (hand p) = 4%nat /\
                     Forall (fun c => is_Some (card c)) (hand p)) (players st') /\
    NoDup (player_id <$> players st') /\
    current_player st' ∈ player_id <$> players st' /\
    (forall e,
       fst (apply_move gid m (submit_all gid ms s)) = Raise e <->
       turn_phase st' <> "round_end" /\
       (move_type m = Some "peek"
        \/ (move_type m = Some "draw_discard_swap" /\ falsy (top_discard st') = false)) /\
       exists v, slot m = Some v /\
         ( (match v with PyStr _ | PyList _ | PyDict _ => True | _ => False end /\
            e = TypeError ("'<' not supported between instances of '"
                           +:+ type_name v +:+ "' and 'int'"))
           \/ (match v with PyFloat _ => slot_in_range v | _ => False end /\
               e = TypeError "list indices must be integers or slices, not float") )) /\
    (forall e,
       fst (apply_move gid m (submit_all gid ms s)) = Raise e ->
       snd (apply_move gid m (submit_all gid ms s)) = submit_all gid ms s).
Proof.
  intros Hperm Hc.
  destruct (created_then_submitted _ _ _ _ _ _ ms Hperm Hc)
    as (st' & Hst' & Hapi).
  set (s1 := submit_all gid ms s) in *.
  exists st'. split; [exact Hst'|].
  pose proof Hapi as (([cur Hcur] & Hhands & _) & _ & _ & (_ & Hsome) & Hnd).
  split; [|split; [exact Hnd|split; [|split]]].
  - apply Forall_lookup. intros j p Hj.
    split; [exact (Forall_lookup_1 _ _ _ _ Hhands Hj)|exact (Forall_lookup_1 _ _ _ _ Hsome Hj)].
  - destruct (find_index_Some _ _ _ Hcur) as (p & Hp & Hid & _).
    apply String.eqb_eq in Hid. rewrite <- Hid.
    apply list_elem_of_fmap_2. by eapply list_elem_of_lookup_2.
  - intros e. split.
    + intros Hr. destruct (apply_move gid m s1) as [r s2] eqn:Happ. simpl in Hr. subst r.
      destruct (apply_move_outcome _ _ _ _ _ Happ)
        as [(reason & [=] & _)|[(e0 & [= <-] & _ & Hv)|(st0 & st2 & Hst0 & _ & _ & Hv)]].
      * apply (validate_move_raises _ _ _ _ _ Hst') in Hv as (Hphase & Hm & Hs).
        split; [exact Hphase|]. split; [exact Hm|].
        destruct (slot m) as [v|] eqn:Hslot; [|discriminate].
        exists v. split; [reflexivity|]. left. simpl in Hs.
        destruct (invalid_slot_raise _ _ Hs) as [-> [[? ->]|[[? ->]|[? ->]]]]; auto.
      * assert (st0 = st') by congruence. subst st0.
        destruct (validate_move_true _ _ _ _ _ Hv) as (_ & _ & st0 & Hst0' & Hphase & Hcase).
        assert (st0 = st') by congruence. subst st0.
        destruct (apply_move_accepts _ _ _ _ Hst' (proj1 Hapi) Hv)
          as [(st3 & re & Happ' & _)|(x & Hx & Hx0 & Hx3 & Hm & Happ')];
          rewrite Happ' in Happ; [discriminate|].
        injection Happ as <- _.
        split; [exact Hphase|]. split.
        { destruct Hm as [Hm|Hm]; [right|by left].
          destruct Hcase as [[Hm' _]|[(_ & (t & Ht & Hne) & _)|[[Hm' _]|Hm']]]; try congruence.
          split; [exact Hm|]. rewrite Ht. simpl. by apply String.eqb_neq. }
        exists (PyFloat x). split; [exact Hx|]. right. simpl. auto.
    + intros (Hphase & Hm & v & Hslot & Hv).
      destruct Hv as [[Hkind ->]|[Hkind ->]].
      * assert (Hs : invalid_slot (move_get (slot m))
                     = Raise (TypeError ("'<' not supported between instances of '"
                                         +:+ type_name v +:+ "' and 'int'")))
          by (rewrite Hslot; destruct v; simpl in *; (reflexivity || contradiction)).
        pose proof (proj2 (validate_move_raises gid m s1 st' _ Hst')
                      (conj Hphase (conj Hm Hs))) as Hval.
        by rewrite (proj1 (apply_move_validation_raised _ _ _ _ _ Hval)).
      * destruct v as [| | |x| | |]; try contradiction.
        assert (Hval : validate_move gid m s1 = (Ok (true, None), s1)).
        { apply (validate_move_accepts_like gid m s1 st'); [exact Hst'|exact Hphase|].
          destruct Hm as [Hm|[Hm Hf]].
          - right. right. left. split; [exact Hm|].
            apply invalid_slot_spec. eauto.
          - right. left. split; [exact Hm|]. split; [by apply falsy_false|].
            apply invalid_slot_spec. eauto. }
        destruct (apply_move_accepts _ _ _ _ Hst' (proj1 Hapi) Hval)
          as [(st3 & re & Happ' & _)|(x' & _ & _ & _ & _ & Happ')];
          [|by rewrite Happ'].
        exfalso.
        destruct (apply_move_applied _ _ _ _ _ _ Happ')
          as (st0 & cur' & _ & _ & _ & _ & Hstep).
        assert (Hnone : slot_index m = None)
          by (unfold slot_index; rewrite Hslot; reflexivity).
        destruct Hstep as [drawn rest Hm' Hpile|i t old Hm' Hk Hr Ht Hne Hold|i c Hm' Hk Hr Hc0|ps' Hm' Hrs];
          destruct Hm as [Hm|[Hm _]]; congruence.
  - intros e Hr. destruct (apply_move gid m s1) as [r s2] eqn:Happ. simpl in *. subst r.
    destruct (apply_move_api gid m _ _ Hst' Hapi)
      as (r & st2 & Happ' & _ & [(-> & reason & ->)|[(cur' & re & _ & _ & _ & ->)|(-> & msg & ->)]]);
      rewrite Happ' in Happ; try discriminate.
    injection Happ as _ <-. by apply insert_id.
Qed.

Lemma api_sessions_raise_on_slot_type_only_witness :
  shuffle_rev ordered_deck ≡ₚ ordered_deck /\
  create_game shuffle_rev "g" (Some ["Ann"; "Bob"]) ∅ = (Ok "g", demo_store) /\
  apply_move "g" demo_float_slot (submit_all "g" demo_turns demo_store)
  = (Raise (TypeError "list indices must be integers or slices, not float"),
     submit_all "g" demo_turns demo_store) /\
  exists st',
    submit_all "g" demo_turns demo_store !! "g" = Some st' /\
    Forall (fun p => length (hand p) = 4%nat /\
                     Forall (fun c => is_Some (card c)) (hand p)) (players st') /\
    NoDup (player_id <$> players st') /\
    current_player st' ∈ player_id <$> players st' /\
    (forall e,
       fst (apply_move "g" demo_float_slot (submit_all "g" demo_turns demo_store)) = Raise e <->
       turn_phase st' <> "round_end" /\
       (move_type demo_float_slot = Some "peek"
        \/ (move_type demo_float_slot = Some "draw_discard_swap" /\
            falsy (top_discard st') = false)) /\
       exists v, slot demo_float_slot = Some v /\
         ( (match v with PyStr _ | PyList _ | PyDict _ => True | _ => False end /\
            e = TypeError ("'<' not supported between instances of '"
                           +:+ type_name v +:+ "' and 'int'"))
           \/ (match v with PyFloat _ => slot_in_range v | _ => False end /\
               e = TypeError "list indices must be integers or slices, not float") )) /\
    (forall e,
       fst (apply_move "g" demo_float_slot (submit_all "g" demo_turns demo_store)) = Raise e ->
       snd (apply_move "g" demo_float_slot (submit_all "g" demo_turns demo_store))
       = submit_all "g" demo_turns demo_store).
Proof.
  destruct demo_store_created as [H0 H1].
  split; [exact H0|]. split; [exact H1|]. split; [vm_compute; reflexivity|].
  exact (api_sessions_raise_on_slot_type_only shuffle_rev "g" _ _ _ _ demo_turns
           demo_float_slot H0 H1).
Defined.

Lemma apply_move_history_length gid m (s s' : Store) st r :
  s !! gid = Some st ->
  apply_move gid m s = (r, s') ->
  exists st', s' !! gid = Some st' /\
    (length (history st) <= length (history st') <= length (history st) + 1)%nat /\
    (forall snap re, r = Ok (MoveApplied snap re) ->
       length (history st') = S (length (history st))).
Proof.
  intros Hst Happ.
  destruct (apply_move_cases _ _ _ _ _ _ Hst Happ)
    as (st' & -> & [(Heq & reason & ->)|[(cur & re & Hcur & Hstep & ->)|[(Heq & e & ->)|(e & ps' & -> & _ & Hrs & Heq)]]]);
    exists st'; (split; [apply lookup_insert_eq|]); try (subst st'; simpl; split; [lia|discriminate]).
  destruct (accepted_step_history _ _ _ _ _ Hstep) as (action & Hh & _).
  rewrite Hh, length_app. simpl. split; [lia|]. intros. lia.
Qed.

(** X19. In a session made by [create_game] and moves, the history is
    numbered: its entry at position [i] has turn [i + 1] and names a player
    of the session; it has at most one entry per submission, and exactly
    one per move when every move was accepted. *)
Theorem history_is_numbered shuffle uuid4 player_names (s0 s : Store) gid (ms : list Move) :
  shuffle ordered_deck ≡ₚ ordered_deck ->
  create_game shuffle uuid4 player_names s0 = (Ok gid, s) ->
  exists st',
    submit_all gid ms s !! gid = Some st' /\
    (forall i e, history st' !! i = Some e ->
       turn e = Z.of_nat i + 1 /\ player e ∈ player_id <$> players st') /\
    (length (history st') <= length ms)%nat /\
    (forall lost s', run_moves gid ms s = Some (lost, s') ->
       length (history st') = length ms).
Proof.
  intros Hperm Hc.
  destruct (created_then_submitted _ _ _ _ _ _ ms Hperm Hc) as (st' & Hst' & Hapi).
  exists st'. split; [exact Hst'|]. split; [exact (proj1 (proj2 Hapi))|].
  destruct (created_session_api _ _ _ _ _ _ Hperm Hc) as (st & Hst & Hapi0).
  assert (Hh0 : history st = []).
  { pose proof (create_game_Ok_inv _ _ _ _ _ _ Hc) as Hlen.
    destruct (create_game_ok shuffle uuid4 player_names s0 Hlen)
      as (st1 & Hc' & _ & _ & _ & _ & _ & _ & _ & _ & _ & Hhist).
    rewrite Hc in Hc'. inversion Hc'; subst. rewrite lookup_insert_eq in Hst.
    by inversion Hst; subst. }
  assert (Hgen : forall ms (s : Store) st st',
            s !! gid = Some st -> submit_all gid ms s !! gid = Some st' ->
            (length (history st') <= length (history st) + length ms)%nat /\
            (forall lost s', run_moves gid ms s = Some (lost, s') ->
               length (history st') = (length (history st) + length ms)%nat)).
  { clear. induction ms as [|m ms IH]; intros s st st' Hst Hst'.
    - simpl in Hst'. assert (st' = st) by congruence. subst. simpl. split; [lia|]. intros; lia.
    - simpl in Hst'. destruct (apply_move gid m s) as [r s1] eqn:Happ. simpl in Hst'.
      destruct (apply_move_history_length _ _ _ _ _ _ Hst Happ) as (st1 & Hst1 & Hle & Hacc).
      destruct (IH _ _ _ Hst1 Hst') as [IHle IHrun].
      split; [simpl; lia|].
      intros lost s' Hrun. simpl in Hrun. rewrite Hst, Happ in Hrun.
      destruct r as [[reason|snap re]|e]; try discriminate.
      destruct (run_moves gid ms s1) as [[lost' s2]|] eqn:Hrest; [|discriminate].
      rewrite (IHrun _ _ eq_refl), (Hacc _ _ eq_refl). simpl. lia. }
  destruct (Hgen ms s st st' Hst Hst') as [Hle Hrun]. rewrite Hh0 in Hle, Hrun.
  split; [exact Hle|exact Hrun].
Qed.

Lemma history_is_numbered_witness :
  shuffle_rev ordered_deck ≡ₚ ordered_deck /\
  create_game shuffle_rev "g" (Some ["Ann"; "Bob"]) ∅ = (Ok "g", demo_store) /\
  exists st',
    submit_all "g" demo_moves demo_store !! "g" = Some st' /\
    (forall i e, history st' !! i = Some e ->
       turn e = Z.of_nat i + 1 /\ player e ∈ player_id <$> players st') /\
    (length (history st') <= length demo_moves)%nat /\
    (forall lost s', run_moves "g" demo_moves demo_store = Some (lost, s') ->
       length (history st') = length demo_moves).
Proof.
  destruct demo_store_created as [H0 H1].
  split; [exact H0|]. split; [exact H1|].
  exact (history_is_numbered shuffle_rev "g" _ _ _ _ demo_moves H0 H1).
Defined.

(** X20. In a session made by [create_game] and moves, the phase is either
    [awaiting_action], and then every score is 0, or [round_end], and then
    every slot is visible and every score is the sum of the values of the
    hand. *)
Theorem scores_follow_the_phase shuffle uuid4 player_names (s0 s : Store) gid (ms : list Move) :
  shuffle ordered_deck ≡ₚ ordered_deck ->
  create_game shuffle uuid4 player_names s0 = (Ok gid, s) ->
  exists st',
    submit_all gid ms s !! gid = Some st' /\
    ( (turn_phase st' = "awaiting_action" /\ Forall (fun p => score p = 0) (players st'))
      \/ (turn_phase st' = "round_end" /\
          Forall (fun p => Forall (fun c => visible c = true) (hand p) /\
                           sum_card_values (hand p) = Ok (score p)) (players st')) ).
Proof.
  intros Hperm Hc.
  destruct (created_then_submitted _ _ _ _ _ _ ms Hperm Hc) as (st' & Hst' & Hapi).
  exists st'. split; [exact Hst'|]. exact (proj1 (proj2 (proj2 Hapi))).
Qed.

Lemma scores_follow_the_phase_witness :
  shuffle_rev ordered_deck ≡ₚ ordered_deck /\
  create_game shuffle_rev "g" (Some ["Ann"; "Bob"]) ∅ = (Ok "g", demo_store) /\
  exists st',
    submit_all "g" demo_moves demo_store !! "g" = Some st' /\
    ( (turn_phase st' = "awaiting_action" /\ Forall (fun p => score p = 0) (players st'))
      \/ (turn_phase st' = "round_end" /\
          Forall (fun p => Forall (fun c => visible c = true) (hand p) /\
                           sum_card_values (hand p) = Ok (score p)) (players st')) ).
Proof.
  destruct demo_store_created as [H0 H1].
  split; [exact H0|]. split; [exact H1|].
  exact (scores_follow_the_phase shuffle_rev "g" _ _ _ _ demo_moves H0 H1).
Defined.

Lemma ordered_deck_values :
  Forall (fun c => exists v, get_card_value (Some c) = Ok v /\ 0 <= v <= 12) ordered_deck.
Proof. repeat constructor; eexists; (split; [vm_compute; reflexivity|lia]). Qed.

Lemma sum_card_values_bounds (h : list CardSlot) (t : Z) :
  Forall (fun c => exists x, card c = Some x /\ x ∈ ordered_deck) h ->
  sum_card_values h = Ok t ->
  0 <= t <= 12 * Z.of_nat (length h).
Proof.
  revert t. induction h as [|c h IH]; intros t Hall Hsum.
  - inversion Hsum. simpl. lia.
  - apply Forall_cons in Hall as [(x & Hx & Hin) Hh].
    simpl in Hsum. rewrite Hx in Hsum.
    destruct (proj1 (Forall_forall _ _) ordered_deck_values x Hin) as (v & Hv & Hb).
    rewrite Hv in Hsum. simpl in Hsum.
    destruct (sum_card_values h) as [t'|] eqn:Ht; [|discriminate].
    simpl in Hsum. inversion Hsum; subst.
    specialize (IH _ Hh eq_refl). simpl length. lia.
Qed.

Lemma hand_cards_in_play (st : GameState) (p : Player) (c : CardSlot) (x : Card) :
  p ∈ players st -> c ∈ hand p -> card c = Some x -> x ∈ cards_in_play st.
Proof.
  intros Hp Hc Hx. unfold cards_in_play.
  apply elem_of_app. right. apply elem_of_app. left.
  apply list_elem_of_bind. exists p. split; [|exact Hp].
  unfold hand_cards. apply list_elem_of_omap. eauto.
Qed.

(** X21. In a session made by [create_game] and moves, every score lies
    between 0 and 48, at any time. *)
Theorem scores_are_bounded shuffle uuid4 player_names (s0 s : Store) gid (ms : list Move) :
  shuffle ordered_deck ≡ₚ ordered_deck ->
  create_game shuffle uuid4 player_names s0 = (Ok gid, s) ->
  exists st',
    submit_all gid ms s !! gid = Some st' /\
    Forall (fun p => 0 <= score p <= 48) (players st').
Proof.
  intros Hperm Hc.
  destruct (created_then_submitted _ _ _ _ _ _ ms Hperm Hc) as (st' & Hst' & Hapi).
  exists st'. split; [exact Hst'|].
  destruct Hapi as ((_ & Hhands & _) & _ & Hphase & (Hdeck & Hsome) & _).
  destruct Hphase as [[_ Hzero]|[_ Hsum]].
  - eapply Forall_impl; [exact Hzero|]. simpl. intros p Hp. lia.
  - apply Forall_forall. intros p Hp.
    destruct (proj1 (Forall_forall _ _) Hsum p Hp) as [_ Hs].
    pose proof (proj1 (Forall_forall _ _) Hhands p Hp) as H4.
    pose proof (proj1 (Forall_forall _ _) Hsome p Hp) as Hcards.
    assert (Hall : Forall (fun c => exists x, card c = Some x /\ x ∈ ordered_deck) (hand p)).
    { apply Forall_forall. intros c Hcin.
      destruct (proj1 (Forall_forall _ _) Hcards c Hcin) as [x Hx].
      exists x. split; [exact Hx|].
      apply (proj1 (Forall_forall _ _) Hdeck). by eapply hand_cards_in_play. }
    pose proof (sum_card_values_bounds _ _ Hall Hs) as Hb. simpl in H4. rewrite H4 in Hb. lia.
Qed.

Lemma scores_are_bounded_witness :
  shuffle_rev ordered_deck ≡ₚ ordered_deck /\
  create_game shuffle_rev "g" (Some ["Ann"; "Bob"]) ∅ = (Ok "g", demo_store) /\
  exists st',
    submit_all "g" demo_moves demo_store !! "g" = Some st' /\
    Forall (fun p => 0 <= score p <= 48) (players st').
Proof.
  destruct demo_store_created as [H0 H1].
  split; [exact H0|]. split; [exact H1|].
  exact (scores_are_bounded shuffle_rev "g" _ _ _ _ demo_moves H0 H1).
Defined.

(** ** Running out of cards *)

Lemma validate_draw_deck gid m (s : Store) st :
  s !! gid = Some st -> turn_phase st <> "round_end" ->
  move_type m = Some "draw_deck" ->
  validate_move gid m s =
  if draw_pile_count st =? 0 then (Ok (false, Some "Draw pile is empty"), s)
  else (Ok (true, None), s).
Proof.
  intros Hst Hphase Hm. unfold validate_move. st_unfold.
  rewrite Hst, (proj2 (String.eqb_neq _ _) Hphase), Hm.
  destruct (decide (Some "draw_deck" = Some "draw_deck")); [|contradiction].
  destruct (draw_pile_count st =? 0); reflexivity.
Qed.

Lemma draws_until_empty gid (m : Move) (k : nat) (s : Store) st :
  move_type m = Some "draw_deck" ->
  s !! gid = Some st -> well_formed st -> turn_phase st <> "round_end" ->
  length (draw_pile st) = k ->
  exists lost s' st',
    run_moves gid (replicate k m) s = Some (lost, s') /\
    s' !! gid = Some st' /\ draw_pile st' = [] /\
    apply_move gid m s' = (Ok (MoveRejected (Some "Draw pile is empty")), s').
Proof.
  intros Hm. revert s st. induction k as [|k IH]; intros s st Hst Hwf Hphase Hlen.
  - exists [], s, st. split; [reflexivity|]. split; [exact Hst|].
    split; [by apply nil_length_inv|].
    eapply apply_move_rejected. rewrite (validate_draw_deck _ _ _ _ Hst Hphase Hm).
    destruct Hwf as (_ & _ & Hcount & _). unfold count_mirrors_pile in Hcount.
    rewrite Hcount, Hlen. reflexivity.
  - assert (Hv : validate_move gid m s = (Ok (true, None), s)).
    { rewrite (validate_draw_deck _ _ _ _ Hst Hphase Hm).
      destruct Hwf as (_ & _ & Hcount & _). unfold count_mirrors_pile in Hcount.
      rewrite Hcount, Hlen. reflexivity. }
    destruct (apply_move_accepts _ _ _ _ Hst Hwf Hv)
      as [(st1 & re & Happ & Hwf1)|(x & _ & _ & _ & [Hm'|Hm'] & _)]; try congruence.
    destruct (apply_move_applied _ _ _ _ _ _ Happ) as (st0 & cur & Hst0 & _ & _ & Hcur & Hstep).
    assert (st0 = st) by congruence. subst st0.
    assert (Hst1 : <[gid := st1]> s !! gid = Some st1) by apply lookup_insert_eq.
    assert (Hkeep : turn_phase st1 = turn_phase st /\ length (draw_pile st1) = k).
    { destruct Hstep as [drawn rest Hm' Hpile|? ? ? Hm' _ _ _ _ _|? ? Hm' _ _ _|? Hm' _];
        try congruence.
      simpl. split; [reflexivity|]. rewrite Hpile in Hlen. simpl in Hlen. lia. }
    destruct Hkeep as [Hph1 Hlen1].
    destruct (IH _ _ Hst1 Hwf1) as (lost & s' & st' & Hrun & Hst' & Hpile' & Hrej);
      [by rewrite Hph1|exact Hlen1|].
    exists (superseded m st ++ lost)%list, s', st'.
    split; [|auto]. simpl. rewrite Hst, Happ, Hrun. reflexivity.
Qed.

(** X22. A session created for [n] names accepts exactly [52 - 4 n]
    successive [draw_deck] moves: they all pass, the pile is then empty, and
    the next [draw_deck] is rejected with ["Draw pile is empty"], the store
    being left as it is. *)
Theorem draw_pile_runs_out shuffle uuid4 player_names (s0 s : Store) gid (m : Move) :
  shuffle ordered_deck ≡ₚ ordered_deck ->
  create_game shuffle uuid4 player_names s0 = (Ok gid, s) ->
  move_type m = Some "draw_deck" ->
  exists lost s' st',
    run_moves gid (replicate (52 - 4 * length (names_or_default player_names)) m) s
      = Some (lost, s') /\
    s' !! gid = Some st' /\ draw_pile st' = [] /\
    apply_move gid m s' = (Ok (MoveRejected (Some "Draw pile is empty")), s').
Proof.
  intros Hperm Hc Hm.
  destruct (created_session_well_formed _ _ _ _ _ _ Hperm Hc) as (st & Hst & Hwf & Hphase).
  pose proof (create_game_Ok_inv _ _ _ _ _ _ Hc) as Hlen.
  destruct (create_game_ok shuffle uuid4 player_names s0 Hlen)
    as (st1 & Hc' & _ & _ & _ & _ & _ & Hpile & _).
  rewrite Hc in Hc'. inversion Hc'; subst. rewrite lookup_insert_eq in Hst.
  inversion Hst; subst st1.
  apply (draws_until_empty uuid4 m _ _ st Hm (lookup_insert_eq _ _ _) Hwf).
  - rewrite Hphase. discriminate.
  - rewrite Hpile, Hperm. reflexivity.
Qed.

Lemma draw_pile_runs_out_witness :
  let m := mv "draw_deck" None in
  shuffle_rev ordered_deck ≡ₚ ordered_deck /\
  create_game shuffle_rev "g" (Some ["Ann"; "Bob"]) ∅ = (Ok "g", demo_store) /\
  move_type m = Some "draw_deck" /\
  exists lost s' st',
    run_moves "g" (replicate (52 - 4 * length (names_or_default (Some ["Ann"; "Bob"]))) m)
      demo_store = Some (lost, s') /\
    s' !! "g" = Some st' /\ draw_pile st' = [] /\
    apply_move "g" m s' = (Ok (MoveRejected (Some "Draw pile is empty")), s').
Proof.
  intros m. destruct demo_store_created as [H0 H1].
  split; [exact H0|]. split; [exact H1|]. split; [reflexivity|].
  exact (draw_pile_runs_out shuffle_rev "g" _ _ _ _ m H0 H1 eq_refl).
Defined.

(** ** More on the HTTP endpoints *)

(** X23. The reading endpoints are read-only and answer 404 exactly for an
    unknown id: [GET /games/{game_id}] returns the stored session and
    [GET /games/{game_id}/history] its history, both leaving the store as it
    is, and both raise 404 with ["Game not found"] when, and only when,
    nothing is stored under the id. *)
Theorem reading_endpoints_are_read_only gid (s : Store) :
  snd (get_game_endpoint gid s) = s /\
  snd (get_history_endpoint gid s) = s /\
  (forall st, s !! gid = Some st ->
     fst (get_game_endpoint gid s) = Ok st /\
     fst (get_history_endpoint gid s) = Ok (history st)) /\
  (s !! gid = None <->
     fst (get_game_endpoint gid s) = Raise (HTTPException 404 (Some "Game not found"))) /\
  (s !! gid = None <->
     fst (get_history_endpoint gid s) = Raise (HTTPException 404 (Some "Game not found"))).
Proof.
  unfold get_game_endpoint, get_history_endpoint, get_state. st_unfold.
  destruct (s !! gid) as [st|]; simpl.
  - split; [reflexivity|]. split; [reflexivity|].
    split; [intros st' [= <-]; auto|]. split; split; discriminate.
  - split; [reflexivity|]. split; [reflexivity|].
    split; [discriminate|]. split; split; reflexivity.
Qed.

Lemma apply_move_exn gid m (s s' : Store) e :
  apply_move gid m s = (Raise e, s') ->
  e = StopIteration \/ e = IndexError \/ (exists msg, e = TypeError msg)
  \/ exists msg, e = ValueError msg.
Proof.
  intros Happ.
  destruct (apply_move_outcome _ _ _ _ _ Happ)
    as [(reason & Hr & _)|[(e0 & [= <-] & _ & Hv)|(st & st2 & Hst & Hb & -> & Hv)]];
    [discriminate| |].
  { destruct (validate_move_total gid m s)
      as (r0 & Hv' & [(v & reason & -> & _)|(e0 & -> & He & _)]);
      rewrite Hv in Hv'; [discriminate|].
    injection Hv' as ->. destruct (invalid_slot_raise _ _ He) as [-> _]. eauto. }
  destruct (validate_move_true _ _ _ _ _ Hv) as (_ & _ & st0 & Hst0 & _ & Hcase).
  assert (st0 = st) by congruence. subst st0.
  destruct (apply_validated_raised_why _ _ _ _ Hcase Hb)
    as [(-> & _)|(cur & _ & [(-> & _)|[(-> & _)|[(-> & _)|(_ & ps' & Hrs & _)]]])];
    eauto.
  destruct (reveal_and_score_raise _ _ _ Hrs) as (? & ? & p & ? & _ & _ & _ & Hsum).
  right. right. right. by eapply sum_card_values_raise.
Qed.

(** X24. What [POST /games/{game_id}/moves] answers.  It returns exactly
    when [apply_move] accepted the move, and then returns its result; the
    only HTTP error it raises is 400, never 404, exactly when validation
    failed, with the validator's reason as detail and the store as it was;
    any other exception is one that [apply_move] raised. *)
Theorem submit_move_endpoint_answers gid m (s s' : Store) :
  (forall res, submit_move_endpoint gid m s = (Ok res, s') <->
     exists st re, res = MoveApplied st re /\ apply_move gid m s = (Ok res, s')) /\
  (forall code detail,
     submit_move_endpoint gid m s = (Raise (HTTPException code detail), s') <->
     code = 400 /\ s' = s /\ validate_move gid m s = (Ok (false, detail), s)) /\
  (forall e, (forall code detail, e <> HTTPException code detail) ->
     (submit_move_endpoint gid m s = (Raise e, s') <-> apply_move gid m s = (Raise e, s'))).
Proof.
  unfold submit_move_endpoint, st_bind.
  destruct (apply_move gid m s) as [[[reason|st re]|e] s1] eqn:Happ; simpl.
  - assert (Hv : s1 = s /\ validate_move gid m s = (Ok (false, reason), s)).
    { destruct (validate_move_total gid m s)
        as (r0 & Hv & [([|] & r & -> & _ & Hnone)|(e0 & -> & _)]).
      - rewrite (Hnone eq_refl) in Hv.
        destruct (validate_move_true _ _ _ _ _ Hv) as (_ & _ & st & Hst & _ & Hcase).
        unfold apply_move, st_bind in Happ. rewrite Hv in Happ. simpl in Happ.
        unfold with_state in Happ. rewrite Hst in Happ.
        destruct (apply_validated m st) as [r2 st2] eqn:Hb.
        inversion Happ; subst. exfalso. by eapply apply_validated_not_rejected.
      - rewrite (apply_move_rejected _ _ _ _ _ Hv) in Happ. inversion Happ; subst. auto.
      - rewrite (proj1 (apply_move_validation_raised _ _ _ _ _ Hv)) in Happ.
        discriminate. }
    destruct Hv as [-> Hv].
    split; [|split].
    + intros res. split; [discriminate|]. intros (st & re & -> & [=]).
    + intros code detail. split.
      * intros [= <- <- <-]. auto.
      * intros (-> & -> & Hv'). rewrite Hv in Hv'. inversion Hv'; subst. reflexivity.
    + intros e Hne. split; [|discriminate].
      intros [= <- _]. exfalso. by eapply Hne.
  - split; [|split].
    + intros res. split.
      * intros [= <- <-]. eauto.
      * intros (st0 & re0 & -> & [= -> -> ->]). reflexivity.
    + intros code detail. split; [discriminate|].
      intros (_ & -> & Hv). rewrite (apply_move_rejected _ _ _ _ _ Hv) in Happ. discriminate.
    + intros e _. split; discriminate.
  - destruct (apply_move_exn _ _ _ _ _ Happ) as [->|[->|[[msg ->]|[msg ->]]]];
      (split; [|split]);
      try (intros res; split; [discriminate|intros (? & ? & _ & [=])]);
      try (intros code detail; split; [discriminate|];
           intros (_ & -> & Hv); rewrite (apply_move_rejected _ _ _ _ _ Hv) in Happ;
           discriminate);
      intros e _; reflexivity.
Qed.

Lemma submit_move_endpoint_answers_witness :
  let m := mv "draw_deck" None in
  let s' := after_moves "g" [m] demo_store in
  (exists st re, MoveApplied (the_session s' "g") false = MoveApplied st re /\
     apply_move "g" m demo_store = (Ok (MoveApplied (the_session s' "g") false), s')) /\
  submit_move_endpoint "g" m demo_store = (Ok (MoveApplied (the_session s' "g") false), s').
Proof.
  intros m s'.
  assert (H : exists st re, MoveApplied (the_session s' "g") false = MoveApplied st re /\
     apply_move "g" m demo_store = (Ok (MoveApplied (the_session s' "g") false), s')).
  { exists (the_session s' "g"), false. split; [reflexivity|vm_compute; reflexivity]. }
  split; [exact H|].
  exact (proj2 (proj1 (submit_move_endpoint_answers "g" m demo_store s') _) H).
Defined.

(** X25. [POST /games] without names, or with an empty list, creates the
    default table: two players named Player1 and Player2 with ids p1 and p2,
    each holding four cards of which the first and third are visible, 44
    cards in the draw pile, and it returns the new id with the stored
    session. *)
Theorem create_game_endpoint_defaults shuffle uuid4 player_names (s : Store) :
  shuffle ordered_deck ≡ₚ ordered_deck ->
  player_names = None \/ player_names = Some [] ->
  exists st,
    create_game_endpoint shuffle uuid4 player_names s
      = (Ok (uuid4, Some st), <[uuid4 := st]> s) /\
    create_game shuffle uuid4 player_names s = (Ok uuid4, <[uuid4 := st]> s) /\
    name <$> players st = ["Player1"; "Player2"] /\
    player_id <$> players st = ["p1"; "p2"] /\
    Forall (fun p => visible <$> hand p = [true; false; true; false]) (players st) /\
    draw_pile_count st = 44 /\ length (draw_pile st) = 44%nat.
Proof.
  intros Hperm Hnames.
  assert (Hdef : names_or_default player_names = ["Player1"; "Player2"])
    by (destruct Hnames as [->| ->]; reflexivity).
  assert (Hlen : length (shuffle ordered_deck) = 52%nat)
    by (rewrite Hperm; apply ordered_deck_length).
  destruct (create_game_ok shuffle uuid4 player_names s)
    as (st & Hc & _ & Hn & Hdealt & _ & Hcount & Hpile & _);
    [rewrite Hdef, Hlen; simpl; lia|].
  exists st.
  assert (Hc' : create_game shuffle uuid4 (Some (names_or_default player_names)) s
                = (Ok uuid4, <[uuid4 := st]> s)).
  { rewrite <- Hc. rewrite Hdef. destruct Hnames as [->| ->]; reflexivity. }
  split.
  { unfold create_game_endpoint, st_bind. rewrite Hc'.
    unfold get_state. st_unfold. rewrite lookup_insert_eq. reflexivity. }
  split; [exact Hc|].
  rewrite Hdef in Hn, Hdealt. simpl in Hn.
  destruct (players st) as [|p0 [|p1 [|p2 l]]]; try discriminate.
  destruct (Hdealt 0%nat p0 eq_refl) as (n0 & Hn0 & Hid0 & Hname0 & _ & _ & Hvis0 & _).
  destruct (Hdealt 1%nat p1 eq_refl) as (n1 & Hn1 & Hid1 & Hname1 & _ & _ & Hvis1 & _).
  simpl in Hn0, Hn1.
  assert (Hname0' : name p0 = "Player1") by congruence.
  assert (Hname1' : name p1 = "Player2") by congruence.
  split; [simpl; by rewrite Hname0', Hname1'|].
  split; [simpl; by rewrite Hid0, Hid1|].
  split; [repeat constructor; assumption|].
  rewrite Hcount, Hpile, Hlen, Hdef. simpl. split; reflexivity.
Qed.

Lemma create_game_endpoint_defaults_witness :
  shuffle_rev ordered_deck ≡ₚ ordered_deck /\
  (@None (list string) = None \/ @None (list string) = Some []) /\
  exists st,
    create_game_endpoint shuffle_rev "h" None demo_store
      = (Ok ("h", Some st), <["h" := st]> demo_store) /\
    name <$> players st = ["Player1"; "Player2"] /\
    draw_pile_count st = 44.
Proof.
  assert (H0 : shuffle_rev ordered_deck ≡ₚ ordered_deck)
    by (unfold shuffle_rev; symmetry; apply Permutation_rev).
  assert (H1 : @None (list string) = None \/ @None (list string) = Some []) by (left; reflexivity).
  split; [exact H0|]. split; [exact H1|].
  destruct (create_game_endpoint_defaults shuffle_rev "h" None demo_store H0 H1)
    as (st & He & _ & Hn & _ & _ & Hc & _).
  exists st. auto.
Defined.

(** X26. Patching with what is stored changes nothing: a patch that names
    no key, and a patch made of the whole session that [get_state] returns,
    both return the session and leave the store as it is; and applying any
    patch a second time changes nothing more. *)
Theorem patch_state_round_trip gid (s : Store) st patch :
  s !! gid = Some st ->
  get_state gid s = (Ok (Some st), s) /\
  patch_state gid (full_patch st) s = (Ok st, s) /\
  patch_state gid empty_patch s = (Ok st, s) /\
  patch_state gid patch (snd (patch_state gid patch s)) = patch_state gid patch s.
Proof.
  intros Hst.
  split; [unfold get_state; st_unfold; by rewrite Hst|].
  split; [by rewrite (patch_state_found _ _ _ _ Hst), dict_update_full, insert_id|].
  split.
  { rewrite (patch_state_found _ _ _ _ Hst).
    assert (H : dict_update st empty_patch = st) by (destruct st; reflexivity).
    by rewrite H, insert_id. }
  rewrite (patch_state_found _ _ _ _ Hst). simpl.
  rewrite (patch_state_found _ _ _ (dict_update st patch)) by apply lookup_insert_eq.
  assert (H : dict_update (dict_update st patch) patch = dict_update st patch).
  { unfold dict_update. simpl.
    destruct patch as [[?|] [?|] [?|] [?|] [?|] [?|] [?|] [?|] [?|] [?|]]; reflexivity. }
  rewrite H, insert_insert_eq. reflexivity.
Qed.

Lemma patch_state_round_trip_witness :
  demo_store !! "g" = Some (the_session demo_store "g") /\
  patch_state "g" (full_patch (the_session demo_store "g")) demo_store
    = (Ok (the_session demo_store "g"), demo_store) /\
  patch_state "g" demo_patch (snd (patch_state "g" demo_patch demo_store))
    = patch_state "g" demo_patch demo_store.
Proof.
  assert (H : demo_store !! "g" = Some (the_session demo_store "g"))
    by (vm_compute; reflexivity).
  split; [exact H|].
  destruct (patch_state_round_trip "g" demo_store _ demo_patch H) as (_ & Hfull & _ & Htwice).
  split; [exact Hfull|exact Htwice].
Defined.
